(** * The CODESYS alarm list editor (main_app.py): record store engine

    A shallow embedding of the file handling of [main_app.py] and the
    properties of its record store: the UTF-16LE text layer of Python's
    [open], the line and cell parser [read_all_rows], the writers
    ([ensure_file_and_header], [append_row_utf16le], [create_new_file] and
    the rewrite loops of [delete_selected] and [save_changes]), the
    duplicate check [id_exists] and the preview ordering [try_int_key].

    Python strings are sequences of Unicode code points and are modelled as
    [list Z]; file contents are sequences of bytes, [list byte].  The Tk
    widgets are outside the model: the functions that read the form take the
    widget contents as arguments. *)

From Stdlib Require Import ZArith Bool Lia String Ascii DecimalString List
  Permutation.
From Stdlib Require Import Strings.Byte Sorting.Sorted.
Import ListNotations.
Open Scope Z_scope.

(** ** Python strings *)

Definition text := list Z.
Definition bytes := list byte.
Definition row := list text.

(** A literal of the source, as code points. *)
Definition txt (s : string) : text :=
  map (fun a => Z.of_N (N_of_ascii a)) (list_ascii_of_string s).

Definition LF : Z := 10.
Definition CR : Z := 13.
Definition SPACE : Z := 32.
Definition DQUOTE : Z := 34.
Definition SQUOTE : Z := 39.
Definition SEMI : Z := 59.
Definition CRLF : text := [CR; LF].

Fixpoint text_eqb (a b : text) : bool :=
  match a, b with
  | [], [] => true
  | x :: a', y :: b' => (x =? y) && text_eqb a' b'
  | _, _ => false
  end.

(** [str.isspace] / the characters removed by [str.strip()] (Unicode 14). *)
Definition is_space (c : Z) : bool :=
  ((9 <=? c) && (c <=? 13)) || ((28 <=? c) && (c <=? 32))
  || (c =? 133) || (c =? 160) || (c =? 5760)
  || ((8192 <=? c) && (c <=? 8202))
  || (c =? 8232) || (c =? 8233) || (c =? 8239) || (c =? 8287) || (c =? 12288).

(** The line boundaries of [str.splitlines]. *)
Definition is_linebreak (c : Z) : bool :=
  ((10 <=? c) && (c <=? 13)) || ((28 <=? c) && (c <=? 30))
  || (c =? 133) || (c =? 8232) || (c =? 8233).

(** [s.replace(old, new)] for one-character [old] and [new]. *)
Definition replace_char (old new : Z) (s : text) : text :=
  map (fun c => if c =? old then new else c) s.

Fixpoint lstrip (p : Z -> bool) (s : text) : text :=
  match s with
  | [] => []
  | c :: r => if p c then lstrip p r else s
  end.

Definition rstrip (p : Z -> bool) (s : text) : text := rev (lstrip p (rev s)).

(** [s.strip()] is [strip is_space s]; [s.strip(ch)] is [strip (Z.eqb ch) s]. *)
Definition strip (p : Z -> bool) (s : text) : text := rstrip p (lstrip p s).

(** [sep.join(parts)]. *)
Fixpoint join (sep : text) (parts : list text) : text :=
  match parts with
  | [] => []
  | [a] => a
  | a :: rest => a ++ sep ++ join sep rest
  end.

(** [s.split(sep)] for a one-character separator: never the empty list. *)
Fixpoint split_on (sep : Z) (s : text) : list text :=
  match s with
  | [] => [[]]
  | c :: r =>
      if c =? sep then [] :: split_on sep r
      else match split_on sep r with
           | [] => [[c]]
           | l :: ls => (c :: l) :: ls
           end
  end.

(** [s.splitlines()]: the text is cut at every line boundary, CR LF counts
    as one boundary, and a final boundary opens no further line. *)
Fixpoint splitlines (s : text) : list text :=
  match s with
  | [] => []
  | c :: r =>
      if is_linebreak c then
        [] :: (if c =? CR
               then match r with
                    | d :: r' => if d =? LF then splitlines r' else splitlines r
                    | [] => []
                    end
               else splitlines r)
      else match splitlines r with
           | [] => [[c]]
           | l :: ls => (c :: l) :: ls
           end
  end.

(** ** The text layer of [open]

    [open(path, mode, encoding=DEFAULT_ENCODING)] is a text file with the default
    [newline=None]: written text has every LF replaced by [os.linesep] and
    is then encoded; read bytes are decoded and CR LF, CR and LF all become
    LF.  The codec is strict in both directions. *)

Inductive platform := Posix | Windows.

Definition os_linesep (pf : platform) : text :=
  match pf with Posix => [LF] | Windows => CRLF end.

Definition translate_out (pf : platform) (s : text) : text :=
  flat_map (fun c => if c =? LF then os_linesep pf else [c]) s.

(** Universal newlines on input; [pending_cr] is set right after a CR. *)
Fixpoint translate_in_from (pending_cr : bool) (s : text) : text :=
  match s with
  | [] => []
  | c :: r =>
      if c =? CR then LF :: translate_in_from true r
      else if (c =? LF) && pending_cr then translate_in_from false r
      else c :: translate_in_from false r
  end.

Definition translate_in (s : text) : text := translate_in_from false s.

Definition is_scalar (c : Z) : bool :=
  ((0 <=? c) && (c <? 55296)) || ((57344 <=? c) && (c <? 1114112)).

Definition byte_val (b : byte) : Z := Z.of_N (Byte.to_N b).

Definition byte_of (z : Z) : byte :=
  match Byte.of_N (Z.to_N z) with Some b => b | None => x00 end.

(** The 16-bit code unit of two bytes, low byte first, and the code point
    of a surrogate pair. *)
Definition code_unit (b0 b1 : byte) : Z := byte_val b0 + 256 * byte_val b1.

Definition pair_value (u w : Z) : Z :=
  65536 + (u - 55296) * 1024 + (w - 56320).

Definition encode_cp (c : Z) : option bytes :=
  if ((0 <=? c) && (c <? 55296)) || ((57344 <=? c) && (c <? 65536)) then
    Some [byte_of (c mod 256); byte_of (c / 256)]
  else if (65536 <=? c) && (c <? 1114112) then
    let v := c - 65536 in
    let hi := 55296 + v / 1024 in
    let lo := 56320 + v mod 1024 in
    Some [byte_of (hi mod 256); byte_of (hi / 256);
          byte_of (lo mod 256); byte_of (lo / 256)]
  else None.

(** [s.encode] for utf-16-le; a lone surrogate raises. *)
Fixpoint utf16le_encode (s : text) : option bytes :=
  match s with
  | [] => Some []
  | c :: r =>
      match encode_cp c, utf16le_encode r with
      | Some b, Some bs => Some (b ++ bs)
      | _, _ => None
      end
  end.

(** [b.decode] for utf-16-le; truncated data or a lone surrogate raises.  No
    byte order mark is interpreted: FF FE decodes to U+FEFF. *)
Fixpoint utf16le_decode (bs : bytes) : option text :=
  match bs with
  | [] => Some []
  | b0 :: bs1 =>
      match bs1 with
      | [] => None
      | b1 :: bs2 =>
          let u := code_unit b0 b1 in
          if (55296 <=? u) && (u <? 56320) then
            match bs2 with
            | b2 :: b3 :: bs4 =>
                let w := code_unit b2 b3 in
                if (56320 <=? w) && (w <? 57344) then
                  option_map (cons (pair_value u w)) (utf16le_decode bs4)
                else None
            | _ => None
            end
          else if (56320 <=? u) && (u <? 57344) then None
          else option_map (cons u) (utf16le_decode bs2)
      end
  end.

(** What [f.write(s)] hands to the operating system. *)
Definition text_to_bytes (pf : platform) (s : text) : option bytes :=
  utf16le_encode (translate_out pf s).

(** What [f.read()] returns. *)
Definition bytes_to_text (bs : bytes) : option text :=
  option_map translate_in (utf16le_decode bs).

(** ** The store *)

Definition COLUMNS : row :=
  map txt
    ["ID"; "ObservationType"; "Details1"; "Details2"; "Details3";
     "Details4"; "Details5"; "Details6"; "Deactivation"; "Class";
     "Message"; "MinPendingTime"; "Latch1"; "Latch2"; "HigherPrioAlarm"]%string.

Definition BOM_UTF16_LE : bytes := [xff; xfe].

(** The files of interest, by path; [None] is a path that does not exist. *)
Definition path := string.
Definition fs := path -> option bytes.

Definition fs_write (st : fs) (p : path) (b : bytes) : fs :=
  fun q => if String.eqb q p then Some b else st q.

Definition no_files : fs := fun _ => None.

Definition file_bytes (st : fs) (p : path) : bytes :=
  match st p with Some b => b | None => [] end.

(** [header_line] of the source: the column names joined by semicolons,
    then CR LF. *)
Definition header_line : text := join [SEMI] COLUMNS ++ CRLF.

(** [version_line] of the source: the version stamp, [len(COLUMNS)-1]
    semicolons, then CR LF. *)
Definition version_text : text := txt "#Version: 1.0.0.0".
Definition version_line : text :=
  version_text ++ repeat SEMI (length COLUMNS - 1) ++ CRLF.

(** [ensure_file_and_header]: the file is opened for writing and receives
    one [write]. *)
Definition ensure_file_and_header (pf : platform) (st : fs) (p : path) : fs :=
  match st p with
  | Some _ => st
  | None =>
      match text_to_bytes pf header_line with
      | Some b => fs_write st p b
      | None => fs_write st p []
      end
  end.

(** [create_new_file] once the dialog has returned [p]: the file is opened
    in binary mode, so no newline translation applies. *)
Definition create_new_file (st : fs) (p : path) : fs * bool :=
  match utf16le_encode version_line, utf16le_encode header_line with
  | Some v, Some h => (fs_write st p (BOM_UTF16_LE ++ v ++ h), true)
  | Some v, None => (fs_write st p (BOM_UTF16_LE ++ v), false)
  | None, _ => (fs_write st p BOM_UTF16_LE, false)
  end.

(** The values a row handed to [append_row_utf16le] may hold: [None], a
    string, an [int], or any other object, given by what [str] makes of
    it: the string its [__str__] returns, or nothing when it raises. *)
Inductive pyval :=
| PyNone
| PyStr (s : text)
| PyInt (n : Z)
| PyObj (r : option text).

(** The default limit of [sys.set_int_max_str_digits]. *)
Definition int_max_str_digits : nat := 4300.

(** The number of decimal digits of [n], the sign not counted. *)
Definition decimal_digits (n : Z) : nat :=
  match Z.to_int n with
  | Decimal.Pos d | Decimal.Neg d => Decimal.nb_digits d
  end.

(** [str(v)], or [None] when it raises: an [int] of more than
    [int_max_str_digits] digits is refused with a ValueError. *)
Definition py_str (v : pyval) : option text :=
  match v with
  | PyNone => Some (txt "None")
  | PyStr s => Some s
  | PyInt n =>
      if (int_max_str_digits <? decimal_digits n)%nat then None
      else Some (txt (DecimalString.NilZero.string_of_int (Z.to_int n)))
  | PyObj r => r
  end.

(** The three [replace] calls of [append_row_utf16le]. *)
Definition sanitize_text (s : text) : text :=
  replace_char DQUOTE SQUOTE (replace_char CR SPACE (replace_char LF SPACE s)).

(** The body of the [for v in row_values] loop of [append_row_utf16le]:
    the value appended to [safe_values], or [None] when [str] raises. *)
Definition sanitize_value (v : pyval) : option text :=
  match v with
  | PyNone => Some []
  | _ => option_map sanitize_text (py_str v)
  end.

(** The loop itself: [safe_values], or [None] as soon as a [str] raises. *)
Fixpoint sanitize_values (row_values : list pyval) : option (list text) :=
  match row_values with
  | [] => Some []
  | v :: rest =>
      match sanitize_value v with
      | None => None
      | Some s => option_map (cons s) (sanitize_values rest)
      end
  end.

Inductive outcome :=
| Success
| Required       (* ID is required. *)
| DuplicateId    (* ID ... already exists! *)
| NotFound       (* ... ID not found in file *)
| WriteError.    (* the call raised *)

(** [append_row_utf16le]: the line is appended to whatever bytes the file
    holds.  A [str] that raises does so before the file is touched; a line
    that cannot be encoded raises in [f.write], after
    [ensure_file_and_header]. *)
Definition append_row_utf16le (pf : platform) (st : fs) (p : path)
    (row_values : list pyval) : fs * outcome :=
  match sanitize_values row_values with
  | None => (st, WriteError)
  | Some safe_values =>
      let line := join [SEMI] safe_values ++ CRLF in
      let st1 := ensure_file_and_header pf st p in
      match text_to_bytes pf line with
      | Some b => (fs_write st1 p (file_bytes st1 p ++ b), Success)
      | None => (st1, WriteError)
      end
  end.

(** [while len(cols) < len(COLUMNS): cols.append(empty)], at most
    [len(COLUMNS)] rounds. *)
Fixpoint pad_loop (fuel : nat) (cols : row) : row :=
  match fuel with
  | O => cols
  | S k =>
      if (length cols <? length COLUMNS)%nat then pad_loop k (cols ++ [[]])
      else cols
  end.

Definition pad_row (cols : row) : row := pad_loop (length COLUMNS) cols.

(** The cell sanitizer of [read_all_rows]: [strip()], then the double
    quote stripped, then the apostrophe. *)
Definition clean_cell (c : text) : text :=
  strip (Z.eqb SQUOTE) (strip (Z.eqb DQUOTE) (strip is_space c)).

(** [not line.strip()]. *)
Definition is_blank (line : text) : bool :=
  match strip is_space line with [] => true | _ => false end.

Definition parse_line (line : text) : row :=
  pad_row (map clean_cell (split_on SEMI line)).

(** The [for line in lines] loop of [read_all_rows]. *)
Fixpoint parse_lines (lines : list text) : list row :=
  match lines with
  | [] => []
  | line :: rest =>
      if is_blank line then parse_lines rest
      else parse_line line :: parse_lines rest
  end.

(** The rows [read_all_rows] makes of the bytes of a file; bytes that do
    not decode give no rows. *)
Definition rows_of_bytes (bs : bytes) : list row :=
  match bytes_to_text bs with
  | None => []
  | Some t => parse_lines (splitlines t)
  end.

(** [read_all_rows]: a file that cannot be opened gives no rows. *)
Definition read_all_rows (st : fs) (p : path) : list row :=
  match st p with
  | None => []
  | Some bs => rows_of_bytes bs
  end.

(** The two ways the source separates the data rows from the two leading
    rows: [refresh_preview_and_autosize] and [id_exists] take no data rows
    from a file of at most two rows, ... *)
Definition data_rows_shown (rows : list row) : list row :=
  if (2 <? length rows)%nat then skipn 2 rows else [].

(** ... [delete_selected], [edit_selected] and [save_changes] take all of
    them. *)
Definition data_rows_edit (rows : list row) : list row :=
  if (2 <? length rows)%nat then skipn 2 rows else rows.

Definition header_rows (rows : list row) : list row :=
  if (2 <? length rows)%nat then firstn 2 rows else [].

(** Field 0 of a row, the empty string for a row without cells:
    [r[0] if r and len(r) > 0 else empty]. *)
Definition row_id (r : row) : text := nth 0 r [].

(** [len(r) > 0 and r[0] == target]. *)
Definition has_id (target : text) (r : row) : bool :=
  match r with
  | [] => false
  | c :: _ => text_eqb c target
  end.

(** The [for r in data_rows] loop of [id_exists]. *)
Fixpoint id_scan (target : text) (exclude : option text) (data_rows : list row)
  : bool :=
  match data_rows with
  | [] => false
  | r :: rest =>
      if has_id target r then
        match exclude with
        | Some e => if has_id e r then id_scan target exclude rest else true
        | None => true
        end
      else id_scan target exclude rest
  end.

(** [id_exists] with [p] the selected file. *)
Definition id_exists (st : fs) (p : path) (target : text)
    (exclude : option text) : bool :=
  id_scan target exclude (data_rows_shown (read_all_rows st p)).

(** The line written for a row: the padding loop, the cells joined by
    semicolons, then CR LF. *)
Definition row_line (r : row) : text := join [SEMI] (pad_row r) ++ CRLF.

(** The rewrite loop shared by [delete_selected] and [save_changes]: the
    file is truncated on opening and the lines are written one by one; when
    a [write] raises, the lines before it stay in the file. *)
Fixpoint write_rows (pf : platform) (rows : list row) : bytes * bool :=
  match rows with
  | [] => ([], true)
  | r :: rest =>
      match text_to_bytes pf (row_line r) with
      | Some b => let (bs, ok) := write_rows pf rest in (b ++ bs, ok)
      | None => ([], false)
      end
  end.

(** The [for r in data_rows] loop of [delete_selected]: the rows appended to
    [new_lines] and the final value of [removed]. *)
Fixpoint delete_loop (target : text) (removed : bool) (data_rows : list row)
  : list row * bool :=
  match data_rows with
  | [] => ([], removed)
  | r :: rest =>
      if negb removed && has_id target r then delete_loop target true rest
      else let (l, f) := delete_loop target removed rest in (r :: l, f)
  end.

(** [delete_selected] once the deletion of [target_id] is confirmed. *)
Definition delete_selected (pf : platform) (st : fs) (p : path)
    (target_id : text) : fs * outcome :=
  let rows := read_all_rows st p in
  let (kept, removed) := delete_loop target_id false (data_rows_edit rows) in
  let new_lines := header_rows rows ++ kept in
  if removed then
    let (b, ok) := write_rows pf new_lines in
    (fs_write st p b, if ok then Success else WriteError)
  else (st, NotFound).

(** The contents of the form widgets. *)
Record form := {
  entry_id : text;
  entry_details1 : text;
  combo_details3 : text;
  combo_obs_type : text;
  combo_class : text;
  text_message : text
}.

(** The row [add_entry] and [save_changes] build from the form. *)
Definition form_row (f : form) : row :=
  [strip is_space (entry_id f); combo_obs_type f;
   strip is_space (entry_details1 f); txt "="; combo_details3 f;
   []; []; []; []; combo_class f; strip is_space (text_message f);
   []; []; []; []].

(** The [for r in data_rows] loop of [save_changes]. *)
Fixpoint save_loop (original_id : text) (new_r : row) (updated : bool)
    (data_rows : list row) : list row * bool :=
  match data_rows with
  | [] => ([], updated)
  | r :: rest =>
      if negb updated && has_id original_id r then
        let (l, f) := save_loop original_id new_r true rest in (new_r :: l, f)
      else
        let (l, f) := save_loop original_id new_r updated rest in (r :: l, f)
  end.

(** Lines 427-471 of [save_changes]: the update of the record
    [original_id] by the row [new_r]. *)
Definition update_row (pf : platform) (st : fs) (p : path)
    (original_id : text) (new_r : row) : fs * outcome :=
  let rows := read_all_rows st p in
  let (data, updated) :=
    save_loop original_id new_r false (data_rows_edit rows) in
  let new_all := header_rows rows ++ data in
  if updated then
    let (b, ok) := write_rows pf new_all in
    (fs_write st p b, if ok then Success else WriteError)
  else (st, NotFound).

(** [save_changes] in edit mode on [original_id]. *)
Definition save_changes (pf : platform) (st : fs) (p : path)
    (original_id : text) (f : form) : fs * outcome :=
  let new_id := strip is_space (entry_id f) in
  match new_id with
  | [] => (st, Required)
  | _ =>
      if id_exists st p new_id (Some original_id) then (st, DuplicateId)
      else update_row pf st p original_id (form_row f)
  end.

(** [add_entry] with [p] the selected file. *)
Definition add_entry (pf : platform) (st : fs) (p : path) (f : form)
  : fs * outcome :=
  let id_value := strip is_space (entry_id f) in
  match id_value with
  | [] => (st, Required)
  | _ =>
      if id_exists st p id_value None then (st, DuplicateId)
      else
        append_row_utf16le pf st p
          (map PyStr
             [id_value; combo_obs_type f; strip is_space (entry_details1 f);
              txt "="; combo_details3 f; []; []; []; []; combo_class f;
              strip is_space (text_message f); []; []; []; []])
  end.

(** ** The preview: ordering and display rows *)

(** First code points of the runs of ten decimal digits (category Nd) of
    Unicode 14, the table [int] consults. *)
Definition decimal_zeros : list Z :=
  [48; 1632; 1776; 1984; 2406; 2534; 2662; 2790; 2918; 3046; 3174; 3302;
   3430; 3558; 3664; 3792; 3872; 4160; 4240; 6112; 6160; 6470; 6608; 6784;
   6800; 6992; 7088; 7232; 7248; 42528; 43216; 43264; 43472; 43504; 43600;
   44016; 65296; 66720; 68912; 69734; 69872; 69942; 70096; 70384; 70736;
   70864; 71248; 71360; 71472; 71904; 72016; 72784; 73040; 73120; 92768;
   92864; 93008; 120782; 120792; 120802; 120812; 120822; 123200; 123632;
   125264; 130032].

Definition decimal_value (c : Z) : option Z :=
  match find (fun z => (z <=? c) && (c <? z + 10)) decimal_zeros with
  | Some z => Some (c - z)
  | None => None
  end.

(** The C-level [Py_ISSPACE]. *)
Definition is_c_space (c : Z) : bool :=
  ((9 <=? c) && (c <=? 13)) || (c =? 32).

(** [int] first brings the string to ASCII: characters below 127 stay,
    other white space becomes a space, other decimal digits their ASCII
    digit, anything else a question mark. *)
Definition to_ascii (c : Z) : Z :=
  if c <? 127 then c
  else if is_space c then 32
  else match decimal_value c with
       | Some d => 48 + d
       | None => 63
       end.

(** Digits with single underscores between them: the value and the number
    of digits. *)
Fixpoint scan_digits (acc : Z) (n : nat) (after_underscore : bool) (s : text)
  : option (Z * nat) :=
  match s with
  | [] => if after_underscore then None else Some (acc, n)
  | c :: r =>
      if c =? 95 then
        if after_underscore then None else scan_digits acc n true r
      else if (48 <=? c) && (c <=? 57) then
        scan_digits (acc * 10 + (c - 48)) (S n) false r
      else None
  end.

(** [int(x)] for a string [x], base 10; [None] when it raises. *)
Definition py_int (x : text) : option Z :=
  let a := lstrip is_c_space (map to_ascii x) in
  let '(negative, body) :=
    match a with
    | c :: r => if c =? 43 then (false, r)
                else if c =? 45 then (true, r)
                else (false, a)
    | [] => (false, a)
    end in
  match rstrip is_c_space body with
  | [] => None
  | c :: r =>
      if c =? 95 then None
      else match scan_digits 0 0 false (c :: r) with
           | Some (v, n) =>
               if (int_max_str_digits <? n)%nat then None
               else Some (if negative then - v else v)
           | None => None
           end
  end.

(** The tuples [try_int_key] returns. *)
Inductive sort_key :=
| IntKey (n : Z)      (* (0, int(x)) *)
| StrKey (s : text).  (* (1, str(x)) *)

Definition try_int_key (x : text) : sort_key :=
  match py_int x with
  | Some n => IntKey n
  | None => StrKey x
  end.

(** [a < b] on Python strings: lexicographic by code point. *)
Fixpoint text_ltb (a b : text) : bool :=
  match a, b with
  | _, [] => false
  | [], _ :: _ => true
  | x :: a', y :: b' => (x <? y) || ((x =? y) && text_ltb a' b')
  end.

(** [a < b] on the tuples. *)
Definition key_ltb (a b : sort_key) : bool :=
  match a, b with
  | IntKey n, IntKey m => n <? m
  | IntKey _, StrKey _ => true
  | StrKey _, IntKey _ => false
  | StrKey s, StrKey t => text_ltb s t
  end.

(** [sorted(l, key=key)]: Python's sort is stable and compares keys with
    [<] only; a stable insertion sort returns the same list. *)
Section Sorted.
Context {A : Type} (key : A -> sort_key).

Fixpoint insert_by (x : A) (l : list A) : list A :=
  match l with
  | [] => [x]
  | y :: l' =>
      if key_ltb (key y) (key x) then y :: insert_by x l' else x :: l
  end.

Fixpoint sorted_by (l : list A) : list A :=
  match l with
  | [] => []
  | x :: l' => insert_by x (sorted_by l')
  end.

(** [a] may stand before [b]: the key of [b] is not below that of [a]. *)
Definition key_le (a b : A) : Prop := key_ltb (key b) (key a) = false.

(** The elements of one key, for stability. *)
Definition has_key (k : sort_key) (a : A) : bool :=
  negb (key_ltb (key a) k) && negb (key_ltb k (key a)).
End Sorted.

(** The key of the [lambda] in [refresh_preview_and_autosize]. *)
Definition row_key (r : row) : sort_key := try_int_key (row_id r).

Definition order_for_display (data_rows : list row) : list row :=
  sorted_by row_key data_rows.

(** [build_condition]. *)
Definition build_condition (details1 details2 details3 : text) : text :=
  strip is_space (details1 ++ [SPACE] ++ details2 ++ [SPACE] ++ details3).

(** [r[i] if len(r) > i else default]. *)
Definition cell_or (r : row) (i : nat) (default : text) : text :=
  nth i r default.

(** The values inserted into the tree for one row; [r[0]] is read without
    a guard and raises on an empty row. *)
Definition display_row (r : row) : option (text * text * text * text) :=
  match nth_error r 0 with
  | None => None
  | Some id_val =>
      let details1 := cell_or r 2 [] in
      let details2 := cell_or r 3 (txt "=") in
      let details3 := cell_or r 4 [] in
      let class_val := cell_or r 9 [] in
      let message := cell_or r 10 [] in
      Some (id_val, build_condition details1 details2 details3,
            class_val, message)
  end.

(** The data rows [refresh_preview_and_autosize] lists, in file order. *)
Definition list_data_records (st : fs) (p : path) : list row :=
  data_rows_shown (read_all_rows st p).

(** The rows of the tree after [refresh_preview_and_autosize]. *)
Definition preview (st : fs) (p : path)
  : list (option (text * text * text * text)) :=
  map display_row (order_for_display (list_data_records st p)).

(** [edit_selected]: the row whose cells fill the form. *)
Definition edit_selected (st : fs) (p : path) (target_id : text)
  : option row :=
  find (has_id target_id) (data_rows_edit (read_all_rows st p)).

(** ** Vocabulary of the properties *)



(** The text is empty or its last character is a line boundary. *)
Definition ends_with_linebreak (s : text) : bool := is_linebreak (last s LF).

(** What is read back from a written line: the line without its
    terminator, then one LF, or two where [os.linesep] is CR LF. *)
Definition newline_read (pf : platform) : text :=
  match pf with Posix => [LF] | Windows => [LF; LF] end.

(** A character that a cell can hold without breaking the line format: it
    can be encoded, and is neither the delimiter nor a line boundary. *)
Definition plain_char (c : Z) : bool :=
  is_scalar c && negb (c =? SEMI) && negb (is_linebreak c).

Definition plain_cell (s : text) : bool := forallb plain_char s.
Definition plain_row (r : row) : bool := forallb plain_cell r.
Definition plain_rows (rows : list row) : bool := forallb plain_row rows.

(** The line of a row without its terminator. *)
Definition row_body (r : row) : text := join [SEMI] (pad_row r).

(** The text of the lines the rewrite loop writes, as the encoder sees
    it. *)
Definition rows_text (pf : platform) (rows : list row) : text :=
  concat (map (fun r => translate_out pf (row_line r)) rows).

(** Rows that went through [read_all_rows] once are written as they are and
    come back with every cell sanitized again. *)
Definition resanitize (rows : list row) : list row :=
  map (map clean_cell) rows.

(** A cell the sanitizer of [read_all_rows] leaves as it is: no white space
    and no quote character at either end. *)
Definition stable_cell (c : text) : bool := text_eqb (clean_cell c) c.
Definition stable_row (r : row) : bool := forallb stable_cell r.
Definition stable_rows (rows : list row) : bool := forallb stable_row rows.

(** A field value that [append_row_utf16le] can store on one line: it can
    be encoded and holds no line boundary apart from LF and CR, which the
    sanitizer replaces. *)
Definition storable_char (c : Z) : bool :=
  is_scalar c && (negb (is_linebreak c) || (c =? LF) || (c =? CR)).

Definition storable (s : text) : bool := forallb storable_char s.

(** The bytes [create_new_file] writes. *)
Definition fresh_file : bytes :=
  BOM_UTF16_LE
    ++ match utf16le_encode version_line with Some b => b | None => [] end
    ++ match utf16le_encode header_line with Some b => b | None => [] end.

(** The code point U+FEFF the byte order mark decodes to. *)
Definition BOM_CHAR : Z := 65279.

(** The bytes [ensure_file_and_header] writes. *)
Definition header_bytes (pf : platform) : bytes :=
  match text_to_bytes pf header_line with Some b => b | None => [] end.

(** The record of the scenario: a full row as [add_entry] builds it. *)
Definition sample_cells : row :=
  [txt "1"; txt "Digital"; txt "Motor1.Fault"; txt "="; txt "TRUE";
   []; []; []; []; txt "Error"; txt "Motor 1 fault"; []; []; []; []].

Definition sample_record : list pyval := map PyStr sample_cells.

(** The order of the preview, spelled out on the identifiers. *)
Definition display_le (a b : row) : Prop :=
  match py_int (row_id a), py_int (row_id b) with
  | Some n, Some m => n <= m
  | Some _, None => True
  | None, Some _ => False
  | None, None => text_ltb (row_id b) (row_id a) = false
  end.

(** Four rows with the identifiers 10, 2, abc and 1. *)
Definition ids_10_2_abc_1 : list row :=
  map (fun s => pad_row [txt s]) ["10"; "2"; "abc"; "1"]%string.

(** The number of delimiter-separated fields of a line. *)
Definition field_count (line : text) : nat := length (split_on SEMI line).

(** The lines of the file at [p], as [f.read().splitlines()] cuts them. *)
Definition disk_lines (st : fs) (p : path) : list text :=
  match st p with
  | None => []
  | Some bs =>
      match bytes_to_text bs with
      | None => []
      | Some t => splitlines t
      end
  end.

(** What follows a written line on disk: nothing, or, where [os.linesep]
    is CR LF and the terminator CR LF reaches the disk as CR CR LF, one
    empty line. *)
Definition line_gap (pf : platform) : list text :=
  match pf with Posix => [] | Windows => [[]] end.

Definition nonempty_line (l : text) : bool :=
  match l with [] => false | _ => true end.

(** No cell of the row holds a line boundary. *)
Definition line_safe_row (r : row) : bool :=
  forallb (forallb (fun c => negb (is_linebreak c))) r.

(** The cell holds no delimiter. *)
Definition no_delimiter (c : text) : bool := negb (existsb (Z.eqb SEMI) c).

(** The path of the worked stores. *)
Definition p0 : path := "alarms.csv"%string.

(** A file as [create_new_file] leaves it. *)
Definition st_fresh : fs := fst (create_new_file no_files p0).

(** The form filled in with an identifier and a message. *)
Definition filled (id message : text) : form :=
  {| entry_id := id;
     entry_details1 := txt "Motor1.Fault";
     combo_details3 := txt "TRUE";
     combo_obs_type := txt "Digital";
     combo_class := txt "Error";
     text_message := message |}.

(** One entry added to a fresh file. *)
Definition st_one : fs :=
  fst (add_entry Posix st_fresh p0 (filled (txt "1") (txt "Motor 1 fault"))).

(** Two entries added to a fresh file. *)
Definition st_two : fs :=
  fst (add_entry Posix st_one p0 (filled (txt "2") (txt "Motor 2 fault"))).

(** An entry whose identifier was typed between apostrophes with a leading
    space, then an entry with the bare identifier. *)
Definition st_quoted : fs :=
  fst (add_entry Posix
         (fst (add_entry Posix st_fresh p0
                 (filled (txt "' 7'") (txt "first"))))
         p0 (filled (txt "7") (txt "second"))).

(** An entry whose message holds the delimiter, then a second entry. *)
Definition st_delimiter : fs :=
  fst (add_entry Posix
         (fst (add_entry Posix st_fresh p0
                 (filled (txt "1") (txt "stop; check valve"))))
         p0 (filled (txt "2") (txt "Motor 2 fault"))).

(** What [f.read()] returns for a fresh file. *)
Definition fresh_text : text :=
  translate_in (BOM_CHAR :: version_line ++ header_line).

(** The two data records of [st_two]. *)
Definition row_one : row := nth 0 (list_data_records st_two p0) [].
Definition row_two : row := nth 1 (list_data_records st_two p0) [].

(** The bytes of a file holding the text [t]. *)
Definition file_of_text (t : text) : bytes :=
  match utf16le_encode t with Some b => b | None => [] end.

(** A file whose last line has no terminator. *)
Definition st_open : fs :=
  fs_write no_files p0
    (file_of_text (version_line ++ header_line ++ txt "1;Digital")).

(** Two records with the same identifier, appended without the duplicate
    check of [add_entry]. *)
Definition st_dup : fs :=
  fst (append_row_utf16le Posix
         (fst (append_row_utf16le Posix st_fresh p0
                 (map PyStr [txt "7"; txt "Digital"])))
         p0 (map PyStr [txt "7"; txt "Analog"])).

(** A file as [ensure_file_and_header] creates it. *)
Definition st_header_only : fs := ensure_file_and_header Posix no_files p0.

(** ** Further functions of the source *)

(** [browse_file] once the dialog has returned [p]: the file is ensured and
    the preview refreshed. *)
Definition browse_file (pf : platform) (st : fs) (p : path)
  : fs * list (option (text * text * text * text)) :=
  let st1 := ensure_file_and_header pf st p in
  (st1, preview st1 p).

(** ** Vocabulary of the further properties *)

(** A store the append path can extend: the file can be read, its text is
    empty or ends with a line boundary, and it holds the two leading
    rows. *)
Definition store_ok (st : fs) (p : path) : Prop :=
  exists old t0,
    st p = Some old /\ bytes_to_text old = Some t0
    /\ ends_with_linebreak t0 = true
    /\ (2 <= length (read_all_rows st p))%nat.

(** A cell that is stored and read back as it is: it can be encoded, holds
    no delimiter, line boundary or double quote, and has no white space or
    apostrophe at either end. *)
Definition settled_cell (c : text) : bool :=
  plain_cell c && stable_cell c && text_eqb (sanitize_text c) c.

Definition settled_row (r : row) : bool := forallb settled_cell r.
Definition settled_rows (rows : list row) : bool := forallb settled_row rows.

(** The identifiers of the data records, in file order. *)
Definition listed_ids (st : fs) (p : path) : list text :=
  map row_id (list_data_records st p).

(** An ASCII decimal digit, and the number a string of them denotes. *)
Definition is_digit (c : Z) : bool := (48 <=? c) && (c <=? 57).

Definition decimal_of (x : text) : Z :=
  fold_left (fun acc c => acc * 10 + (c - 48)) x 0.

(** An ASCII character that [int] accepts nowhere in a string. *)
Definition never_in_int (c : Z) : bool :=
  (c <? 127) && negb (is_digit c) && negb (is_c_space c)
  && negb (c =? 43) && negb (c =? 45) && negb (c =? 95).

(** The file at [p] starts with the byte order mark. *)
Definition has_bom (st : fs) (p : path) : Prop :=
  exists rest, st p = Some (BOM_UTF16_LE ++ rest).

(** What [read_all_rows] makes of a field [append_row_utf16le] stored: the
    field sanitized for writing, then sanitized by the read. *)
Definition stored_cell (c : text) : text := clean_cell (sanitize_text c).

(** The listed records are read back as they stand and no two of them
    carry one identifier. *)
Definition unique_ids (st : fs) (p : path) : Prop :=
  settled_rows (list_data_records st p) = true /\ NoDup (listed_ids st p).

(** The stores the editor reaches from a newly created file: entries are
    added and saved from forms whose row is read back as it stands, and
    the record saved over or deleted is one of the listed ones, as when it
    is picked in the preview. *)
Inductive reachable (pf : platform) (p : path) : fs -> Prop :=
| reach_new (st : fs) : reachable pf p (fst (create_new_file st p))
| reach_add (st : fs) (f : form) :
    reachable pf p st -> settled_row (form_row f) = true ->
    reachable pf p (fst (add_entry pf st p f))
| reach_save (st : fs) (original_id : text) (f : form) :
    reachable pf p st -> id_exists st p original_id None = true ->
    settled_row (form_row f) = true ->
    reachable pf p (fst (save_changes pf st p original_id f))
| reach_delete (st : fs) (id : text) :
    reachable pf p st -> id_exists st p id None = true ->
    reachable pf p (fst (delete_selected pf st p id)).

(** A file of one byte, which is no UTF-16 text. *)
Definition st_odd : fs := fs_write no_files p0 [x41].

(** A row whose second cell holds a lone surrogate, which cannot be
    encoded. *)
Definition unencodable_row : row := [txt "2"; [55296]].

(** A path other than [p0]. *)
Definition p1 : path := "other.csv"%string.

(** * Properties *)

(** ** Bytes and the UTF-16LE codec *)

Lemma byte_val_range (b : byte) : 0 <= byte_val b < 256.
Proof.
  unfold byte_val. pose proof (Byte.to_N_bounded b). lia.
Qed.

Lemma byte_val_of (z : Z) : 0 <= z < 256 -> byte_val (byte_of z) = z.
Proof.
  intros Hz. unfold byte_val, byte_of.
  destruct (Byte.of_N (Z.to_N z)) as [b|] eqn:E.
  - apply Byte.to_of_N in E. rewrite E. lia.
  - apply Byte.of_N_None_iff in E. lia.
Qed.

Lemma is_scalar_true (c : Z) :
  is_scalar c = true <-> (0 <= c < 55296 \/ 57344 <= c < 1114112).
Proof. unfold is_scalar. lia. Qed.

Lemma encode_cp_scalar (c : Z) :
  is_scalar c = true -> exists b, encode_cp c = Some b.
Proof.
  rewrite is_scalar_true. intros H. unfold encode_cp.
  destruct (((0 <=? c) && (c <? 55296)) || ((57344 <=? c) && (c <? 65536)))
    eqn:E1; [eauto|].
  destruct ((65536 <=? c) && (c <? 1114112)) eqn:E2; [eauto|]. lia.
Qed.

Lemma encode_cp_is_scalar (c : Z) (b : bytes) :
  encode_cp c = Some b -> is_scalar c = true.
Proof.
  unfold encode_cp. rewrite is_scalar_true.
  destruct (((0 <=? c) && (c <? 55296)) || ((57344 <=? c) && (c <? 65536)))
    eqn:E1; [lia|].
  destruct ((65536 <=? c) && (c <? 1114112)) eqn:E2; [lia|discriminate].
Qed.

Lemma decode_encode_cp (c : Z) (b rest : bytes) :
  encode_cp c = Some b ->
  utf16le_decode (b ++ rest) = option_map (cons c) (utf16le_decode rest).
Proof.
  unfold encode_cp.
  destruct (((0 <=? c) && (c <? 55296)) || ((57344 <=? c) && (c <? 65536)))
    eqn:E1.
  - intros [= <-]. cbn [app utf16le_decode].
    assert (Hm : 0 <= c mod 256 < 256) by (apply Z.mod_pos_bound; lia).
    assert (Hd : 0 <= c / 256 < 256)
      by (split; [apply Z.div_pos; lia | apply Z.div_lt_upper_bound; lia]).
    unfold code_unit. rewrite (byte_val_of _ Hm), (byte_val_of _ Hd).
    replace (c mod 256 + 256 * (c / 256)) with c
      by (rewrite (Z.div_mod c 256) at 1; lia).
    destruct ((55296 <=? c) && (c <? 56320)) eqn:E2; [lia|].
    destruct ((56320 <=? c) && (c <? 57344)) eqn:E3; [lia|]. reflexivity.
  - destruct ((65536 <=? c) && (c <? 1114112)) eqn:E2; [|discriminate].
    cbv zeta.
    set (v := c - 65536).
    assert (Hv : 0 <= v < 1048576) by (unfold v; lia).
    assert (Hq : 0 <= v / 1024 < 1024)
      by (split; [apply Z.div_pos; lia | apply Z.div_lt_upper_bound; lia]).
    assert (Hr : 0 <= v mod 1024 < 1024) by (apply Z.mod_pos_bound; lia).
    assert (Hc : c = 65536 + (v / 1024) * 1024 + v mod 1024)
      by (pose proof (Z.div_mod v 1024); unfold v in *; lia).
    remember (55296 + v / 1024) as hi eqn:Ehi.
    remember (56320 + v mod 1024) as lo eqn:Elo.
    clearbody v.
    intros [= <-]. cbn [app utf16le_decode].
    assert (H1 : 0 <= hi mod 256 < 256) by (apply Z.mod_pos_bound; lia).
    assert (H2 : 0 <= lo mod 256 < 256) by (apply Z.mod_pos_bound; lia).
    assert (H3 : 0 <= hi / 256 < 256)
      by (split; [apply Z.div_pos; lia | apply Z.div_lt_upper_bound; lia]).
    assert (H4 : 0 <= lo / 256 < 256)
      by (split; [apply Z.div_pos; lia | apply Z.div_lt_upper_bound; lia]).
    unfold code_unit.
    rewrite (byte_val_of _ H1), (byte_val_of _ H2), (byte_val_of _ H3),
      (byte_val_of _ H4).
    replace (hi mod 256 + 256 * (hi / 256)) with hi
      by (rewrite (Z.div_mod hi 256) at 1; lia).
    replace (lo mod 256 + 256 * (lo / 256)) with lo
      by (rewrite (Z.div_mod lo 256) at 1; lia).
    destruct ((55296 <=? hi) && (hi <? 56320)) eqn:E3; [|lia].
    destruct ((56320 <=? lo) && (lo <? 57344)) eqn:E4; [|lia].
    replace (pair_value hi lo) with c by (unfold pair_value; lia).
    reflexivity.
Qed.

Lemma decode_encode_app (s : text) (b rest : bytes) :
  utf16le_encode s = Some b ->
  utf16le_decode (b ++ rest) = option_map (app s) (utf16le_decode rest).
Proof.
  revert b. induction s as [|c s IH]; intros b.
  - intros [= <-]. cbn. destruct (utf16le_decode rest); reflexivity.
  - cbn [utf16le_encode].
    destruct (encode_cp c) as [bc|] eqn:Ec; [|discriminate].
    destruct (utf16le_encode s) as [bs|] eqn:Es; [|discriminate].
    intros [= <-]. rewrite <- app_assoc.
    rewrite (decode_encode_cp _ _ _ Ec), (IH _ eq_refl).
    destruct (utf16le_decode rest); reflexivity.
Qed.

Lemma decode_encode (s : text) (b : bytes) :
  utf16le_encode s = Some b -> utf16le_decode b = Some s.
Proof.
  intros H. pose proof (decode_encode_app s b [] H) as D.
  rewrite app_nil_r in D. rewrite D. cbn. now rewrite app_nil_r.
Qed.

Lemma encode_scalar (s : text) :
  Forall (fun c => is_scalar c = true) s -> exists b, utf16le_encode s = Some b.
Proof.
  induction 1 as [|c s Hc _ [bs IH]]; [now exists []|].
  destruct (encode_cp_scalar c Hc) as [bc Ec].
  exists (bc ++ bs). cbn. now rewrite Ec, IH.
Qed.

(** Decoding follows the code units: an induction principle for it. *)
Lemma bytes_units_ind (P : bytes -> Prop) :
  P [] ->
  (forall b, P [b]) ->
  (forall b0 b1 bs,
      P bs -> (forall b2 b3 bs', bs = b2 :: b3 :: bs' -> P bs') ->
      P (b0 :: b1 :: bs)) ->
  forall bs, P bs.
Proof.
  intros H0 H1 H2 bs.
  remember (length bs) as n eqn:En. revert bs En.
  induction n as [n IH] using lt_wf_ind. intros bs En.
  destruct bs as [|b0 [|b1 bs]]; [exact H0 | apply H1 |].
  apply H2.
  - apply (IH (length bs)); [subst n; cbn; lia | reflexivity].
  - intros b2 b3 bs' ->. apply (IH (length bs')); [subst n; cbn; lia|].
    reflexivity.
Qed.

Lemma decode_is_scalar (bs : bytes) (t : text) :
  utf16le_decode bs = Some t -> Forall (fun c => is_scalar c = true) t.
Proof.
  revert t. induction bs as [|b|b0 b1 bs IH2 IH4] using bytes_units_ind;
    intros t.
  - intros [= <-]. constructor.
  - discriminate.
  - cbn [utf16le_decode].
    pose proof (byte_val_range b0). pose proof (byte_val_range b1).
    remember (code_unit b0 b1) as u eqn:Eu. unfold code_unit in Eu.
    destruct ((55296 <=? u) && (u <? 56320)) eqn:E1.
    + destruct bs as [|b2 [|b3 bs4]]; try discriminate.
      pose proof (byte_val_range b2). pose proof (byte_val_range b3).
      remember (code_unit b2 b3) as w eqn:Ew. unfold code_unit in Ew.
      destruct ((56320 <=? w) && (w <? 57344)) eqn:E2; [|discriminate].
      destruct (utf16le_decode bs4) as [t4|] eqn:E4; [|discriminate].
      intros [= <-]. constructor; [|eapply IH4; eauto].
      apply is_scalar_true. unfold pair_value. lia.
    + destruct ((56320 <=? u) && (u <? 57344)) eqn:E2; [discriminate|].
      destruct (utf16le_decode bs) as [t2|] eqn:E3; [|discriminate].
      intros [= <-]. constructor; [|eapply IH2; eauto].
      apply is_scalar_true. lia.
Qed.

Lemma decode_app (bs rest : bytes) (t : text) :
  utf16le_decode bs = Some t ->
  utf16le_decode (bs ++ rest) = option_map (app t) (utf16le_decode rest).
Proof.
  revert t. induction bs as [|b|b0 b1 bs IH2 IH4] using bytes_units_ind;
    intros t.
  - intros [= <-]. cbn. destruct (utf16le_decode rest); reflexivity.
  - discriminate.
  - cbn [utf16le_decode app].
    remember (code_unit b0 b1) as u eqn:Eu.
    destruct ((55296 <=? u) && (u <? 56320)) eqn:E1.
    + destruct bs as [|b2 [|b3 bs4]]; try discriminate. cbn [app].
      remember (code_unit b2 b3) as w eqn:Ew.
      destruct ((56320 <=? w) && (w <? 57344)) eqn:E2; [|discriminate].
      destruct (utf16le_decode bs4) as [t4|] eqn:E4; [|discriminate].
      intros [= <-]. rewrite (IH4 _ _ _ eq_refl _ E4).
      destruct (utf16le_decode rest); reflexivity.
    + destruct ((56320 <=? u) && (u <? 57344)) eqn:E2; [discriminate|].
      destruct (utf16le_decode bs) as [t2|] eqn:E3; [|discriminate].
      intros [= <-]. rewrite (IH2 _ eq_refl).
      destruct (utf16le_decode rest); reflexivity.
Qed.

(** ** Character-wise facts about the string functions *)


Lemma replace_char_keeps_absent (a old new : Z) (s : text) :
  a <> new -> ~ In a s -> ~ In a (replace_char old new s).
Proof.
  intros Hne Hs. unfold replace_char. rewrite in_map_iff.
  intros [c [Hc Hin]]. destruct (Z.eqb_spec c old); [congruence|].
  subst. contradiction.
Qed.


Lemma lstrip_suffix (p : Z -> bool) (s : text) :
  exists pre, s = pre ++ lstrip p s /\ Forall (fun c => p c = true) pre.
Proof.
  induction s as [|c s [pre [E F]]]; [now exists []|].
  cbn. destruct (p c) eqn:Ep.
  - exists (c :: pre). split; [cbn; congruence | now constructor].
  - now exists [].
Qed.

Lemma lstrip_incl (p : Z -> bool) (s : text) (c : Z) :
  In c (lstrip p s) -> In c s.
Proof.
  destruct (lstrip_suffix p s) as [pre [E _]]. intros H.
  rewrite E. apply in_or_app. now right.
Qed.

Lemma strip_incl (p : Z -> bool) (s : text) (c : Z) :
  In c (strip p s) -> In c s.
Proof.
  unfold strip, rstrip. rewrite <- in_rev. intros H.
  apply lstrip_incl in H. rewrite <- in_rev in H.
  now apply lstrip_incl in H.
Qed.

Lemma clean_cell_incl (s : text) (c : Z) : In c (clean_cell s) -> In c s.
Proof. unfold clean_cell. intros H. now do 3 apply strip_incl in H. Qed.

Lemma lstrip_keeps (p : Z -> bool) (s : text) (c : Z) :
  In c s -> p c = false -> In c (lstrip p s).
Proof.
  intros Hin Hc. induction s as [|d s IH]; [contradiction|].
  cbn. destruct (p d) eqn:Ed; [|exact Hin].
  destruct Hin as [->|Hin]; [congruence | auto].
Qed.

Lemma strip_keeps (p : Z -> bool) (s : text) (c : Z) :
  In c s -> p c = false -> In c (strip p s).
Proof.
  intros Hin Hc. unfold strip, rstrip. rewrite <- in_rev.
  apply lstrip_keeps; [|exact Hc]. rewrite <- in_rev.
  now apply lstrip_keeps.
Qed.

Lemma is_blank_false (s : text) (c : Z) :
  In c s -> is_space c = false -> is_blank s = false.
Proof.
  intros Hin Hc. unfold is_blank.
  pose proof (strip_keeps _ _ _ Hin Hc) as H.
  destruct (strip is_space s); [contradiction | reflexivity].
Qed.

(** *** Padding *)

Lemma COLUMNS_length : length COLUMNS = 15%nat.
Proof. reflexivity. Qed.

Lemma pad_loop_spec (fuel : nat) (cols : row) :
  (15 <= length cols + fuel)%nat ->
  pad_loop fuel cols = cols ++ repeat [] (15 - length cols).
Proof.
  revert cols. induction fuel as [|k IH]; intros cols H.
  - cbn [pad_loop]. replace (15 - length cols)%nat with 0%nat by lia.
    cbn. now rewrite app_nil_r.
  - cbn [pad_loop]. rewrite COLUMNS_length.
    destruct (Nat.ltb_spec (length cols) 15) as [Hlt|Hge].
    + rewrite IH by (rewrite length_app; cbn; lia).
      rewrite length_app. cbn [length].
      replace (15 - length cols)%nat with (S (15 - (length cols + 1)))%nat
        by lia.
      cbn [repeat]. now rewrite <- app_assoc.
    + replace (15 - length cols)%nat with 0%nat by lia.
      cbn. now rewrite app_nil_r.
Qed.

(** The fuel of [pad_row] is enough: it returns the closed form of the
    loop. *)
Lemma pad_row_spec (cols : row) :
  pad_row cols = cols ++ repeat [] (15 - length cols).
Proof.
  unfold pad_row. rewrite COLUMNS_length. apply pad_loop_spec. lia.
Qed.

Lemma pad_row_length (cols : row) :
  length (pad_row cols) = Nat.max 15 (length cols).
Proof. rewrite pad_row_spec, length_app, repeat_length. lia. Qed.

Lemma pad_row_wide (cols : row) :
  (15 <= length cols)%nat -> pad_row cols = cols.
Proof.
  intros H. rewrite pad_row_spec.
  replace (15 - length cols)%nat with 0%nat by lia. apply app_nil_r.
Qed.

Lemma pad_row_cells (P : text -> Prop) (cols : row) :
  P [] -> Forall P cols -> Forall P (pad_row cols).
Proof.
  intros H0 H. rewrite pad_row_spec. apply Forall_app. split; [exact H|].
  apply Forall_forall. intros x Hx. apply repeat_spec in Hx. now subst.
Qed.

(** *** Splitting and joining *)

Lemma split_on_nonempty (sep : Z) (s : text) : split_on sep s <> [].
Proof.
  destruct s as [|c s]; cbn; [discriminate|].
  destruct (c =? sep); [discriminate|].
  destruct (split_on sep s); discriminate.
Qed.

Lemma split_on_cells (sep : Z) (P : Z -> Prop) (s : text) :
  Forall P s -> Forall (Forall (fun c => P c /\ c <> sep)) (split_on sep s).
Proof.
  induction 1 as [|c s Hc Hs IH]; cbn.
  - repeat constructor.
  - destruct (Z.eqb_spec c sep) as [->|Hne].
    + constructor; [constructor | exact IH].
    + destruct (split_on sep s) as [|l ls] eqn:E.
      * repeat constructor; assumption.
      * inversion IH; subst. constructor; [|assumption].
        constructor; [split|]; assumption.
Qed.

Lemma split_on_plain (sep : Z) (s : text) :
  ~ In sep s -> split_on sep s = [s].
Proof.
  induction s as [|c s IH]; [reflexivity|]. intros H. cbn.
  destruct (Z.eqb_spec c sep) as [->|Hne]; [exfalso; apply H; now left|].
  rewrite IH; [reflexivity|]. intros Hin. apply H. now right.
Qed.

Lemma split_on_app (sep : Z) (a rest : text) :
  ~ In sep a -> split_on sep (a ++ sep :: rest) = a :: split_on sep rest.
Proof.
  induction a as [|c a IH]; intros H; cbn.
  - now rewrite Z.eqb_refl.
  - destruct (Z.eqb_spec c sep) as [->|Hne]; [exfalso; apply H; now left|].
    rewrite IH; [reflexivity|]. intros Hin. apply H. now right.
Qed.

Lemma split_on_join (sep : Z) (cells : list text) :
  cells <> [] -> Forall (fun c => ~ In sep c) cells ->
  split_on sep (join [sep] cells) = cells.
Proof.
  intros Hne H. induction H as [|a cells Ha Hcells IH]; [now elim Hne|].
  clear Hne.
  destruct cells as [|b cells].
  - cbn. now apply split_on_plain.
  - change (join [sep] (a :: b :: cells))
      with (a ++ sep :: join [sep] (b :: cells)).
    rewrite split_on_app by assumption. f_equal. apply IH. discriminate.
Qed.

Lemma join_chars (P : Z -> Prop) (sep : text) (cells : list text) :
  Forall P sep -> Forall (Forall P) cells -> Forall P (join sep cells).
Proof.
  intros Hsep H. induction H as [|a cells Ha Hcells IH]; [constructor|].
  destruct cells as [|b cells]; [exact Ha|].
  change (join sep (a :: b :: cells)) with (a ++ sep ++ join sep (b :: cells)).
  repeat (apply Forall_app; split); assumption.
Qed.

Lemma join_has_sep (sep : Z) (a b : text) (cells : list text) :
  In sep (join [sep] (a :: b :: cells)).
Proof.
  change (join [sep] (a :: b :: cells))
    with (a ++ sep :: join [sep] (b :: cells)).
  apply in_or_app. right. now left.
Qed.

(** *** Lines *)

Lemma splitlines_nonempty (c : Z) (s : text) : splitlines (c :: s) <> [].
Proof.
  cbn [splitlines]. destruct (is_linebreak c); [discriminate|].
  destruct (splitlines s); discriminate.
Qed.

Lemma splitlines_chars (P : Z -> Prop) (s : text) :
  Forall P s ->
  Forall (Forall (fun c => P c /\ is_linebreak c = false)) (splitlines s).
Proof.
  induction s as [s IH] using (induction_ltof1 _ (@length Z)).
  unfold ltof in IH. intros H. destruct s as [|c r]; [constructor|].
  inversion H as [|? ? Hc Hr]; subst. cbn [splitlines].
  destruct (is_linebreak c) eqn:Eb.
  - constructor; [constructor|].
    destruct (c =? CR); [|apply IH; [cbn; lia | exact Hr]].
    destruct r as [|d r']; [constructor|].
    inversion Hr; subst.
    destruct (d =? LF); apply IH; cbn; try lia; assumption.
  - specialize (IH r ltac:(cbn; lia) Hr).
    destruct (splitlines r) as [|l ls]; [repeat constructor; assumption|].
    inversion IH; subst. constructor; [|assumption].
    constructor; [split|]; assumption.
Qed.

Lemma splitlines_line (body rest : text) :
  Forall (fun c => is_linebreak c = false) body ->
  splitlines (body ++ LF :: rest) = body :: splitlines rest.
Proof.
  induction 1 as [|c body Hc _ IH]; [reflexivity|].
  cbn [app splitlines]. rewrite Hc, IH. reflexivity.
Qed.

Lemma splitlines_app (a x : text) :
  ~ In CR a -> ends_with_linebreak a = true ->
  splitlines (a ++ x) = splitlines a ++ splitlines x.
Proof.
  unfold ends_with_linebreak.
  induction a as [|c a IH]; intros Hcr Hend; [reflexivity|].
  assert (Hc : c <> CR) by (intros ->; apply Hcr; now left).
  assert (Ha : ~ In CR a) by (intros Hin; apply Hcr; now right).
  cbn [app splitlines]. destruct (Z.eqb_spec c CR); [contradiction|].
  destruct a as [|d a].
  - cbn in Hend. rewrite Hend. reflexivity.
  - assert (Hend' : is_linebreak (last (d :: a) LF) = true) by exact Hend.
    rewrite (IH Ha Hend').
    destruct (is_linebreak c); [reflexivity|].
    pose proof (splitlines_nonempty d a) as Hne.
    destruct (splitlines (d :: a)); [contradiction|reflexivity].
Qed.

(** *** Newline translation *)

Lemma translate_out_app (pf : platform) (a b : text) :
  translate_out pf (a ++ b) = translate_out pf a ++ translate_out pf b.
Proof. apply flat_map_app. Qed.

Lemma translate_out_plain (pf : platform) (s : text) :
  ~ In LF s -> translate_out pf s = s.
Proof.
  induction s as [|c s IH]; [reflexivity|]. intros H.
  unfold translate_out in *. cbn [flat_map].
  destruct (Z.eqb_spec c LF) as [->|Hne]; [exfalso; apply H; now left|].
  rewrite IH; [reflexivity|]. intros Hin. apply H. now right.
Qed.

Lemma translate_out_chars (P : Z -> Prop) (pf : platform) (s : text) :
  P CR -> Forall P s -> Forall P (translate_out pf s).
Proof.
  intros Hcr. induction 1 as [|c s Hc _ IH]; [constructor|].
  unfold translate_out in *. cbn [flat_map].
  destruct (Z.eqb_spec c LF) as [->|Hne].
  - destruct pf; cbn; repeat constructor; assumption.
  - cbn. constructor; assumption.
Qed.

Lemma translate_in_chars (P : Z -> Prop) (f : bool) (s : text) :
  P LF -> Forall P s ->
  Forall (fun c => P c /\ c <> CR) (translate_in_from f s).
Proof.
  intros Hlf H. revert f. induction H as [|c s Hc _ IH]; intros f.
  - constructor.
  - cbn [translate_in_from]. destruct (Z.eqb_spec c CR) as [->|Hne].
    + constructor; [split; [assumption|discriminate] | apply IH].
    + destruct ((c =? LF) && f); [apply IH|].
      constructor; [split; assumption | apply IH].
Qed.

Lemma translate_in_line (pf : platform) (f : bool) (body rest : text) :
  ~ In CR body -> ~ In LF body ->
  translate_in_from f (translate_out pf (body ++ CRLF) ++ rest)
  = body ++ newline_read pf ++ translate_in_from false rest.
Proof.
  intros Hcr Hlf. rewrite translate_out_app, translate_out_plain by exact Hlf.
  rewrite <- app_assoc. revert f.
  induction body as [|c body IH]; intros f.
  - destruct pf; cbn; reflexivity.
  - assert (Hc1 : c <> CR) by (intros ->; apply Hcr; now left).
    assert (Hc2 : c <> LF) by (intros ->; apply Hlf; now left).
    cbn [app translate_in_from].
    destruct (Z.eqb_spec c CR); [contradiction|].
    destruct (Z.eqb_spec c LF); [contradiction|]. cbn [andb].
    f_equal. apply IH; intros Hin; [apply Hcr | apply Hlf]; now right.
Qed.

Lemma translate_in_from_app (f : bool) (a b : text) :
  translate_in_from f (a ++ b)
  = translate_in_from f a
    ++ translate_in_from (match a with [] => f | _ => last a 0 =? CR end) b.
Proof.
  revert f. induction a as [|c a IH]; intros f; [reflexivity|].
  cbn [app translate_in_from].
  destruct (Z.eqb_spec c CR) as [->|Hne].
  - rewrite IH. cbn [app]. destruct a; reflexivity.
  - destruct ((c =? LF) && f); rewrite IH;
      (destruct a; [cbn [last]; destruct (Z.eqb_spec c CR);
                    [contradiction|reflexivity] | reflexivity]).
Qed.

Lemma splitlines_read_line (pf : platform) (body rest : text) :
  Forall (fun c => is_linebreak c = false) body ->
  splitlines (body ++ newline_read pf ++ rest)
  = body :: match pf with Posix => [] | Windows => [[]] end
       ++ splitlines rest.
Proof.
  intros H. destruct pf; cbn [newline_read app].
  - now apply splitlines_line.
  - now rewrite splitlines_line.
Qed.

(** ** Writing rows and reading them back *)

Lemma plain_char_true (c : Z) :
  plain_char c = true <->
  is_scalar c = true /\ c <> SEMI /\ is_linebreak c = false.
Proof.
  unfold plain_char. rewrite !andb_true_iff, !negb_true_iff, Z.eqb_neq. tauto.
Qed.

Lemma plain_cell_Forall (s : text) :
  plain_cell s = true <-> Forall (fun c => plain_char c = true) s.
Proof. unfold plain_cell. now rewrite forallb_forall, Forall_forall. Qed.

Lemma plain_row_Forall (r : row) :
  plain_row r = true <-> Forall (fun s => plain_cell s = true) r.
Proof. unfold plain_row. now rewrite forallb_forall, Forall_forall. Qed.

Lemma plain_rows_Forall (rows : list row) :
  plain_rows rows = true <-> Forall (fun r => plain_row r = true) rows.
Proof. unfold plain_rows. now rewrite forallb_forall, Forall_forall. Qed.

Lemma plain_row_pad (r : row) : plain_row r = true -> plain_row (pad_row r) = true.
Proof.
  rewrite !plain_row_Forall. intros H. now apply pad_row_cells.
Qed.

Lemma row_line_body (r : row) : row_line r = row_body r ++ CRLF.
Proof. reflexivity. Qed.

Lemma pad_row_two (r : row) : exists a b rest, pad_row r = a :: b :: rest.
Proof.
  pose proof (pad_row_length r) as H.
  destruct (pad_row r) as [|a [|b rest]]; cbn [length] in H; [lia | lia |].
  eauto.
Qed.

Lemma row_body_has_semi (r : row) : In SEMI (row_body r).
Proof.
  unfold row_body. destruct (pad_row_two r) as (a & b & rest & ->).
  apply join_has_sep.
Qed.

Lemma row_body_not_blank (r : row) : is_blank (row_body r) = false.
Proof. apply (is_blank_false _ SEMI); [apply row_body_has_semi | reflexivity]. Qed.

Lemma row_body_chars (r : row) :
  plain_row r = true ->
  Forall (fun c => is_scalar c = true /\ is_linebreak c = false) (row_body r).
Proof.
  intros H. apply plain_row_pad in H. unfold row_body.
  apply join_chars; [repeat constructor|].
  apply plain_row_Forall in H. eapply Forall_impl; [|exact H].
  intros s Hs. apply plain_cell_Forall in Hs.
  eapply Forall_impl; [|exact Hs]. intros c Hc.
  apply plain_char_true in Hc. tauto.
Qed.

Lemma row_body_split (r : row) :
  plain_row r = true -> split_on SEMI (row_body r) = pad_row r.
Proof.
  intros H. apply plain_row_pad in H. unfold row_body.
  apply split_on_join.
  - destruct (pad_row_two r) as (a & b & rest & ->). discriminate.
  - apply plain_row_Forall in H. eapply Forall_impl; [|exact H].
    intros s Hs Hin. apply plain_cell_Forall in Hs.
    rewrite Forall_forall in Hs. apply Hs in Hin.
    apply plain_char_true in Hin. tauto.
Qed.

(** A written row parses to its padded cells, sanitized once more. *)
Lemma parse_row_body (r : row) :
  plain_row r = true -> parse_line (row_body r) = map clean_cell (pad_row r).
Proof.
  intros H. unfold parse_line. rewrite row_body_split by exact H.
  apply pad_row_wide. rewrite length_map, pad_row_length. lia.
Qed.

Lemma row_line_encodes (pf : platform) (r : row) :
  plain_row r = true -> exists b, text_to_bytes pf (row_line r) = Some b.
Proof.
  intros H. unfold text_to_bytes. apply encode_scalar.
  apply translate_out_chars; [reflexivity|].
  rewrite row_line_body. apply Forall_app. split; [|repeat constructor].
  eapply Forall_impl; [|exact (row_body_chars r H)]. now intros c [Hc _].
Qed.

Lemma write_rows_plain (pf : platform) (rows : list row) :
  plain_rows rows = true ->
  exists b, write_rows pf rows = (b, true)
            /\ utf16le_decode b = Some (rows_text pf rows).
Proof.
  rewrite plain_rows_Forall.
  induction 1 as [|r rows Hr _ [bs [Hw Hd]]]; [now exists []|].
  destruct (row_line_encodes pf r Hr) as [b Hb].
  exists (b ++ bs). cbn [write_rows]. rewrite Hb, Hw. split; [reflexivity|].
  unfold text_to_bytes in Hb.
  rewrite (decode_encode_app _ _ _ Hb), Hd. reflexivity.
Qed.

Lemma read_rows_text (pf : platform) (rows : list row) :
  plain_rows rows = true ->
  parse_lines (splitlines (translate_in (rows_text pf rows)))
  = map (fun r => map clean_cell (pad_row r)) rows.
Proof.
  rewrite plain_rows_Forall.
  induction 1 as [|r rows Hr _ IH]; [reflexivity|].
  unfold rows_text, translate_in in *. cbn [map concat].
  pose proof (row_body_chars r Hr) as Hb.
  assert (Hlb : Forall (fun c => is_linebreak c = false) (row_body r))
    by (eapply Forall_impl; [|exact Hb]; now intros c [_ Hc]).
  rewrite Forall_forall in Hlb.
  rewrite row_line_body, translate_in_line, splitlines_read_line.
  - cbn [parse_lines]. rewrite row_body_not_blank, parse_row_body by exact Hr.
    f_equal. destruct pf; exact IH.
  - now apply Forall_forall.
  - intros Hin. apply Hlb in Hin. discriminate.
  - intros Hin. apply Hlb in Hin. discriminate.
Qed.

Lemma fs_write_same (st : fs) (p : path) (b : bytes) : fs_write st p b p = Some b.
Proof. unfold fs_write. now rewrite String.eqb_refl. Qed.

Lemma fs_write_other (st : fs) (p q : path) (b : bytes) :
  q <> p -> fs_write st p b q = st q.
Proof.
  intros H. unfold fs_write. destruct (String.eqb_spec q p); congruence.
Qed.

(** The rewrite loop followed by [read_all_rows]. *)
Lemma read_after_write_rows (pf : platform) (st : fs) (p : path)
    (rows : list row) :
  plain_rows rows = true ->
  exists b, write_rows pf rows = (b, true)
            /\ read_all_rows (fs_write st p b) p
               = map (fun r => map clean_cell (pad_row r)) rows.
Proof.
  intros H. destruct (write_rows_plain pf rows H) as [b [Hw Hd]].
  exists b. split; [exact Hw|].
  unfold read_all_rows, rows_of_bytes, bytes_to_text. rewrite fs_write_same, Hd.
  cbn [option_map]. now apply read_rows_text.
Qed.

(** ** Rows read from a file *)

Lemma clean_cell_plain (s : text) :
  Forall (fun c => plain_char c = true) s -> plain_cell (clean_cell s) = true.
Proof.
  intros H. apply plain_cell_Forall, Forall_forall. intros c Hc.
  apply clean_cell_incl in Hc. rewrite Forall_forall in H. now apply H.
Qed.

Lemma parse_line_plain (line : text) :
  Forall (fun c => is_scalar c = true /\ is_linebreak c = false) line ->
  plain_row (parse_line line) = true.
Proof.
  intros H. unfold parse_line. apply plain_row_pad, plain_row_Forall.
  apply Forall_map.
  pose proof (split_on_cells SEMI _ line H) as Hs.
  eapply Forall_impl; [|exact Hs]. intros s Hc. apply clean_cell_plain.
  eapply Forall_impl; [|exact Hc]. intros c [[H1 H2] H3].
  apply plain_char_true. tauto.
Qed.

Lemma parse_line_length (line : text) : (15 <= length (parse_line line))%nat.
Proof. unfold parse_line. rewrite pad_row_length. lia. Qed.

Lemma parse_lines_rows (lines : list text) :
  Forall (Forall (fun c => is_scalar c = true /\ is_linebreak c = false)) lines ->
  Forall (fun r => plain_row r = true /\ (15 <= length r)%nat)
    (parse_lines lines).
Proof.
  induction 1 as [|line lines Hl _ IH]; [constructor|].
  cbn [parse_lines]. destruct (is_blank line); [exact IH|].
  constructor; [|exact IH].
  split; [now apply parse_line_plain | apply parse_line_length].
Qed.

Lemma read_all_rows_rows (st : fs) (p : path) :
  Forall (fun r => plain_row r = true /\ (15 <= length r)%nat)
    (read_all_rows st p).
Proof.
  unfold read_all_rows, rows_of_bytes, bytes_to_text.
  destruct (st p) as [bs|]; [|constructor].
  destruct (utf16le_decode bs) as [t|] eqn:Ed; [|constructor].
  cbn [option_map]. apply parse_lines_rows.
  pose proof (translate_in_chars _ false t eq_refl (decode_is_scalar _ _ Ed))
    as Ht.
  pose proof (splitlines_chars _ _ Ht) as Hs.
  eapply Forall_impl; [|exact Hs]. intros line Hline.
  eapply Forall_impl; [|exact Hline]. now intros c [[H1 _] H2].
Qed.

Lemma read_all_rows_plain (st : fs) (p : path) :
  plain_rows (read_all_rows st p) = true.
Proof.
  apply plain_rows_Forall. eapply Forall_impl; [|apply read_all_rows_rows].
  now intros r [H _].
Qed.

Lemma read_all_rows_wide (st : fs) (p : path) :
  Forall (fun r => (15 <= length r)%nat) (read_all_rows st p).
Proof.
  eapply Forall_impl; [|apply read_all_rows_rows]. now intros r [_ H].
Qed.

Lemma plain_rows_app (a b : list row) :
  plain_rows (a ++ b) = plain_rows a && plain_rows b.
Proof. apply forallb_app. Qed.

(** The two leading rows and the data rows make up the file. *)
Lemma header_data_rows (rows : list row) :
  header_rows rows ++ data_rows_edit rows = rows.
Proof.
  unfold header_rows, data_rows_edit.
  destruct (2 <? length rows)%nat; [apply firstn_skipn | reflexivity].
Qed.

Lemma data_rows_shown_edit_eq (rows : list row) :
  (2 < length rows)%nat -> data_rows_shown rows = data_rows_edit rows.
Proof.
  intros H. unfold data_rows_shown, data_rows_edit.
  apply Nat.ltb_lt in H. now rewrite H.
Qed.

Lemma data_rows_shown_nonempty (rows : list row) :
  data_rows_shown rows <> [] ->
  (2 < length rows)%nat
  /\ data_rows_edit rows = data_rows_shown rows
  /\ header_rows rows = firstn 2 rows
  /\ length (firstn 2 rows) = 2%nat
  /\ rows = firstn 2 rows ++ data_rows_shown rows.
Proof.
  unfold data_rows_shown, data_rows_edit, header_rows.
  destruct (Nat.ltb_spec 2 (length rows)) as [H|H]; [|congruence].
  intros _. repeat split; try assumption.
  - rewrite length_firstn. lia.
  - symmetry. apply firstn_skipn.
Qed.

(** The data rows of a file that holds two leading rows and [data]. *)
Lemma data_rows_shown_build (hdr data : list row) :
  length hdr = 2%nat -> data_rows_shown (hdr ++ data) = data.
Proof.
  intros H. unfold data_rows_shown. rewrite length_app, H.
  destruct hdr as [|a [|b [|c hdr]]]; try discriminate. cbn [app skipn].
  destruct data; reflexivity.
Qed.

(** ** The loops of [delete_selected] and [save_changes] *)

Lemma text_eqb_eq (a b : text) : text_eqb a b = true <-> a = b.
Proof.
  revert b. induction a as [|x a IH]; intros [|y b]; cbn;
    try (split; [discriminate|discriminate]); [tauto|].
  rewrite andb_true_iff, Z.eqb_eq, IH. split; [intros [-> ->]|intros [= -> ->]];
    auto.
Qed.

Lemma text_eqb_refl (a : text) : text_eqb a a = true.
Proof. now apply text_eqb_eq. Qed.

Lemma has_id_row_id (target : text) (r : row) :
  has_id target r = true -> row_id r = target.
Proof. destruct r as [|c r]; [discriminate|]. apply text_eqb_eq. Qed.

Lemma has_id_wide (target : text) (r : row) :
  (0 < length r)%nat -> has_id target r = text_eqb (row_id r) target.
Proof. destruct r; cbn; [lia | reflexivity]. Qed.

Lemma delete_loop_done (target : text) (data : list row) :
  delete_loop target true data = (data, true).
Proof.
  induction data as [|r data IH]; [reflexivity|].
  cbn [delete_loop negb andb]. now rewrite IH.
Qed.

Lemma delete_loop_absent (target : text) (data : list row) :
  Forall (fun x => has_id target x = false) data ->
  delete_loop target false data = (data, false).
Proof.
  induction 1 as [|r data Hr _ IH]; [reflexivity|].
  cbn [delete_loop negb andb]. now rewrite Hr, IH.
Qed.

Lemma delete_loop_first (target : text) (pre : list row) (r : row)
    (post : list row) :
  Forall (fun x => has_id target x = false) pre -> has_id target r = true ->
  delete_loop target false (pre ++ r :: post) = (pre ++ post, true).
Proof.
  intros Hpre Hr. induction Hpre as [|x pre Hx _ IH].
  - cbn [app delete_loop negb andb]. rewrite Hr. apply delete_loop_done.
  - cbn [app delete_loop negb andb]. now rewrite Hx, IH.
Qed.

Lemma save_loop_done (original_id : text) (new_r : row) (data : list row) :
  save_loop original_id new_r true data = (data, true).
Proof.
  induction data as [|r data IH]; [reflexivity|].
  cbn [save_loop negb andb]. now rewrite IH.
Qed.

Lemma save_loop_absent (original_id : text) (new_r : row) (data : list row) :
  Forall (fun x => has_id original_id x = false) data ->
  save_loop original_id new_r false data = (data, false).
Proof.
  induction 1 as [|r data Hr _ IH]; [reflexivity|].
  cbn [save_loop negb andb]. now rewrite Hr, IH.
Qed.

Lemma save_loop_first (original_id : text) (new_r : row) (pre : list row)
    (r : row) (post : list row) :
  Forall (fun x => has_id original_id x = false) pre ->
  has_id original_id r = true ->
  save_loop original_id new_r false (pre ++ r :: post)
  = (pre ++ new_r :: post, true).
Proof.
  intros Hpre Hr. induction Hpre as [|x pre Hx _ IH].
  - cbn [app save_loop negb andb]. rewrite Hr. now rewrite save_loop_done.
  - cbn [app save_loop negb andb]. now rewrite Hx, IH.
Qed.

Lemma resanitize_wide (rows : list row) :
  Forall (fun r => (15 <= length r)%nat) rows ->
  map (fun r => map clean_cell (pad_row r)) rows = resanitize rows.
Proof.
  intros H. unfold resanitize. apply map_ext_in. intros r Hr.
  rewrite Forall_forall in H. now rewrite pad_row_wide by auto.
Qed.

Lemma resanitize_length (rows : list row) :
  length (resanitize rows) = length rows.
Proof. apply length_map. Qed.

Lemma resanitize_app (a b : list row) :
  resanitize (a ++ b) = resanitize a ++ resanitize b.
Proof. apply map_app. Qed.

(** Rewriting a file that holds two leading rows and [data]. *)
Lemma rewrite_then_list (pf : platform) (st : fs) (p : path)
    (hdr data : list row) :
  length hdr = 2%nat -> plain_rows (hdr ++ data) = true ->
  exists b,
    write_rows pf (hdr ++ data) = (b, true)
    /\ list_data_records (fs_write st p b) p
       = map (fun r => map clean_cell (pad_row r)) data.
Proof.
  intros Hh Hp. destruct (read_after_write_rows pf st p _ Hp) as [b [Hw Hr]].
  exists b. split; [exact Hw|]. unfold list_data_records.
  rewrite Hr, map_app. apply data_rows_shown_build. now rewrite length_map.
Qed.

(** ** Removing a record *)

Lemma delete_selected_found (pf : platform) (st : fs) (p : path) (id : text)
    (pre : list row) (r : row) (post : list row) :
  list_data_records st p = pre ++ r :: post ->
  Forall (fun x => has_id id x = false) pre -> has_id id r = true ->
  exists b,
    delete_selected pf st p id = (fs_write st p b, Success)
    /\ list_data_records (fs_write st p b) p = resanitize (pre ++ post).
Proof.
  intros Hdata Hpre Hr. unfold list_data_records in Hdata.
  destruct (data_rows_shown_nonempty (read_all_rows st p))
    as (Hlen & Hedit & Hhdr & Hh2 & Hrows).
  { rewrite Hdata. now destruct pre. }
  pose proof (read_all_rows_plain st p) as Hplain.
  pose proof (read_all_rows_wide st p) as Hwide.
  rewrite Hrows, Hdata in Hplain, Hwide.
  rewrite !plain_rows_app in Hplain. cbn [plain_rows forallb] in Hplain.
  apply andb_true_iff in Hplain as [Hp1 Hp2].
  apply andb_true_iff in Hp2 as [Hp2 Hp3].
  apply andb_true_iff in Hp3 as [_ Hp3].
  apply Forall_app in Hwide as [Hw1 Hw2].
  apply Forall_app in Hw2 as [Hw2 Hw3].
  inversion Hw3 as [|? ? _ Hw4]; subst.
  destruct (rewrite_then_list pf st p (firstn 2 (read_all_rows st p))
              (pre ++ post) Hh2) as [b [Hw Hl]].
  { rewrite !plain_rows_app. unfold plain_rows in *.
    now rewrite Hp1, Hp2, Hp3. }
  exists b. split.
  - unfold delete_selected. rewrite Hedit, Hdata, Hhdr.
    rewrite (delete_loop_first id pre r post Hpre Hr), Hw. reflexivity.
  - rewrite Hl. apply resanitize_wide. apply Forall_app. now split.
Qed.

Lemma delete_selected_absent (pf : platform) (st : fs) (p : path) (id : text) :
  Forall (fun x => has_id id x = false) (data_rows_edit (read_all_rows st p)) ->
  delete_selected pf st p id = (st, NotFound).
Proof.
  intros H. unfold delete_selected. now rewrite (delete_loop_absent id _ H).
Qed.

Lemma stable_row_clean (r : row) :
  stable_row r = true -> map clean_cell (pad_row r) = pad_row r.
Proof.
  intros H. rewrite pad_row_spec, map_app. f_equal.
  - rewrite <- (map_id r) at 2. apply map_ext_in. intros c Hc.
    unfold stable_row in H. rewrite forallb_forall in H.
    apply text_eqb_eq. now apply H.
  - induction (15 - length r)%nat as [|n IH]; [reflexivity|].
    cbn [repeat map]. now rewrite IH.
Qed.

Lemma id_scan_split (target : text) (data : list row) :
  id_scan target None data = true ->
  exists pre r post,
    data = pre ++ r :: post
    /\ Forall (fun x => has_id target x = false) pre
    /\ has_id target r = true.
Proof.
  induction data as [|x data IH]; [discriminate|]. cbn [id_scan].
  destruct (has_id target x) eqn:E.
  - intros _. now exists [], x, data.
  - intros H. destruct (IH H) as (pre & r & post & -> & Hpre & Hr).
    exists (x :: pre), r, post. repeat split; [now constructor | exact Hr].
Qed.

Lemma id_scan_false (target : text) (data : list row) :
  id_scan target None data = false <->
  Forall (fun x => has_id target x = false) data.
Proof.
  induction data as [|x data IH]; cbn [id_scan].
  - split; [constructor | reflexivity].
  - destruct (has_id target x) eqn:E.
    + split; [discriminate|]. intros H. inversion H; congruence.
    + rewrite IH. split; [now constructor | now inversion 1].
Qed.

Lemma delete_selected_at (pf : platform) (st : fs) (p : path) (id : text) :
  (forall pre r post,
      list_data_records st p = pre ++ r :: post ->
      Forall (fun x => has_id id x = false) pre -> has_id id r = true ->
      exists st',
        delete_selected pf st p id = (st', Success)
        /\ list_data_records st' p = resanitize (pre ++ post)
        /\ (length (list_data_records st' p) + 1
            = length (list_data_records st p))%nat
        /\ (Forall (fun x => has_id id (map clean_cell x) = false) (pre ++ post)
            -> Forall (fun x => has_id id x = false)
                 (list_data_records st' p))
        /\ (forall q, q <> p -> st' q = st q))
  /\ (Forall (fun x => has_id id x = false)
        (data_rows_edit (read_all_rows st p)) ->
      delete_selected pf st p id = (st, NotFound)).
Proof.
  split; [|apply delete_selected_absent].
  intros pre r post Hdata Hpre Hr.
  destruct (delete_selected_found pf st p id pre r post Hdata Hpre Hr)
    as [b [Hd Hl]].
  exists (fs_write st p b). repeat split.
  - exact Hd.
  - exact Hl.
  - rewrite Hl, Hdata, resanitize_length, !length_app. cbn [length]. lia.
  - intros H. rewrite Hl. unfold resanitize. now apply Forall_map.
  - intros q Hq. now apply fs_write_other.
Qed.

(** C4 (amended).  If [id_exists] finds [id], the data records are
    [pre ++ r :: post] with [r] the first whose field 0 is [id];
    [delete_selected] succeeds and the data records become [pre ++ post],
    each cell sanitized once more by the read: the count drops by exactly
    one, and [id] is no longer found provided no record of [pre ++ post]
    has it as field 0 after that sanitizing.  If none of the rows
    [delete_selected] searches has field 0 equal to [id] (for a file of more
    than two rows: if [id_exists] does not find [id]), the outcome is
    not-found and the file system is returned as it was. *)
Theorem delete_selected_spec (pf : platform) (st : fs) (p : path) (id : text) :
  (id_exists st p id None = true ->
   exists pre r post st',
     list_data_records st p = pre ++ r :: post
     /\ Forall (fun x => has_id id x = false) pre
     /\ has_id id r = true
     /\ delete_selected pf st p id = (st', Success)
     /\ list_data_records st' p = resanitize (pre ++ post)
     /\ (length (list_data_records st' p) + 1
         = length (list_data_records st p))%nat
     /\ (Forall (fun x => has_id id (map clean_cell x) = false) (pre ++ post)
         -> id_exists st' p id None = false)
     /\ (forall q, q <> p -> st' q = st q))
  /\ (Forall (fun x => has_id id x = false)
        (data_rows_edit (read_all_rows st p)) ->
      delete_selected pf st p id = (st, NotFound))
  /\ ((2 < length (read_all_rows st p))%nat ->
      id_exists st p id None = false ->
      delete_selected pf st p id = (st, NotFound)).
Proof.
  destruct (delete_selected_at pf st p id) as [Hfound Habsent].
  split; [|split].
  - intros Hex. unfold id_exists in Hex. fold (list_data_records st p) in Hex.
    destruct (id_scan_split _ _ Hex) as (pre & r & post & Hdata & Hpre & Hr).
    destruct (Hfound pre r post Hdata Hpre Hr)
      as (st' & Hd & Hl & Hlen & Hnone & Hother).
    exists pre, r, post, st'. repeat split; try assumption.
    intros H. unfold id_exists. fold (list_data_records st' p).
    apply id_scan_false. now apply Hnone.
  - exact Habsent.
  - intros Hlen Hex. apply Habsent.
    rewrite <- (data_rows_shown_edit_eq _ Hlen). now apply id_scan_false.
Qed.

(** ** Updating a record *)

Lemma update_row_found (pf : platform) (st : fs) (p : path) (id : text)
    (new_r : row) (pre : list row) (r : row) (post : list row) :
  list_data_records st p = pre ++ r :: post ->
  Forall (fun x => has_id id x = false) pre -> has_id id r = true ->
  plain_row new_r = true ->
  exists b,
    update_row pf st p id new_r = (fs_write st p b, Success)
    /\ list_data_records (fs_write st p b) p
       = resanitize pre ++ map clean_cell (pad_row new_r) :: resanitize post.
Proof.
  intros Hdata Hpre Hr Hnew. unfold list_data_records in Hdata.
  destruct (data_rows_shown_nonempty (read_all_rows st p))
    as (Hlen & Hedit & Hhdr & Hh2 & Hrows).
  { rewrite Hdata. now destruct pre. }
  pose proof (read_all_rows_plain st p) as Hplain.
  pose proof (read_all_rows_wide st p) as Hwide.
  rewrite Hrows, Hdata in Hplain, Hwide.
  rewrite !plain_rows_app in Hplain. cbn [plain_rows forallb] in Hplain.
  apply andb_true_iff in Hplain as [Hp1 Hp2].
  apply andb_true_iff in Hp2 as [Hp2 Hp3].
  apply andb_true_iff in Hp3 as [_ Hp3].
  apply Forall_app in Hwide as [Hw1 Hw2].
  apply Forall_app in Hw2 as [Hw2 Hw3].
  inversion Hw3 as [|? ? _ Hw4]; subst.
  destruct (rewrite_then_list pf st p (firstn 2 (read_all_rows st p))
              (pre ++ new_r :: post) Hh2) as [b [Hw Hl]].
  { rewrite !plain_rows_app. cbn [plain_rows forallb]. unfold plain_rows in *.
    now rewrite Hp1, Hp2, Hp3, Hnew. }
  exists b. split.
  - unfold update_row. rewrite Hedit, Hdata, Hhdr.
    rewrite (save_loop_first id new_r pre r post Hpre Hr), Hw. reflexivity.
  - rewrite Hl, map_app. cbn [map].
    now rewrite !resanitize_wide by assumption.
Qed.

Lemma update_row_absent (pf : platform) (st : fs) (p : path) (id : text)
    (new_r : row) :
  Forall (fun x => has_id id x = false) (data_rows_edit (read_all_rows st p)) ->
  update_row pf st p id new_r = (st, NotFound).
Proof.
  intros H. unfold update_row. now rewrite (save_loop_absent id new_r _ H).
Qed.

(** [save_changes] is [update_row] with the row of the form once the
    identifier is present and passes the duplicate check. *)
Lemma save_changes_checked (pf : platform) (st : fs) (p : path)
    (original_id : text) (f : form) :
  strip is_space (entry_id f) <> [] ->
  id_exists st p (strip is_space (entry_id f)) (Some original_id) = false ->
  save_changes pf st p original_id f
  = update_row pf st p original_id (form_row f).
Proof.
  intros Hne Hdup. unfold save_changes. rewrite Hdup.
  destruct (strip is_space (entry_id f)); [contradiction | reflexivity].
Qed.

Lemma update_row_at (pf : platform) (st : fs) (p : path) (id : text)
    (new_r : row) (pre : list row) (r : row) (post : list row) :
  list_data_records st p = pre ++ r :: post ->
  Forall (fun x => has_id id x = false) pre -> has_id id r = true ->
  plain_row new_r = true -> stable_row new_r = true ->
  exists st',
    update_row pf st p id new_r = (st', Success)
    /\ list_data_records st' p
       = resanitize pre ++ pad_row new_r :: resanitize post
    /\ length (list_data_records st' p) = length (list_data_records st p)
    /\ (~ In (pad_row new_r) (resanitize (pre ++ post)) ->
        forall i, nth_error (list_data_records st' p) i = Some (pad_row new_r)
                  <-> i = length pre)
    /\ (Forall (fun x => has_id id (map clean_cell x) = false) (pre ++ post) ->
        has_id id (pad_row new_r) = false ->
        Forall (fun x => has_id id x = false) (list_data_records st' p))
    /\ (forall q, q <> p -> st' q = st q).
Proof.
  intros Hdata Hpre Hr Hplain Hstable.
  destruct (update_row_found pf st p id new_r pre r post Hdata Hpre Hr Hplain)
    as [b [Hu Hl]].
  rewrite (stable_row_clean _ Hstable) in Hl.
  exists (fs_write st p b). repeat split.
  - exact Hu.
  - exact Hl.
  - rewrite Hl, Hdata, !length_app. cbn [length].
    now rewrite !resanitize_length.
  - rewrite Hl. intros Hi.
    destruct (Nat.lt_trichotomy i (length pre)) as [Hlt|[->|Hgt]].
    + rewrite nth_error_app1 in Hi by (now rewrite resanitize_length).
      apply nth_error_In in Hi. exfalso. apply H.
      rewrite resanitize_app. apply in_or_app. now left.
    + reflexivity.
    + rewrite nth_error_app2 in Hi by (rewrite resanitize_length; lia).
      rewrite resanitize_length in Hi.
      destruct (i - length pre)%nat as [|k] eqn:Ek; [lia|].
      cbn [nth_error] in Hi. apply nth_error_In in Hi. exfalso. apply H.
      rewrite resanitize_app. apply in_or_app. now right.
  - intros ->. rewrite Hl, nth_error_app2 by (rewrite resanitize_length; lia).
    rewrite resanitize_length, Nat.sub_diag. reflexivity.
  - intros Hothers Hnew. rewrite Hl.
    apply Forall_app in Hothers as [H1 H2].
    apply Forall_app. split; [unfold resanitize; now apply Forall_map|].
    constructor; [exact Hnew | unfold resanitize; now apply Forall_map].
  - intros q Hq. now apply fs_write_other.
Qed.

(** C3 (amended).  Let [id_exists] find [id], so that the data records are
    [pre ++ r :: post] with [r] the first whose field 0 is [id], and let
    the cells of [new_r] be encodable, free of the delimiter and of line
    boundaries, and without white space or quote characters at their ends.
    Then the update succeeds and the data records become [pre], the padded
    [new_r], [post], in this order, the rows of [pre] and [post] sanitized
    once more by the read: the count is unchanged; the padded [new_r]
    stands at the place of [r] and nowhere else unless another record reads
    the same; and [id] is no longer found provided neither [new_r] nor,
    after that sanitizing, any other record has it as field 0.  No other
    file changes. *)
Theorem update_row_spec (pf : platform) (st : fs) (p : path) (id : text)
    (new_r : row) :
  id_exists st p id None = true ->
  plain_row new_r = true -> stable_row new_r = true ->
  exists pre r post st',
    list_data_records st p = pre ++ r :: post
    /\ Forall (fun x => has_id id x = false) pre
    /\ has_id id r = true
    /\ update_row pf st p id new_r = (st', Success)
    /\ list_data_records st' p
       = resanitize pre ++ pad_row new_r :: resanitize post
    /\ length (list_data_records st' p) = length (list_data_records st p)
    /\ (~ In (pad_row new_r) (resanitize (pre ++ post)) ->
        forall i, nth_error (list_data_records st' p) i = Some (pad_row new_r)
                  <-> i = length pre)
    /\ (Forall (fun x => has_id id (map clean_cell x) = false) (pre ++ post) ->
        has_id id (pad_row new_r) = false ->
        id_exists st' p id None = false)
    /\ (forall q, q <> p -> st' q = st q).
Proof.
  intros Hex Hplain Hstable.
  unfold id_exists in Hex. fold (list_data_records st p) in Hex.
  destruct (id_scan_split _ _ Hex) as (pre & r & post & Hdata & Hpre & Hr).
  destruct (update_row_at pf st p id new_r pre r post Hdata Hpre Hr
              Hplain Hstable)
    as (st' & Hu & Hl & Hlen & Honce & Hnone & Hother).
  exists pre, r, post, st'. repeat split; try assumption.
  - now apply Honce.
  - intros ->. now apply Honce.
  - intros H1 H2. unfold id_exists. fold (list_data_records st' p).
    apply id_scan_false. now apply Hnone.
Qed.

(** ** Round trip of the rewrite loop *)

(** C2 (amended).  Rows whose cells can be encoded, hold neither the
    delimiter nor a line boundary, and have no white space or quote
    character at either end are written by the rewrite loop without error,
    and [read_all_rows] returns them padded to the schema length, cell for
    cell; this holds whether [os.linesep] is LF or CR LF. *)
Theorem write_read_roundtrip (pf : platform) (st : fs) (p : path)
    (rows : list row) :
  plain_rows rows = true -> stable_rows rows = true ->
  exists b,
    write_rows pf rows = (b, true)
    /\ read_all_rows (fs_write st p b) p = map pad_row rows.
Proof.
  intros Hp Hs. destruct (read_after_write_rows pf st p rows Hp) as [b [Hw Hr]].
  exists b. split; [exact Hw|]. rewrite Hr. apply map_ext_in. intros r Hr'.
  apply stable_row_clean. unfold stable_rows in Hs.
  rewrite forallb_forall in Hs. now apply Hs.
Qed.

(** ** Appending a record *)

Lemma parse_lines_app (a b : list text) :
  parse_lines (a ++ b) = parse_lines a ++ parse_lines b.
Proof.
  induction a as [|l a IH]; [reflexivity|]. cbn [app parse_lines].
  destruct (is_blank l); [exact IH | now rewrite IH].
Qed.

Lemma id_scan_app (target : text) (a b : list row) :
  id_scan target None (a ++ b)
  = id_scan target None a || id_scan target None b.
Proof.
  induction a as [|r a IH]; [reflexivity|]. cbn [app id_scan].
  destruct (has_id target r); [reflexivity | exact IH].
Qed.

Lemma data_rows_shown_snoc (rows : list row) (r : row) :
  (2 <= length rows)%nat ->
  data_rows_shown (rows ++ [r]) = data_rows_shown rows ++ [r].
Proof.
  intros H. unfold data_rows_shown. rewrite length_app. cbn [length].
  destruct (Nat.ltb_spec 2 (length rows + 1)) as [_|H1]; [|lia].
  destruct rows as [|a [|b rows]]; cbn [length] in H; try lia.
  cbn [app skipn length]. destruct rows; reflexivity.
Qed.

Lemma translate_in_no_cr (f : bool) (t : text) : ~ In CR (translate_in_from f t).
Proof.
  assert (H : Forall (fun _ : Z => True) t)
    by (apply Forall_forall; intros; exact I).
  pose proof (translate_in_chars _ f t I H) as H'.
  rewrite Forall_forall in H'. intros Hin. apply H' in Hin. now destruct Hin.
Qed.

Lemma sanitize_values_str (cells : list text) :
  sanitize_values (map PyStr cells) = Some (map sanitize_text cells).
Proof.
  induction cells as [|c cells IH]; [reflexivity|].
  cbn [map sanitize_values sanitize_value py_str option_map].
  now rewrite IH.
Qed.

Lemma sanitize_values_length (vals : list pyval) (safe : list text) :
  sanitize_values vals = Some safe -> length safe = length vals.
Proof.
  revert safe. induction vals as [|v vals IH]; intros safe.
  - now intros [= <-].
  - cbn [sanitize_values]. destruct (sanitize_value v) as [s|]; [|discriminate].
    destruct (sanitize_values vals) as [l|]; [|discriminate].
    intros [= <-]. cbn [length]. now rewrite (IH l).
Qed.

Lemma sanitize_text_chars (s : text) :
  storable s = true ->
  Forall (fun c => is_scalar c = true /\ is_linebreak c = false)
    (sanitize_text s).
Proof.
  unfold storable. rewrite forallb_forall. intros H.
  unfold sanitize_text, replace_char. rewrite !map_map.
  apply Forall_map, Forall_forall. intros c Hc. apply H in Hc.
  unfold storable_char in Hc.
  apply andb_true_iff in Hc as [Hs Hb].
  destruct (Z.eqb_spec c LF) as [->|H1]; [now split|].
  destruct (Z.eqb_spec c CR) as [->|H2]; [now split|].
  rewrite !orb_false_r in Hb. apply negb_true_iff in Hb.
  destruct (Z.eqb_spec c DQUOTE) as [->|H3]; [now split|]. now split.
Qed.

Lemma join_first_cell (sep : Z) (a : text) (rest : list text) :
  ~ In sep a ->
  exists more, split_on sep (join [sep] (a :: rest)) = a :: more.
Proof.
  intros H. destruct rest as [|b rest].
  - exists []. now apply split_on_plain.
  - change (join [sep] (a :: b :: rest))
      with (a ++ sep :: join [sep] (b :: rest)).
    rewrite split_on_app by exact H. eauto.
Qed.

Lemma lstrip_length (q : Z -> bool) (s : text) :
  (length (lstrip q s) <= length s)%nat.
Proof.
  destruct (lstrip_suffix q s) as [pre [E _]].
  apply (f_equal (@length Z)) in E. rewrite length_app in E. lia.
Qed.

Lemma strip_length (q : Z -> bool) (s : text) :
  (length (strip q s) <= length s)%nat.
Proof.
  unfold strip, rstrip. rewrite length_rev.
  pose proof (lstrip_length q (rev (lstrip q s))) as H1.
  pose proof (lstrip_length q s) as H2. rewrite length_rev in H1. lia.
Qed.

Lemma strip_head_shorter (q : Z -> bool) (c : Z) (s : text) :
  q c = true -> (length (strip q (c :: s)) <= length s)%nat.
Proof.
  intros H. unfold strip, rstrip. rewrite length_rev.
  pose proof (lstrip_length q (rev (lstrip q (c :: s)))) as H1.
  rewrite length_rev in H1. cbn [lstrip] in *. rewrite H in *.
  pose proof (lstrip_length q s). lia.
Qed.

Lemma stable_cell_head (c : Z) (s : text) :
  stable_cell (c :: s) = true -> is_space c = false.
Proof.
  unfold stable_cell. rewrite text_eqb_eq. intros H.
  destruct (is_space c) eqn:E; [exfalso|reflexivity].
  apply (f_equal (@length Z)) in H. unfold clean_cell in H.
  pose proof (strip_length (Z.eqb SQUOTE)
                (strip (Z.eqb DQUOTE) (strip is_space (c :: s)))) as H1.
  pose proof (strip_length (Z.eqb DQUOTE) (strip is_space (c :: s))) as H2.
  pose proof (strip_head_shorter is_space c s E) as H3.
  cbn [length] in H. lia.
Qed.

Lemma split_on_incl (sep : Z) (s cell : text) (c : Z) :
  In cell (split_on sep s) -> In c cell -> In c s.
Proof.
  revert cell. induction s as [|x s IH]; intros cell Hc Hin.
  - cbn in Hc. destruct Hc as [<-|[]]. contradiction.
  - cbn [split_on] in Hc. destruct (x =? sep).
    + destruct Hc as [<-|Hc]; [contradiction|]. right. eauto.
    + destruct (split_on sep s) as [|l ls] eqn:E.
      * destruct Hc as [<-|[]]. destruct Hin as [<-|[]]. now left.
      * destruct Hc as [<-|Hc].
        -- destruct Hin as [<-|Hin]; [now left|].
           right. apply (IH l); [now left | exact Hin].
        -- right. apply (IH cell); [now right | exact Hin].
Qed.

(** C1 (amended).  Let the file at [p] decode, end with a line boundary
    (or be empty) and hold at least two rows, and let the record consist of
    strings that can be encoded and hold no line boundary other than LF and
    CR, its identifier being non-empty, free of the delimiter and of line
    boundaries, without white space or quote characters at its ends, and
    unchanged by the field sanitizer.  Then [append_row_utf16le] succeeds,
    [read_all_rows] returns the former rows followed by one new row whose
    field 0 is the identifier, [id_exists] finds the identifier, and the
    data records are one more than before.  No other file changes. *)
Theorem append_row_spec (pf : platform) (st : fs) (p : path) (old : bytes)
    (t0 : text) (id : text) (cells : list text) :
  st p = Some old -> bytes_to_text old = Some t0 ->
  ends_with_linebreak t0 = true ->
  (2 <= length (read_all_rows st p))%nat ->
  id <> [] -> plain_cell id = true -> stable_cell id = true ->
  sanitize_value (PyStr id) = Some id ->
  forallb storable cells = true ->
  exists st' new_row,
    append_row_utf16le pf st p (map PyStr (id :: cells)) = (st', Success)
    /\ read_all_rows st' p = read_all_rows st p ++ [new_row]
    /\ row_id new_row = id
    /\ id_exists st' p id None = true
    /\ length (list_data_records st' p)
       = S (length (list_data_records st p))
    /\ (forall q, q <> p -> st' q = st q).
Proof.
  intros Hst Hold Hend Hrows Hne Hplain Hstable Hsan Hcells.
  cbn [sanitize_value py_str option_map] in Hsan. injection Hsan as Hsan.
  set (safe := map sanitize_text (id :: cells)).
  set (body := join [SEMI] safe).
  assert (Hsafe : Forall (Forall (fun c => is_scalar c = true
                                           /\ is_linebreak c = false)) safe).
  { unfold safe. cbn [map]. rewrite Hsan. constructor.
    - apply plain_cell_Forall in Hplain.
      eapply Forall_impl; [|exact Hplain]. intros c Hc.
      apply plain_char_true in Hc. tauto.
    - apply Forall_map, Forall_forall. intros c Hc.
      rewrite forallb_forall in Hcells. now apply sanitize_text_chars, Hcells. }
  assert (Hbody : Forall (fun c => is_scalar c = true
                                   /\ is_linebreak c = false) body)
    by (apply join_chars; [repeat constructor | exact Hsafe]).
  assert (Hlb : Forall (fun c => is_linebreak c = false) body)
    by (eapply Forall_impl; [|exact Hbody]; now intros c [_ Hc]).
  assert (Hcr : ~ In CR body /\ ~ In LF body).
  { rewrite Forall_forall in Hlb. split; intros Hin; apply Hlb in Hin;
      discriminate. }
  assert (Henc : exists b, text_to_bytes pf (body ++ CRLF) = Some b).
  { unfold text_to_bytes. apply encode_scalar.
    apply translate_out_chars; [reflexivity|].
    apply Forall_app. split; [|repeat constructor].
    eapply Forall_impl; [|exact Hbody]. now intros c [Hc _]. }
  destruct Henc as [b Hb].
  assert (Hfirst : exists more, split_on SEMI body = id :: more).
  { unfold body, safe. cbn [map]. rewrite Hsan. apply join_first_cell.
    apply plain_cell_Forall in Hplain. rewrite Forall_forall in Hplain.
    intros Hin. apply Hplain, plain_char_true in Hin. tauto. }
  destruct Hfirst as [more Hmore].
  assert (Hid0 : exists c0 id', id = c0 :: id') by (destruct id; [congruence|eauto]).
  destruct Hid0 as (c0 & id' & Eid).
  assert (Hblank : is_blank body = false).
  { apply (is_blank_false body c0).
    - apply (split_on_incl SEMI body id); [rewrite Hmore|rewrite Eid]; now left.
    - apply (stable_cell_head c0 id'). now rewrite <- Eid. }
  set (new_row := parse_line body).
  assert (Hnewid : row_id new_row = id).
  { unfold new_row, parse_line. rewrite Hmore. cbn [map].
    rewrite pad_row_spec. cbn [app row_id nth].
    unfold stable_cell in Hstable. now apply text_eqb_eq in Hstable. }
  assert (Hread : read_all_rows
                    (fs_write st p (old ++ b)) p
                  = read_all_rows st p ++ [new_row]).
  { unfold read_all_rows at 1 2, rows_of_bytes. rewrite fs_write_same, Hst.
    unfold bytes_to_text in *.
    destruct (utf16le_decode old) as [t|] eqn:Ed; [|discriminate].
    cbn [option_map] in Hold. injection Hold as Ht0.
    unfold text_to_bytes in Hb.
    rewrite (decode_app _ _ _ Ed), (decode_encode _ _ Hb). cbn [option_map].
    rewrite Ht0. unfold translate_in. rewrite translate_in_from_app.
    fold (translate_in t). rewrite Ht0.
    rewrite <- (app_nil_r (translate_out pf (body ++ CRLF))).
    rewrite translate_in_line by tauto. cbn [translate_in_from].
    rewrite splitlines_app; [|rewrite <- Ht0; apply translate_in_no_cr
                             |exact Hend].
    rewrite parse_lines_app. f_equal.
    rewrite splitlines_read_line by exact Hlb.
    cbn [parse_lines]. rewrite Hblank.
    destruct pf; reflexivity. }
  exists (fs_write st p (old ++ b)), new_row.
  assert (Happ : append_row_utf16le pf st p (map PyStr (id :: cells))
                 = (fs_write st p (old ++ b), Success)).
  { unfold append_row_utf16le. rewrite sanitize_values_str.
    fold safe. fold body.
    unfold ensure_file_and_header. rewrite Hst, Hb.
    unfold file_bytes. now rewrite Hst. }
  repeat split.
  - exact Happ.
  - exact Hread.
  - exact Hnewid.
  - unfold id_exists. rewrite Hread, data_rows_shown_snoc by exact Hrows.
    rewrite id_scan_app. cbn [id_scan].
    assert (Hhas : has_id id new_row = true).
    { rewrite has_id_wide.
      - rewrite Hnewid. apply text_eqb_refl.
      - pose proof (parse_line_length body). fold new_row in H. lia. }
    rewrite Hhas. apply orb_true_r.
  - unfold list_data_records.
    rewrite Hread, data_rows_shown_snoc by exact Hrows.
    rewrite length_app. cbn [length]. lia.
  - intros q Hq. now apply fs_write_other.
Qed.

(** ** The field sanitizer *)







(** ** Fresh files *)

Lemma create_new_file_bytes (st : fs) (p : path) :
  create_new_file st p = (fs_write st p fresh_file, true).
Proof.
  unfold create_new_file, fresh_file.
  destruct (utf16le_encode version_line) as [v|] eqn:Ev;
    [|vm_compute in Ev; discriminate].
  destruct (utf16le_encode header_line) as [h|] eqn:Eh;
    [|vm_compute in Eh; discriminate].
  reflexivity.
Qed.

(** C6 (amended).  After [create_new_file] the file starts with the bytes
    FF FE and [read_all_rows] yields exactly two rows: the version row,
    whose cell 0 is U+FEFF followed by the version stamp and whose other 14
    cells are empty, and the header row, the 15 column names. *)
Theorem create_new_file_rows (st : fs) (p : path) :
  exists st',
    create_new_file st p = (st', true)
    /\ firstn 2 (file_bytes st' p) = BOM_UTF16_LE
    /\ read_all_rows st' p
       = [(BOM_CHAR :: version_text) :: repeat [] 14; COLUMNS].
Proof.
  exists (fs_write st p fresh_file). split; [apply create_new_file_bytes|].
  unfold file_bytes, read_all_rows. rewrite fs_write_same.
  split; vm_compute; reflexivity.
Qed.

(** ** Appending to a path that does not exist *)

Lemma ensure_missing (pf : platform) (st : fs) (p : path) :
  st p = None ->
  ensure_file_and_header pf st p = fs_write st p (header_bytes pf).
Proof.
  intros H. unfold ensure_file_and_header, header_bytes. rewrite H.
  now destruct (text_to_bytes pf header_line).
Qed.

Lemma append_missing (pf : platform) (st : fs) (p : path)
    (row_values : list pyval) (safe : list text) (b : bytes) :
  st p = None ->
  sanitize_values row_values = Some safe ->
  text_to_bytes pf (join [SEMI] safe ++ CRLF) = Some b ->
  append_row_utf16le pf st p row_values
  = (fs_write (fs_write st p (header_bytes pf)) p (header_bytes pf ++ b),
     Success).
Proof.
  intros H Hs Hb. unfold append_row_utf16le.
  rewrite Hs, (ensure_missing pf st p H), Hb. unfold file_bytes.
  now rewrite fs_write_same.
Qed.

(** C5.  Appending [sample_record] to a path that does not exist: the file
    is created with the header line alone (no version line, no byte order
    mark) and the record becomes its second line; [read_all_rows] then
    returns two rows, which the preview and [id_exists] both take for the
    two leading rows: no data record is listed and the identifier is not
    found. *)
Theorem append_to_missing_file_not_listed (pf : platform) (p : path) :
  let st' := fst (append_row_utf16le pf no_files p sample_record) in
  snd (append_row_utf16le pf no_files p sample_record) = Success
  /\ read_all_rows (ensure_file_and_header pf no_files p) p = [COLUMNS]
  /\ utf16le_decode (file_bytes (ensure_file_and_header pf no_files p) p)
     = Some (translate_out pf header_line)
  /\ read_all_rows st' p = [COLUMNS; sample_cells]
  /\ list_data_records st' p = []
  /\ id_exists st' p (txt "1") None = false.
Proof.
  assert (Hb : exists b,
             text_to_bytes pf
               (join [SEMI] (map sanitize_text sample_cells) ++ CRLF)
             = Some b)
    by (destruct pf; vm_compute; eauto).
  destruct Hb as [b Hb].
  cbv zeta.
  rewrite (append_missing pf no_files p sample_record _ b eq_refl
             (sanitize_values_str sample_cells) Hb).
  rewrite (ensure_missing pf no_files p eq_refl).
  unfold id_exists, list_data_records, read_all_rows, file_bytes.
  cbn [fst snd]. rewrite !fs_write_same.
  destruct pf; vm_compute in Hb; injection Hb as <-;
    repeat split; try rewrite !fs_write_same; vm_compute; reflexivity.
Qed.

(** ** The preview ordering *)

Lemma text_ltb_asym (a b : text) :
  text_ltb a b = true -> text_ltb b a = false.
Proof.
  revert b. induction a as [|x a IH]; intros [|y b]; cbn; try reflexivity;
    try discriminate.
  intros H. apply orb_true_iff in H as [H|H].
  - assert (x < y) by lia.
    replace (y <? x) with false by lia. replace (y =? x) with false by lia.
    reflexivity.
  - apply andb_true_iff in H as [H1 H2]. apply Z.eqb_eq in H1. subst y.
    rewrite Z.ltb_irrefl, Z.eqb_refl, (IH _ H2). reflexivity.
Qed.

(** If [a < c] then any [b] is above [a] or below [c]. *)
Lemma text_ltb_cotrans (a b c : text) :
  text_ltb a c = true -> text_ltb a b = true \/ text_ltb b c = true.
Proof.
  revert b c. induction a as [|x a IH]; intros [|y b] [|z c]; cbn;
    try discriminate; auto.
  intros H. apply orb_true_iff in H as [H|H].
  - destruct (Z.ltb_spec x y) as [Hxy|Hxy]; [now left|]. right.
    replace (y <? z) with true by lia. reflexivity.
  - apply andb_true_iff in H as [H1 H2]. apply Z.eqb_eq in H1. subst z.
    destruct (Z.ltb_spec x y) as [Hxy|Hxy]; [now left|].
    destruct (Z.ltb_spec y x) as [Hyx|Hyx]; [now right|].
    assert (x = y) by lia. subst y. rewrite Z.eqb_refl. cbn [orb andb].
    apply IH, H2.
Qed.

Lemma text_ltb_total (a b : text) :
  text_ltb a b = false -> text_ltb b a = false -> a = b.
Proof.
  revert b. induction a as [|x a IH]; intros [|y b]; cbn; try discriminate;
    [reflexivity|].
  intros H1 H2. apply orb_false_iff in H1 as [H1 H1'].
  apply orb_false_iff in H2 as [H2 H2'].
  assert (x = y) by lia. subst y. rewrite Z.eqb_refl in H1', H2'.
  cbn in H1', H2'. f_equal. now apply IH.
Qed.

Lemma key_ltb_asym (a b : sort_key) : key_ltb a b = true -> key_ltb b a = false.
Proof.
  destruct a as [n|s], b as [m|t]; cbn; try discriminate; try reflexivity.
  - lia.
  - apply text_ltb_asym.
Qed.

Lemma key_ltb_cotrans (a b c : sort_key) :
  key_ltb a c = true -> key_ltb a b = true \/ key_ltb b c = true.
Proof.
  destruct a as [n|s], b as [m|t], c as [k|u]; cbn; try discriminate; auto.
  - lia.
  - apply text_ltb_cotrans.
Qed.

Lemma key_ltb_total (a b : sort_key) :
  key_ltb a b = false -> key_ltb b a = false -> a = b.
Proof.
  destruct a as [n|s], b as [m|t]; cbn; try discriminate.
  - intros H1 H2. f_equal. lia.
  - intros H1 H2. f_equal. now apply text_ltb_total.
Qed.

Section SortedProps.
Context {A : Type} (key : A -> sort_key).

Lemma insert_by_perm (x : A) (l : list A) :
  Permutation (insert_by key x l) (x :: l).
Proof.
  induction l as [|y l IH]; [reflexivity|]. cbn [insert_by].
  destruct (key_ltb (key y) (key x)); [|reflexivity].
  rewrite IH. apply perm_swap.
Qed.

Lemma sorted_by_perm (l : list A) : Permutation (sorted_by key l) l.
Proof.
  induction l as [|x l IH]; [reflexivity|]. cbn [sorted_by].
  rewrite insert_by_perm. now constructor.
Qed.

Lemma insert_by_sorted (x : A) (l : list A) :
  StronglySorted (key_le key) l -> StronglySorted (key_le key) (insert_by key x l).
Proof.
  induction 1 as [|y l Hl IH Hy]; cbn [insert_by].
  - repeat constructor.
  - destruct (key_ltb (key y) (key x)) eqn:E.
    + constructor; [exact IH|].
      eapply Permutation_Forall; [symmetry; apply insert_by_perm|].
      constructor; [|exact Hy]. unfold key_le. now apply key_ltb_asym.
    + constructor; [now constructor|].
      constructor; [exact E|].
      eapply Forall_impl; [|exact Hy]. unfold key_le. intros z Hz.
      destruct (key_ltb (key z) (key x)) eqn:Ez; [|reflexivity].
      destruct (key_ltb_cotrans _ (key y) _ Ez); congruence.
Qed.

Lemma sorted_by_sorted (l : list A) : StronglySorted (key_le key) (sorted_by key l).
Proof.
  induction l as [|x l IH]; [constructor|]. now apply insert_by_sorted.
Qed.

Lemma has_key_eq (k : sort_key) (a : A) : has_key key k a = true <-> key a = k.
Proof.
  unfold has_key. rewrite andb_true_iff, !negb_true_iff. split.
  - intros [H1 H2]. now apply key_ltb_total.
  - intros <-. split; destruct (key_ltb (key a) (key a)) eqn:E; auto;
      pose proof (key_ltb_asym _ _ E); congruence.
Qed.

Lemma insert_by_filter (k : sort_key) (x : A) (l : list A) :
  filter (has_key key k) (insert_by key x l) = filter (has_key key k) (x :: l).
Proof.
  induction l as [|y l IH]; [reflexivity|]. cbn [insert_by].
  destruct (key_ltb (key y) (key x)) eqn:E; [|reflexivity].
  cbn [filter] in *. rewrite IH.
  destruct (has_key key k x) eqn:Ex; [|reflexivity].
  destruct (has_key key k y) eqn:Ey; [|reflexivity].
  apply has_key_eq in Ex, Ey. rewrite Ex, Ey in E.
  destruct (key_ltb k k) eqn:Ek; [|discriminate].
  pose proof (key_ltb_asym _ _ Ek). congruence.
Qed.

Lemma sorted_by_stable (k : sort_key) (l : list A) :
  filter (has_key key k) (sorted_by key l) = filter (has_key key k) l.
Proof.
  induction l as [|x l IH]; [reflexivity|]. cbn [sorted_by].
  rewrite insert_by_filter. cbn [filter]. now rewrite IH.
Qed.
End SortedProps.

Lemma key_le_display (a b : row) : key_le row_key a b <-> display_le a b.
Proof.
  unfold key_le, display_le, row_key, try_int_key.
  destruct (py_int (row_id a)), (py_int (row_id b)); cbn; try tauto.
  - lia.
  - split; [discriminate | contradiction].
Qed.

(** C8.  [sorted(data_rows, key=try_int_key of field 0)] is a permutation
    of the data rows in which a row never stands before a row that must
    precede it: rows whose identifier [int] accepts come before all others
    and are ordered by integer value, the others are ordered by their
    identifier as a string; rows of one key keep their file order; and the
    identifiers 10, 2, abc, 1 come out as 1, 2, 10, abc. *)
Theorem order_for_display_spec :
  (forall rows, Permutation (order_for_display rows) rows)
  /\ (forall rows, StronglySorted display_le (order_for_display rows))
  /\ (forall rows k,
         filter (fun r => has_key row_key k r) (order_for_display rows)
         = filter (fun r => has_key row_key k r) rows)
  /\ (forall r k, has_key row_key k r = true <-> row_key r = k)
  /\ map row_id (order_for_display ids_10_2_abc_1)
     = map txt ["1"; "2"; "10"; "abc"]%string.
Proof.
  split; [|split; [|split; [|split]]].
  - intros rows. apply sorted_by_perm.
  - intros rows. pose proof (sorted_by_sorted row_key rows) as H.
    unfold order_for_display.
    induction H as [|r l Hl IH Hr]; constructor; [exact IH|].
    eapply Forall_impl; [|exact Hr]. intros b. apply key_le_display.
  - intros rows k. apply sorted_by_stable.
  - intros r k. apply has_key_eq.
  - vm_compute. reflexivity.
Qed.

(** ** Bounds of the rows read *)

Lemma nth_error_wide (r : row) (i : nat) :
  (i < length r)%nat -> nth_error r i <> None.
Proof. intros H. now apply nth_error_Some. Qed.

Lemma display_row_wide (r : row) :
  (0 < length r)%nat ->
  display_row r
  = Some (row_id r,
          build_condition (nth 2 r []) (nth 3 r (txt "=")) (nth 4 r []),
          nth 9 r [], nth 10 r []).
Proof. destruct r as [|c r]; cbn [length]; [lia | reflexivity]. Qed.

Lemma data_rows_shown_incl (rows : list row) (r : row) :
  In r (data_rows_shown rows) -> In r rows.
Proof.
  unfold data_rows_shown. destruct (2 <? length rows)%nat; [|contradiction].
  intros H. rewrite <- (firstn_skipn 2 rows). apply in_or_app. now right.
Qed.

(** C10.  Every row [read_all_rows] returns has at least [len(COLUMNS)]
    cells, so each of the indices 0 to 14 is in bounds, the guarded reads
    of the preview never take their default, and building the display row
    does not fail, for any row and so for every row of the preview; the row
    [edit_selected] finds is as wide and has the identifier looked up. *)
Theorem read_all_rows_in_bounds (st : fs) (p : path) :
  Forall (fun r =>
            (length COLUMNS <= length r)%nat
            /\ (forall i, (i < 15)%nat -> nth_error r i <> None)
            /\ (forall i d, (i < 15)%nat -> cell_or r i d = nth i r [])
            /\ display_row r
               = Some (row_id r,
                       build_condition (nth 2 r []) (nth 3 r []) (nth 4 r []),
                       nth 9 r [], nth 10 r []))
    (read_all_rows st p)
  /\ Forall (fun d => d <> None) (preview st p)
  /\ (forall target r,
         edit_selected st p target = Some r ->
         (15 <= length r)%nat /\ row_id r = target).
Proof.
  split; [|split].
  - eapply Forall_impl; [|apply read_all_rows_wide]. intros r Hr.
    cbv beta in Hr. rewrite COLUMNS_length. repeat split.
    + exact Hr.
    + intros i Hi. apply nth_error_wide. lia.
    + intros i d Hi. unfold cell_or. apply nth_indep. lia.
    + rewrite display_row_wide by lia.
      now rewrite (nth_indep r (txt "=") []) by lia.
  - unfold preview. apply Forall_map, Forall_forall. intros r Hr.
    apply (Permutation_in _ (sorted_by_perm row_key _)) in Hr.
    apply data_rows_shown_incl in Hr.
    pose proof (read_all_rows_wide st p) as Hw.
    rewrite Forall_forall in Hw. apply Hw in Hr.
    rewrite display_row_wide by lia. discriminate.
  - intros target r H. unfold edit_selected in H.
    apply find_some in H as [Hin Hid]. split.
    + pose proof (read_all_rows_wide st p) as Hw.
      rewrite <- (header_data_rows (read_all_rows st p)) in Hw.
      apply Forall_app in Hw as [_ Hw]. rewrite Forall_forall in Hw. auto.
    + now apply has_id_row_id.
Qed.

(** ** Field counts of the lines written by the rewrite loop *)

Lemma split_on_length_pos (sep : Z) (s : text) :
  (1 <= length (split_on sep s))%nat.
Proof.
  pose proof (split_on_nonempty sep s). destruct (split_on sep s); cbn;
    [congruence | lia].
Qed.

Lemma split_on_length_app (sep : Z) (a rest : text) :
  length (split_on sep (a ++ sep :: rest))
  = (length (split_on sep a) + length (split_on sep rest))%nat.
Proof.
  induction a as [|c a IH]; cbn [app split_on].
  - rewrite Z.eqb_refl. reflexivity.
  - destruct (c =? sep); cbn [length]; [now rewrite IH|].
    pose proof (split_on_nonempty sep (a ++ sep :: rest)) as H1.
    pose proof (split_on_nonempty sep a) as H2.
    destruct (split_on sep (a ++ sep :: rest)); [congruence|].
    destruct (split_on sep a); [congruence|]. exact IH.
Qed.

Lemma split_on_join_length (sep : Z) (cells : list text) :
  (length cells <= length (split_on sep (join [sep] cells)))%nat.
Proof.
  induction cells as [|a cells IH]; [cbn; lia|].
  destruct cells as [|b cells].
  - pose proof (split_on_length_pos sep a). cbn [join length]. lia.
  - change (join [sep] (a :: b :: cells))
      with (a ++ sep :: join [sep] (b :: cells)).
    rewrite split_on_length_app. pose proof (split_on_length_pos sep a).
    cbn [length] in *. lia.
Qed.

Lemma row_body_field_count (r : row) :
  (15 <= field_count (row_body r))%nat
  /\ (length r <= field_count (row_body r))%nat.
Proof.
  unfold field_count, row_body.
  pose proof (split_on_join_length SEMI (pad_row r)) as H.
  rewrite pad_row_length in H. lia.
Qed.

Lemma row_body_field_count_plain (r : row) :
  plain_row r = true -> field_count (row_body r) = Nat.max 15 (length r).
Proof.
  intros H. unfold field_count. rewrite row_body_split by exact H.
  apply pad_row_length.
Qed.

Lemma write_rows_decode (pf : platform) (rows : list row) (b : bytes) :
  write_rows pf rows = (b, true) ->
  utf16le_decode b = Some (rows_text pf rows).
Proof.
  revert b. induction rows as [|r rows IH]; intros b.
  - intros [= <-]. reflexivity.
  - cbn [write_rows].
    destruct (text_to_bytes pf (row_line r)) as [b1|] eqn:E1; [|discriminate].
    destruct (write_rows pf rows) as [bs ok] eqn:E2. intros [= <- ->].
    unfold text_to_bytes in E1.
    rewrite (decode_encode_app _ _ _ E1), (IH _ eq_refl). reflexivity.
Qed.

Lemma delete_loop_incl (target : text) (flag : bool) (data kept : list row)
    (f : bool) :
  delete_loop target flag data = (kept, f) ->
  forall x, In x kept -> In x data.
Proof.
  revert flag kept f. induction data as [|y data IH]; intros flag kept f.
  - intros [= <- _] x [].
  - cbn [delete_loop]. destruct (negb flag && has_id target y).
    + intros H x Hx. right. exact (IH _ _ _ H x Hx).
    + destruct (delete_loop target flag data) as [l g] eqn:El.
      intros [= <- _] x [<-|Hx]; [now left|].
      right. exact (IH _ _ _ El x Hx).
Qed.

Lemma save_loop_flag (original_id : text) (new_r : row) (data out : list row)
    (f : bool) :
  save_loop original_id new_r false data = (out, f) ->
  (f = false /\ out = data)
  \/ (f = true
      /\ exists pre r post,
           data = pre ++ r :: post /\ out = pre ++ new_r :: post).
Proof.
  revert out f. induction data as [|x data IH]; intros out f.
  - intros [= <- <-]. now left.
  - cbn [save_loop negb andb]. destruct (has_id original_id x) eqn:Ex.
    + rewrite save_loop_done. intros [= <- <-]. right. split; [reflexivity|].
      now exists [], x, data.
    + destruct (save_loop original_id new_r false data) as [l g] eqn:El.
      intros [= <- <-].
      destruct (IH _ _ eq_refl) as [[-> ->]|[-> (pre & r & post & -> & ->)]].
      * now left.
      * right. split; [reflexivity|]. now exists (x :: pre), r, post.
Qed.

Lemma line_safe_row_Forall (r : row) :
  line_safe_row r = true
  <-> Forall (Forall (fun c => is_linebreak c = false)) r.
Proof.
  unfold line_safe_row. rewrite forallb_forall, Forall_forall.
  split; intros H c Hc.
  - apply Forall_forall. intros x Hx.
    specialize (H c Hc). rewrite forallb_forall in H.
    now apply negb_true_iff, H.
  - apply forallb_forall. intros x Hx. apply negb_true_iff.
    specialize (H c Hc). rewrite Forall_forall in H. now apply H.
Qed.

Lemma plain_row_line_safe (r : row) :
  plain_row r = true -> line_safe_row r = true.
Proof.
  intros H. apply line_safe_row_Forall. apply plain_row_Forall in H.
  eapply Forall_impl; [|exact H]. intros c Hc.
  apply plain_cell_Forall in Hc. eapply Forall_impl; [|exact Hc].
  intros x Hx. apply plain_char_true in Hx. tauto.
Qed.

Lemma row_body_line_safe (r : row) :
  line_safe_row r = true ->
  Forall (fun c => is_linebreak c = false) (row_body r).
Proof.
  intros H. apply line_safe_row_Forall in H. unfold row_body.
  apply join_chars; [now repeat constructor|].
  apply pad_row_cells; [constructor | exact H].
Qed.

(** The lines of the text the rewrite loop writes. *)
Lemma rows_text_lines (pf : platform) (rows : list row) :
  Forall (fun r => line_safe_row r = true) rows ->
  splitlines (translate_in (rows_text pf rows))
  = flat_map (fun r => row_body r :: line_gap pf) rows.
Proof.
  induction 1 as [|r rows Hr _ IH]; [reflexivity|].
  unfold rows_text, translate_in in *. cbn [map concat flat_map].
  pose proof (row_body_line_safe r Hr) as Hlb.
  rewrite row_line_body, translate_in_line, splitlines_read_line.
  - cbn [app]. f_equal. unfold line_gap. destruct pf; cbn [app]; now rewrite IH.
  - exact Hlb.
  - rewrite Forall_forall in Hlb. intros Hin. apply Hlb in Hin. discriminate.
  - rewrite Forall_forall in Hlb. intros Hin. apply Hlb in Hin. discriminate.
Qed.

Lemma disk_lines_written (pf : platform) (st : fs) (p : path)
    (rows : list row) (b : bytes) :
  write_rows pf rows = (b, true) ->
  Forall (fun r => line_safe_row r = true) rows ->
  disk_lines (fs_write st p b) p
  = flat_map (fun r => row_body r :: line_gap pf) rows.
Proof.
  intros Hw Hs. unfold disk_lines, bytes_to_text.
  rewrite fs_write_same, (write_rows_decode _ _ _ Hw). cbn [option_map].
  now apply rows_text_lines.
Qed.

Lemma nonempty_lines_of_rows (pf : platform) (rows : list row) :
  filter nonempty_line (flat_map (fun r => row_body r :: line_gap pf) rows)
  = map row_body rows.
Proof.
  induction rows as [|r rows IH]; [reflexivity|].
  cbn [flat_map map app filter].
  assert (Hn : nonempty_line (row_body r) = true).
  { pose proof (row_body_has_semi r) as H.
    destruct (row_body r); [destruct H | reflexivity]. }
  rewrite Hn, filter_app, IH. destruct pf; reflexivity.
Qed.

Lemma no_delimiter_true (c : text) : no_delimiter c = true <-> ~ In SEMI c.
Proof.
  unfold no_delimiter. rewrite negb_true_iff. split.
  - intros H Hin.
    assert (E : existsb (Z.eqb SEMI) c = true)
      by (apply existsb_exists; exists SEMI; split; [exact Hin|reflexivity]).
    congruence.
  - intros H. destruct (existsb (Z.eqb SEMI) c) eqn:E; [|reflexivity].
    apply existsb_exists in E as (x & Hx & Ex). apply Z.eqb_eq in Ex.
    subst x. contradiction.
Qed.

Lemma row_body_field_count_clear (r : row) :
  forallb no_delimiter r = true ->
  field_count (row_body r) = Nat.max 15 (length r).
Proof.
  intros H. unfold field_count, row_body. rewrite split_on_join.
  - apply pad_row_length.
  - destruct (pad_row_two r) as (a & b & rest & ->). discriminate.
  - apply pad_row_cells; [now intros []|].
    apply Forall_forall. intros c Hc. rewrite forallb_forall in H.
    now apply no_delimiter_true, H.
Qed.

Lemma plain_row_no_delimiter (r : row) :
  plain_row r = true -> forallb no_delimiter r = true.
Proof.
  intros H. apply forallb_forall. intros c Hc. apply no_delimiter_true.
  apply plain_row_Forall in H. rewrite Forall_forall in H.
  specialize (H c Hc). apply plain_cell_Forall in H.
  rewrite Forall_forall in H. intros Hin. apply H, plain_char_true in Hin.
  tauto.
Qed.

Lemma padded_lines (pf : platform) (rows : list row) :
  flat_map (fun r => row_body r :: line_gap pf) rows
  = flat_map (fun r => join [SEMI] (r ++ repeat [] (15 - length r))
                         :: line_gap pf) rows.
Proof.
  apply flat_map_ext. intros r. unfold row_body. now rewrite pad_row_spec.
Qed.

Lemma disk_lines_wide (pf : platform) (rows : list row) :
  Forall (fun l => l = [] \/ (15 <= field_count l)%nat)
    (flat_map (fun r => row_body r :: line_gap pf) rows).
Proof.
  induction rows as [|r rows IH]; [constructor|].
  cbn [flat_map app]. constructor; [right; apply row_body_field_count|].
  apply Forall_app. split; [|exact IH].
  destruct pf; cbn; [constructor|]. constructor; [now left | constructor].
Qed.

(** C9 (amended).  After a successful rewrite by [delete_selected], and by
    the loop of [save_changes] when no cell of the new row holds a line
    boundary, the lines of the file are the rows written, one line each,
    every row with its cells joined by the delimiter after padding with
    empty strings to 15 cells, and each followed by an empty line where
    [os.linesep] is CR LF.  Every line that is not empty holds at least 15
    fields: exactly the larger of 15 and the number of cells of its row,
    provided (for the new row of an update; the rows read from the file
    never do) no cell holds the delimiter. *)
Theorem rewrite_field_count (pf : platform) (st : fs) (p : path) :
  (forall id st',
      delete_selected pf st p id = (st', Success) ->
      exists rows,
        (forall r, In r rows -> In r (read_all_rows st p))
        /\ disk_lines st' p
           = flat_map (fun r => join [SEMI] (r ++ repeat [] (15 - length r))
                                  :: line_gap pf) rows
        /\ Forall (fun l => l = [] \/ (15 <= field_count l)%nat)
             (disk_lines st' p)
        /\ map field_count (filter nonempty_line (disk_lines st' p))
           = map (fun r => Nat.max 15 (length r)) rows)
  /\ (forall id new_r st',
         update_row pf st p id new_r = (st', Success) ->
         line_safe_row new_r = true ->
         exists rows,
           In new_r rows
           /\ (forall r, In r rows -> r = new_r \/ In r (read_all_rows st p))
           /\ disk_lines st' p
              = flat_map (fun r => join [SEMI] (r ++ repeat [] (15 - length r))
                                     :: line_gap pf) rows
           /\ Forall (fun l => l = [] \/ (15 <= field_count l)%nat)
                (disk_lines st' p)
           /\ (forallb no_delimiter new_r = true ->
               map field_count (filter nonempty_line (disk_lines st' p))
               = map (fun r => Nat.max 15 (length r)) rows)).
Proof.
  assert (Hread : forall x, In x (read_all_rows st p) -> plain_row x = true).
  { intros x Hx. pose proof (read_all_rows_rows st p) as Hall.
    rewrite Forall_forall in Hall. now destruct (Hall x Hx). }
  assert (Hhdr : forall x, In x (header_rows (read_all_rows st p)) ->
                           In x (read_all_rows st p)).
  { intros x Hx. rewrite <- (header_data_rows (read_all_rows st p)).
    apply in_or_app. now left. }
  assert (Hdat : forall x, In x (data_rows_edit (read_all_rows st p)) ->
                           In x (read_all_rows st p)).
  { intros x Hx. rewrite <- (header_data_rows (read_all_rows st p)).
    apply in_or_app. now right. }
  split.
  - intros id st'. unfold delete_selected.
    destruct (delete_loop id false (data_rows_edit (read_all_rows st p)))
      as [kept removed] eqn:Ed.
    destruct removed; [|discriminate].
    destruct (write_rows pf (header_rows (read_all_rows st p) ++ kept))
      as [b ok] eqn:Ew.
    destruct ok; [|discriminate]. intros [= <-].
    set (rows := header_rows (read_all_rows st p) ++ kept) in *.
    assert (Hin : forall r, In r rows -> In r (read_all_rows st p)).
    { intros r Hr. apply in_app_or in Hr as [Hr|Hr]; [now apply Hhdr|].
      apply Hdat. exact (delete_loop_incl _ _ _ _ _ Ed r Hr). }
    assert (Hsafe : Forall (fun r => line_safe_row r = true) rows).
    { apply Forall_forall. intros r Hr. apply plain_row_line_safe. auto. }
    pose proof (disk_lines_written pf st p rows b Ew Hsafe) as Hl.
    exists rows. split; [exact Hin|]. split; [|split].
    + rewrite Hl. apply padded_lines.
    + rewrite Hl. apply disk_lines_wide.
    + rewrite Hl, nonempty_lines_of_rows, map_map. apply map_ext_in.
      intros r Hr. apply row_body_field_count_clear, plain_row_no_delimiter.
      auto.
  - intros id new_r st'. unfold update_row.
    destruct (save_loop id new_r false (data_rows_edit (read_all_rows st p)))
      as [data updated] eqn:Ed.
    destruct updated; [|discriminate].
    destruct (write_rows pf (header_rows (read_all_rows st p) ++ data))
      as [b ok] eqn:Ew.
    destruct ok; [|discriminate]. intros [= <-] Hnew.
    set (rows := header_rows (read_all_rows st p) ++ data) in *.
    destruct (save_loop_flag _ _ _ _ _ Ed)
      as [[Hf _]|[_ (pre & r0 & post & Hdata & ->)]]; [discriminate|].
    assert (Hin : forall r, In r rows -> r = new_r \/ In r (read_all_rows st p)).
    { intros r Hr. apply in_app_or in Hr as [Hr|Hr]; [right; now apply Hhdr|].
      apply in_app_or in Hr as [Hr|[<-|Hr]]; [right|now left|right];
        apply Hdat; rewrite Hdata; apply in_or_app;
        [now left | right; now right]. }
    assert (Hsafe : Forall (fun r => line_safe_row r = true) rows).
    { apply Forall_forall. intros r Hr.
      destruct (Hin r Hr) as [->|Hr']; [exact Hnew|].
      apply plain_row_line_safe. auto. }
    pose proof (disk_lines_written pf st p rows b Ew Hsafe) as Hl.
    exists rows. split; [|split; [exact Hin|split; [|split]]].
    + apply in_or_app. right. apply in_or_app. right. now left.
    + rewrite Hl. apply padded_lines.
    + rewrite Hl. apply disk_lines_wide.
    + intros Hnd. rewrite Hl, nonempty_lines_of_rows, map_map.
      apply map_ext_in. intros r Hr. apply row_body_field_count_clear.
      destruct (Hin r Hr) as [->|Hr']; [exact Hnd|].
      apply plain_row_no_delimiter. auto.
Qed.

(** ** Worked stores *)

(** C1, counterexample.  A record whose identifier holds the delimiter is
    appended to a fresh file: the identifier was not present, the append
    succeeds, and [id_exists] still does not find it, because the stored
    line splits at the delimiter. *)
Lemma append_delimiter_id_counterexample :
  let r := map PyStr [txt "1;2"; txt "Digital"] in
  id_exists st_fresh p0 (txt "1;2") None = false
  /\ snd (append_row_utf16le Posix st_fresh p0 r) = Success
  /\ id_exists (fst (append_row_utf16le Posix st_fresh p0 r)) p0
       (txt "1;2") None = false.
Proof. vm_compute. repeat split. Qed.

(** C2, counterexample.  A row whose cells the field sanitizer leaves
    unchanged is written by the rewrite loop and read back: the cell
    between apostrophes comes back without them. *)
Lemma roundtrip_quoted_cell_counterexample :
  let rows := [[txt "7"; txt "'on'"]] in
  Forall (Forall (fun c => sanitize_value (PyStr c) = Some c)) rows
  /\ snd (write_rows Posix rows) = true
  /\ read_all_rows (fs_write no_files p0 (fst (write_rows Posix rows))) p0
     <> map pad_row rows.
Proof.
  cbv zeta. split; [repeat constructor|]. split; [vm_compute; reflexivity|].
  vm_compute. discriminate.
Qed.

(** C3, counterexample.  The record 1 of [st_one] is updated with a row
    whose message holds the delimiter: the update succeeds and the data
    records afterwards do not contain the row. *)
Lemma update_delimiter_counterexample :
  let f := filled (txt "1") (txt "stop; check valve") in
  let result := save_changes Posix st_one p0 (txt "1") f in
  map row_id (list_data_records st_one p0) = [txt "1"]
  /\ snd result = Success
  /\ ~ In (form_row f) (list_data_records (fst result) p0).
Proof.
  cbv zeta. split; [vm_compute; reflexivity|].
  split; [vm_compute; reflexivity|].
  vm_compute. intros [H|[]]. discriminate H.
Qed.

(** C4, counterexample.  In [st_quoted] the identifiers are distinct; the
    record 7 is removed, and a record with identifier 7 remains: the other
    identifier lost its leading space when the rewritten file was read. *)
Lemma delete_leaves_id_counterexample :
  let result := delete_selected Posix st_quoted p0 (txt "7") in
  map row_id (list_data_records st_quoted p0) = [txt " 7"; txt "7"]
  /\ snd result = Success
  /\ map row_id (list_data_records (fst result) p0) = [txt "7"].
Proof. vm_compute. repeat split. Qed.

(** C6, counterexample.  After [create_new_file] the first cell of the
    version row is not the version stamp: it starts with U+FEFF. *)
Lemma fresh_version_cell_counterexample :
  let rows := read_all_rows st_fresh p0 in
  length rows = 2%nat
  /\ row_id (nth 0 rows []) <> txt "#Version: 1.0.0.0"
  /\ row_id (nth 0 rows []) = BOM_CHAR :: txt "#Version: 1.0.0.0".
Proof.
  cbv zeta. split; [vm_compute; reflexivity|].
  split; [vm_compute; discriminate | vm_compute; reflexivity].
Qed.

(** C9, counterexample.  Removing record 2 from [st_delimiter] rewrites the
    file; the line of record 1 holds 16 fields. *)
Lemma rewrite_sixteen_fields_counterexample :
  let result := delete_selected Posix st_delimiter p0 (txt "2") in
  snd result = Success
  /\ option_map (fun t => map field_count (splitlines (translate_in t)))
       (utf16le_decode (file_bytes (fst result) p0))
     = Some [15; 15; 16]%nat
  /\ map field_count (disk_lines (fst result) p0) = [15; 15; 16]%nat.
Proof. vm_compute. repeat split. Qed.


(** ** The hypotheses of the amended claims at work

    Each condition of the theorems above excludes stores or records on
    which the code behaves otherwise; one evaluation for each. *)

(** An identifier typed between apostrophes is stored with them and read
    without them. *)
Example append_quoted_id :
  let result :=
    append_row_utf16le Posix st_fresh p0 (map PyStr [txt "'5'"; txt "Digital"])
  in
  snd result = Success
  /\ id_exists (fst result) p0 (txt "'5'") None = false
  /\ map row_id (list_data_records (fst result) p0) = [txt "5"].
Proof. vm_compute. repeat split. Qed.

(** Appended to a file whose last line has no terminator, the record
    continues that line: no record is added and the identifier is not
    found. *)
Example append_after_open_line :
  let result :=
    append_row_utf16le Posix st_open p0 (map PyStr [txt "2"; txt "Digital"])
  in
  snd result = Success
  /\ length (list_data_records st_open p0) = 1%nat
  /\ length (list_data_records (fst result) p0) = 1%nat
  /\ id_exists (fst result) p0 (txt "2") None = false.
Proof. vm_compute. repeat split. Qed.

(** A vertical tab is a line boundary the field sanitizer leaves in place:
    the appended record is read as two rows. *)
Example append_vertical_tab :
  let result :=
    append_row_utf16le Posix st_fresh p0 (map PyStr [txt "2"; [97; 11; 98]])
  in
  snd result = Success
  /\ length (list_data_records st_fresh p0) = 0%nat
  /\ length (list_data_records (fst result) p0) = 2%nat.
Proof. vm_compute. repeat split. Qed.

(** A lone surrogate cannot be encoded: the write raises and nothing is
    appended. *)
Example append_lone_surrogate :
  let result :=
    append_row_utf16le Posix st_fresh p0
      (map PyStr [txt "2"; [97; 55296; 98]])
  in
  snd result = WriteError
  /\ file_bytes (fst result) p0 = file_bytes st_fresh p0.
Proof. vm_compute. repeat split. Qed.

(** Written by the rewrite loop and read back: a cell holding the delimiter
    becomes two cells, a cell holding U+0085 ends the row, a leading space
    is lost, and a lone surrogate makes the write raise with the file left
    empty. *)
Example rewrite_loop_unstable_cells :
  let back rows :=
    read_all_rows (fs_write no_files p0 (fst (write_rows Posix rows))) p0 in
  map (@length text) (back [[txt "7"; txt "a;b"]]) = [16%nat]
  /\ map row_id (back [[txt "7"; [97; 133; 98]]]) = [txt "7"; txt "b"]
  /\ map (fun r => nth 1 r []) (back [[txt "7"; txt " a"]]) = [txt "a"]
  /\ write_rows Posix [[txt "7"; [55296]]; [txt "8"]] = ([], false).
Proof. vm_compute. repeat split. Qed.

(** Only the first record with the identifier is replaced: of two records
    7, one remains after the update. *)
Example update_first_of_duplicates :
  let result :=
    save_changes Posix st_dup p0 (txt "7") (filled (txt "9") (txt "moved")) in
  snd result = Success
  /\ map row_id (list_data_records (fst result) p0) = [txt "9"; txt "7"]
  /\ id_exists (fst result) p0 (txt "7") None = true.
Proof. vm_compute. repeat split. Qed.

(** [save_changes] writes the message as it is: a line feed inside it ends
    the line, and one record is read as two. *)
Example update_message_line_feed :
  let result :=
    save_changes Posix st_one p0 (txt "1")
      (filled (txt "1") (txt "stop" ++ [LF] ++ txt "check valve")) in
  snd result = Success
  /\ length (list_data_records st_one p0) = 1%nat
  /\ length (list_data_records (fst result) p0) = 2%nat.
Proof. vm_compute. repeat split. Qed.

(** C9, the line feed.  [save_changes] does not sanitize the message: a
    line feed in it ends the line on disk, and the record is spread over
    two lines of 11 and of 5 fields. *)
Example update_line_feed_field_counts :
  let result :=
    save_changes Posix st_one p0 (txt "1")
      (filled (txt "1") (txt "stop" ++ [LF] ++ txt "check valve")) in
  snd result = Success
  /\ map field_count (disk_lines (fst result) p0) = [15; 15; 11; 5]%nat.
Proof. vm_compute. repeat split. Qed.

(** In a file of at most two rows [delete_selected] searches every row: the
    header row of a header-only file is removed, although no data record
    is listed and [id_exists] finds nothing. *)
Example delete_header_row :
  let result := delete_selected Posix st_header_only p0 (txt "ID") in
  list_data_records st_header_only p0 = []
  /\ id_exists st_header_only p0 (txt "ID") None = false
  /\ snd result = Success
  /\ file_bytes (fst result) p0 = [].
Proof. vm_compute. repeat split. Qed.

(** ** The theorems at the worked stores *)

(** C1 at a fresh file: a record with a line feed in one field. *)
Lemma append_row_spec_witness :
  exists st' new_row,
    append_row_utf16le Posix st_fresh p0
      (map PyStr (txt "1" :: [txt "Digital"; txt "a" ++ [LF] ++ txt "b"]))
    = (st', Success)
    /\ read_all_rows st' p0 = read_all_rows st_fresh p0 ++ [new_row]
    /\ row_id new_row = txt "1"
    /\ id_exists st' p0 (txt "1") None = true
    /\ length (list_data_records st' p0)
       = S (length (list_data_records st_fresh p0))
    /\ (forall q, q <> p0 -> st' q = st_fresh q).
Proof.
  apply (append_row_spec Posix st_fresh p0 fresh_file fresh_text).
  - vm_compute. reflexivity.
  - vm_compute. reflexivity.
  - vm_compute. reflexivity.
  - vm_compute. apply le_n.
  - discriminate.
  - vm_compute. reflexivity.
  - vm_compute. reflexivity.
  - vm_compute. reflexivity.
  - vm_compute. reflexivity.
Defined.

(** C2 for two rows, one of them short, where [os.linesep] is CR LF. *)
Lemma write_read_roundtrip_witness :
  exists b,
    write_rows Windows [sample_cells; [txt "2"]] = (b, true)
    /\ read_all_rows (fs_write no_files p0 b) p0
       = map pad_row [sample_cells; [txt "2"]].
Proof.
  apply (write_read_roundtrip Windows no_files p0 [sample_cells; [txt "2"]]).
  - vm_compute. reflexivity.
  - vm_compute. reflexivity.
Defined.

(** C3 at [st_two]: record 2 becomes record 3. *)
Lemma update_row_spec_witness :
  let new_r := form_row (filled (txt "3") (txt "Motor 3 fault")) in
  exists pre r post st',
    list_data_records st_two p0 = pre ++ r :: post
    /\ Forall (fun x => has_id (txt "2") x = false) pre
    /\ has_id (txt "2") r = true
    /\ update_row Posix st_two p0 (txt "2") new_r = (st', Success)
    /\ list_data_records st' p0
       = resanitize pre ++ pad_row new_r :: resanitize post
    /\ length (list_data_records st' p0) = length (list_data_records st_two p0)
    /\ (~ In (pad_row new_r) (resanitize (pre ++ post)) ->
        forall i, nth_error (list_data_records st' p0) i = Some (pad_row new_r)
                  <-> i = length pre)
    /\ (Forall (fun x => has_id (txt "2") (map clean_cell x) = false)
          (pre ++ post) ->
        has_id (txt "2") (pad_row new_r) = false ->
        id_exists st' p0 (txt "2") None = false)
    /\ (forall q, q <> p0 -> st' q = st_two q).
Proof.
  cbv zeta. apply (update_row_spec Posix st_two p0 (txt "2")).
  - vm_compute. reflexivity.
  - vm_compute. reflexivity.
  - vm_compute. reflexivity.
Defined.

(** C4 at [st_two]: record 2 is removed, record 9 is not found. *)
Lemma delete_selected_spec_witness :
  (exists pre r post st',
      list_data_records st_two p0 = pre ++ r :: post
      /\ Forall (fun x => has_id (txt "2") x = false) pre
      /\ has_id (txt "2") r = true
      /\ delete_selected Posix st_two p0 (txt "2") = (st', Success)
      /\ list_data_records st' p0 = resanitize (pre ++ post)
      /\ (length (list_data_records st' p0) + 1
          = length (list_data_records st_two p0))%nat
      /\ (Forall (fun x => has_id (txt "2") (map clean_cell x) = false)
            (pre ++ post)
          -> id_exists st' p0 (txt "2") None = false)
      /\ (forall q, q <> p0 -> st' q = st_two q))
  /\ delete_selected Posix st_two p0 (txt "9") = (st_two, NotFound).
Proof.
  split.
  - apply (proj1 (delete_selected_spec Posix st_two p0 (txt "2"))).
    vm_compute. reflexivity.
  - apply (proj2 (proj2 (delete_selected_spec Posix st_two p0 (txt "9")))).
    + vm_compute. repeat constructor.
    + vm_compute. reflexivity.
Defined.

(** C9 at [st_two], where [os.linesep] is CR LF: a removal, an update
    with a short row whose message holds the delimiter, and an update with
    a short row without it. *)
Lemma rewrite_field_count_witness :
  (exists rows,
      disk_lines (fst (delete_selected Windows st_two p0 (txt "2"))) p0
      = flat_map (fun r => join [SEMI] (r ++ repeat [] (15 - length r))
                             :: line_gap Windows) rows
      /\ map field_count
           (filter nonempty_line
              (disk_lines (fst (delete_selected Windows st_two p0 (txt "2")))
                 p0))
         = map (fun r => Nat.max 15 (length r)) rows)
  /\ Forall (fun l => l = [] \/ (15 <= field_count l)%nat)
       (disk_lines
          (fst (update_row Windows st_two p0 (txt "2")
                  [txt "2"; txt "stop; check valve"])) p0)
  /\ (exists rows,
         In [txt "2"; txt "Digital"] rows
         /\ map field_count
              (filter nonempty_line
                 (disk_lines
                    (fst (update_row Windows st_two p0 (txt "2")
                            [txt "2"; txt "Digital"])) p0))
            = map (fun r => Nat.max 15 (length r)) rows).
Proof.
  destruct (rewrite_field_count Windows st_two p0) as (Hd & Hu).
  split; [|split].
  - destruct (Hd (txt "2") (fst (delete_selected Windows st_two p0 (txt "2"))))
      as (rows & _ & H1 & _ & H2).
    + vm_compute. reflexivity.
    + exists rows. split; [exact H1 | exact H2].
  - destruct (Hu (txt "2") [txt "2"; txt "stop; check valve"]
                (fst (update_row Windows st_two p0 (txt "2")
                        [txt "2"; txt "stop; check valve"])))
      as (rows & _ & _ & _ & H & _).
    + vm_compute. reflexivity.
    + vm_compute. reflexivity.
    + exact H.
  - destruct (Hu (txt "2") [txt "2"; txt "Digital"]
                (fst (update_row Windows st_two p0 (txt "2")
                        [txt "2"; txt "Digital"])))
      as (rows & Hin & _ & _ & _ & H).
    + vm_compute. reflexivity.
    + vm_compute. reflexivity.
    + exists rows. split; [exact Hin|]. apply H. vm_compute. reflexivity.
Defined.


(** C10 at [st_two]: the row [edit_selected] finds for record 2. *)
Lemma read_all_rows_in_bounds_witness :
  (15 <= length row_two)%nat /\ row_id row_two = txt "2".
Proof.
  apply (proj2 (proj2 (read_all_rows_in_bounds st_two p0)) (txt "2") row_two).
  vm_compute. reflexivity.
Defined.

(** * Further properties *)

(** * Further properties *)

(** ** Ensuring a file *)

Lemma header_rows_read (pf : platform) :
  rows_of_bytes (header_bytes pf) = [COLUMNS].
Proof. destruct pf; vm_compute; reflexivity. Qed.

Lemma ensure_missing_read (pf : platform) (st : fs) (p : path) :
  st p = None -> read_all_rows (ensure_file_and_header pf st p) p = [COLUMNS].
Proof.
  intros H. rewrite (ensure_missing pf st p H). unfold read_all_rows.
  rewrite fs_write_same. apply header_rows_read.
Qed.

Lemma ensure_existing (pf : platform) (st : fs) (p : path) (b : bytes) :
  st p = Some b -> ensure_file_and_header pf st p = st.
Proof. intros H. unfold ensure_file_and_header. now rewrite H. Qed.

Lemma ensure_exists (pf : platform) (st : fs) (p : path) :
  exists b, ensure_file_and_header pf st p p = Some b.
Proof.
  destruct (st p) as [b|] eqn:E.
  - exists b. now rewrite (ensure_existing pf st p b E).
  - rewrite (ensure_missing pf st p E). eexists. apply fs_write_same.
Qed.

Lemma ensure_other (pf : platform) (st : fs) (p q : path) :
  q <> p -> ensure_file_and_header pf st p q = st q.
Proof.
  intros H. destruct (st p) as [b|] eqn:E.
  - now rewrite (ensure_existing pf st p b E).
  - rewrite (ensure_missing pf st p E). now apply fs_write_other.
Qed.

(** X1.  [ensure_file_and_header] leaves an existing file, whatever it
    holds, and every other path untouched; for a missing path it creates a
    file that [read_all_rows] reads as the header row alone, so that the
    preview [browse_file] shows is empty; and ensuring twice is ensuring
    once. *)
Theorem ensure_file_and_header_spec (pf : platform) (st : fs) (p : path) :
  (forall b, st p = Some b ->
             ensure_file_and_header pf st p = st
             /\ browse_file pf st p = (st, preview st p))
  /\ (st p = None ->
      read_all_rows (ensure_file_and_header pf st p) p = [COLUMNS]
      /\ snd (browse_file pf st p) = []
      /\ forall id, id_exists (ensure_file_and_header pf st p) p id None
                    = false)
  /\ (forall q, q <> p -> ensure_file_and_header pf st p q = st q)
  /\ ensure_file_and_header pf (ensure_file_and_header pf st p) p
     = ensure_file_and_header pf st p.
Proof.
  split; [|split; [|split]].
  - intros b H. unfold browse_file.
    now rewrite (ensure_existing pf st p b H).
  - intros H. pose proof (ensure_missing_read pf st p H) as Hr.
    repeat split.
    + exact Hr.
    + unfold browse_file, preview, list_data_records. cbn [snd].
      rewrite Hr. reflexivity.
    + intros id. unfold id_exists. rewrite Hr. reflexivity.
  - intros q. apply ensure_other.
  - destruct (ensure_exists pf st p) as [b Hb].
    apply (ensure_existing pf _ p b Hb).
Qed.

(** ** The duplicate check *)

Lemma id_scan_exclude_same (target : text) (data : list row) :
  id_scan target (Some target) data = false.
Proof.
  induction data as [|r data IH]; [reflexivity|]. cbn [id_scan].
  destruct (has_id target r); exact IH.
Qed.

Lemma has_id_both (a b : text) (r : row) :
  has_id a r = true -> has_id b r = true -> a = b.
Proof.
  intros Ha Hb. apply has_id_row_id in Ha, Hb. congruence.
Qed.

Lemma id_scan_exclude_other (target e : text) (data : list row) :
  target <> e -> id_scan target (Some e) data = id_scan target None data.
Proof.
  intros Hne. induction data as [|r data IH]; [reflexivity|]. cbn [id_scan].
  destruct (has_id target r) eqn:Et; [|exact IH].
  destruct (has_id e r) eqn:Ee; [|reflexivity].
  elim Hne. eapply has_id_both; eauto.
Qed.

Lemma id_scan_true (target : text) (data : list row) :
  id_scan target None data = true <->
  exists r, In r data /\ has_id target r = true.
Proof.
  induction data as [|x data IH]; cbn [id_scan].
  - split; [discriminate | intros (r & [] & _)].
  - destruct (has_id target x) eqn:E.
    + split; [|reflexivity]. intros _. exists x. split; [now left | exact E].
    + rewrite IH. split.
      * intros (r & Hin & Hr). exists r. split; [now right | exact Hr].
      * intros (r & [->|Hin] & Hr); [congruence|]. now exists r.
Qed.

Lemma list_data_records_wide (st : fs) (p : path) :
  Forall (fun r => (15 <= length r)%nat) (list_data_records st p).
Proof.
  apply Forall_forall. intros r Hr. apply data_rows_shown_incl in Hr.
  pose proof (read_all_rows_wide st p) as H. rewrite Forall_forall in H. auto.
Qed.

Lemma id_exists_listed (st : fs) (p : path) (target : text) :
  id_exists st p target None = true <-> In target (listed_ids st p).
Proof.
  unfold id_exists, listed_ids. fold (list_data_records st p).
  rewrite id_scan_true, in_map_iff. split.
  - intros (r & Hin & Hr). exists r. split; [|exact Hin].
    now apply has_id_row_id.
  - intros (r & Hid & Hin). exists r. split; [exact Hin|].
    pose proof (list_data_records_wide st p) as Hw.
    rewrite Forall_forall in Hw. specialize (Hw r Hin).
    rewrite has_id_wide by lia. apply text_eqb_eq. exact Hid.
Qed.

(** X2.  [id_exists] without an exclusion is true exactly when the
    identifier is field 0 of a listed data record; excluding an identifier
    other than the target changes nothing, and excluding the target itself
    always gives false, whatever the file holds. *)
Theorem id_exists_spec (st : fs) (p : path) (target : text) :
  (id_exists st p target None = true <-> In target (listed_ids st p))
  /\ id_exists st p target (Some target) = false
  /\ (forall e, e <> target ->
                id_exists st p target (Some e) = id_exists st p target None).
Proof.
  split; [|split].
  - apply id_exists_listed.
  - apply id_scan_exclude_same.
  - intros e He. apply id_scan_exclude_other. congruence.
Qed.

(** ** Rejected operations *)

Lemma append_outcome (pf : platform) (st : fs) (p : path)
    (vals : list pyval) (st' : fs) (o : outcome) :
  append_row_utf16le pf st p vals = (st', o) -> o = Success \/ o = WriteError.
Proof.
  unfold append_row_utf16le.
  destruct (sanitize_values vals) as [safe|]; [|intros [= <- <-]; auto].
  destruct (text_to_bytes pf _); intros [= <- <-]; auto.
Qed.

Lemma update_row_outcome (pf : platform) (st : fs) (p : path) (id : text)
    (new_r : row) (st' : fs) (o : outcome) :
  update_row pf st p id new_r = (st', o) ->
  (o = NotFound /\ st' = st) \/ o = Success \/ o = WriteError.
Proof.
  unfold update_row.
  destruct (save_loop id new_r false _) as [data updated].
  destruct updated.
  - destruct (write_rows pf _) as [b ok]. intros [= <- <-].
    destruct ok; auto.
  - intros [= <- <-]. auto.
Qed.

(** X3.  An operation that is turned down writes nothing: [add_entry],
    [save_changes] and [delete_selected] return the file system as it was
    whenever their outcome is neither success nor a write error. *)
Theorem rejected_operations_keep_files (pf : platform) (st : fs) (p : path) :
  (forall f st' o,
      add_entry pf st p f = (st', o) ->
      o <> Success -> o <> WriteError -> st' = st)
  /\ (forall original_id f st' o,
         save_changes pf st p original_id f = (st', o) ->
         o <> Success -> o <> WriteError -> st' = st)
  /\ (forall id st' o,
         delete_selected pf st p id = (st', o) ->
         o <> Success -> o <> WriteError -> st' = st).
Proof.
  split; [|split].
  - intros f st' o. unfold add_entry.
    destruct (strip is_space (entry_id f)) as [|c s] eqn:E;
      [now intros [= <- <-]|].
    destruct (id_exists st p (c :: s) None); [now intros [= <- <-]|].
    intros H H1 H2. destruct (append_outcome _ _ _ _ _ _ H); contradiction.
  - intros original_id f st' o. unfold save_changes.
    destruct (strip is_space (entry_id f)) as [|c s] eqn:E;
      [now intros [= <- <-]|].
    destruct (id_exists st p (c :: s) (Some original_id));
      [now intros [= <- <-]|].
    intros H H1 H2.
    destruct (update_row_outcome _ _ _ _ _ _ _ H) as [[_ ->]|[->| ->]];
      [reflexivity | contradiction | contradiction].
  - intros id st' o. unfold delete_selected.
    destruct (delete_loop id false _) as [kept removed].
    destruct removed; [|now intros [= <- <-]].
    destruct (write_rows pf _) as [b ok]. intros [= <- <-].
    destruct ok; contradiction.
Qed.

(** ** Files that cannot be read *)

Lemma decode_odd (bs : bytes) :
  Nat.odd (length bs) = true -> utf16le_decode bs = None.
Proof.
  induction bs as [|b|b0 b1 bs IH2 IH4] using bytes_units_ind.
  - discriminate.
  - reflexivity.
  - intros H. cbn [utf16le_decode].
    assert (Hodd : Nat.odd (length bs) = true).
    { cbn [length] in H. now rewrite Nat.odd_succ_succ in H. }
    destruct ((55296 <=? code_unit b0 b1) && (code_unit b0 b1 <? 56320)).
    + destruct bs as [|b2 [|b3 bs4]]; try reflexivity.
      destruct ((56320 <=? code_unit b2 b3) && (code_unit b2 b3 <? 57344));
        [|reflexivity].
      rewrite (IH4 b2 b3 bs4 eq_refl); [reflexivity|].
      cbn [length] in Hodd. now rewrite Nat.odd_succ_succ in Hodd.
    + destruct ((56320 <=? code_unit b0 b1) && (code_unit b0 b1 <? 57344));
        [reflexivity|].
      now rewrite (IH2 Hodd).
Qed.

Lemma encode_cp_even (c : Z) (b : bytes) :
  encode_cp c = Some b -> Nat.even (length b) = true.
Proof.
  unfold encode_cp.
  destruct (((0 <=? c) && (c <? 55296)) || ((57344 <=? c) && (c <? 65536)));
    [now intros [= <-]|].
  destruct ((65536 <=? c) && (c <? 1114112)); [now intros [= <-]|discriminate].
Qed.

Lemma encode_even (s : text) (b : bytes) :
  utf16le_encode s = Some b -> Nat.even (length b) = true.
Proof.
  revert b. induction s as [|c s IH]; intros b; [now intros [= <-]|].
  cbn [utf16le_encode].
  destruct (encode_cp c) as [bc|] eqn:Ec; [|discriminate].
  destruct (utf16le_encode s) as [bs|] eqn:Es; [|discriminate].
  intros [= <-]. rewrite length_app, Nat.even_add.
  now rewrite (encode_cp_even _ _ Ec), (IH _ eq_refl).
Qed.

Lemma unreadable_rows (st : fs) (p : path) :
  (st p = None \/ exists bs, st p = Some bs /\ utf16le_decode bs = None) ->
  read_all_rows st p = [].
Proof.
  unfold read_all_rows, rows_of_bytes, bytes_to_text.
  intros [H|(bs & H & Hd)]; rewrite H; [reflexivity|]. now rewrite Hd.
Qed.

(** X4.  A file that cannot be opened or decoded, in particular one with
    an odd number of bytes, reads as no rows: the preview is empty, no
    identifier exists, nothing is found to edit, and removal and update
    report not-found without writing.  A record appended to a file of odd
    length leaves it as unreadable as before. *)
Theorem unreadable_file_is_empty (st : fs) (p : path) :
  ((st p = None \/ exists bs, st p = Some bs /\ utf16le_decode bs = None) ->
   read_all_rows st p = []
   /\ preview st p = []
   /\ (forall id e, id_exists st p id e = false)
   /\ (forall id, edit_selected st p id = None)
   /\ (forall pf id, delete_selected pf st p id = (st, NotFound))
   /\ (forall pf id new_r, update_row pf st p id new_r = (st, NotFound)))
  /\ (forall bs, Nat.odd (length bs) = true -> utf16le_decode bs = None)
  /\ (forall pf old vals,
         st p = Some old -> Nat.odd (length old) = true ->
         read_all_rows (fst (append_row_utf16le pf st p vals)) p = []).
Proof.
  split; [|split].
  - intros H. pose proof (unreadable_rows st p H) as Hr. repeat split.
    + exact Hr.
    + unfold preview, list_data_records. now rewrite Hr.
    + intros id e. unfold id_exists. now rewrite Hr.
    + intros id. unfold edit_selected. now rewrite Hr.
    + intros pf id. unfold delete_selected. now rewrite Hr.
    + intros pf id new_r. unfold update_row. now rewrite Hr.
  - apply decode_odd.
  - intros pf old vals Hst Hodd. unfold append_row_utf16le.
    destruct (sanitize_values vals) as [safe|]; cbn [fst];
      [|apply unreadable_rows; right; exists old; split; [exact Hst|];
        now apply decode_odd].
    rewrite (ensure_existing pf st p old Hst).
    destruct (text_to_bytes pf _) as [b|] eqn:Eb; cbn [fst].
    + apply unreadable_rows. right. exists (file_bytes st p ++ b).
      split; [apply fs_write_same|]. apply decode_odd.
      unfold file_bytes. rewrite Hst, length_app, Nat.odd_add, Hodd.
      unfold text_to_bytes in Eb. apply encode_even in Eb.
      unfold Nat.odd. now rewrite Eb.
    + apply unreadable_rows. right. exists old. split; [exact Hst|].
      now apply decode_odd.
Qed.

(** ** Outcomes of the removal *)

Lemma delete_loop_flag (target : text) (data kept : list row) (f : bool) :
  delete_loop target false data = (kept, f) ->
  (f = false /\ kept = data
   /\ Forall (fun x => has_id target x = false) data)
  \/ (f = true
      /\ exists pre r post,
           data = pre ++ r :: post /\ kept = pre ++ post
           /\ Forall (fun x => has_id target x = false) pre
           /\ has_id target r = true).
Proof.
  revert kept f. induction data as [|x data IH]; intros kept f.
  - intros [= <- <-]. left. repeat split. constructor.
  - cbn [delete_loop negb andb]. destruct (has_id target x) eqn:E.
    + rewrite delete_loop_done. intros [= <- <-]. right. split; [reflexivity|].
      exists [], x, data. repeat split; [constructor | exact E].
    + destruct (delete_loop target false data) as [l g] eqn:El.
      intros [= <- <-].
      destruct (IH l g eq_refl)
        as [(-> & -> & Hall)|(-> & pre & r & post & -> & -> & Hpre & Hr)].
      * left. repeat split. now constructor.
      * right. split; [reflexivity|]. exists (x :: pre), r, post.
        repeat split; [now constructor | exact Hr].
Qed.

Lemma plain_rows_incl (a b : list row) :
  (forall x, In x a -> In x b) -> plain_rows b = true -> plain_rows a = true.
Proof.
  intros H. unfold plain_rows. rewrite !forallb_forall. auto.
Qed.

Lemma header_rows_incl (rows : list row) (x : row) :
  In x (header_rows rows) -> In x rows.
Proof.
  unfold header_rows. destruct (2 <? length rows)%nat; [|contradiction].
  intros H. rewrite <- (firstn_skipn 2 rows). apply in_or_app. now left.
Qed.

Lemma data_rows_edit_incl (rows : list row) (x : row) :
  In x (data_rows_edit rows) -> In x rows.
Proof.
  intros H. rewrite <- (header_data_rows rows). apply in_or_app. now right.
Qed.

(** X5.  What the reports of [delete_selected] mean.  When it reports
    not-found, no row it searched has the identifier as field 0 and the
    file system is as it was.  When it reports success, the first searched
    row with the identifier is the one removed: the file reads as the
    leading rows and the other searched rows in their order, each cell
    sanitized once more, exactly one row fewer than before, and no other
    file is touched.  In a file of at most two rows the searched rows are
    all rows. *)
Theorem delete_selected_outcomes (pf : platform) (st : fs) (p : path)
    (id : text) (st' : fs) (o : outcome) :
  delete_selected pf st p id = (st', o) ->
  (o = NotFound ->
   st' = st
   /\ Forall (fun x => has_id id x = false)
        (data_rows_edit (read_all_rows st p)))
  /\ (o = Success ->
      exists pre r post,
        data_rows_edit (read_all_rows st p) = pre ++ r :: post
        /\ Forall (fun x => has_id id x = false) pre
        /\ has_id id r = true
        /\ read_all_rows st' p
           = resanitize (header_rows (read_all_rows st p) ++ pre ++ post)
        /\ (length (read_all_rows st' p) + 1
            = length (read_all_rows st p))%nat
        /\ (forall q, q <> p -> st' q = st q)).
Proof.
  unfold delete_selected.
  destruct (delete_loop id false (data_rows_edit (read_all_rows st p)))
    as [kept removed] eqn:Ed.
  destruct (delete_loop_flag _ _ _ _ Ed)
    as [(-> & -> & Hall)|(-> & pre & r & post & Hdata & -> & Hpre & Hr)].
  - intros [= <- <-]. split; [now split | discriminate].
  - set (rows := read_all_rows st p) in *.
    assert (Hincl : forall x, In x (header_rows rows ++ pre ++ post) ->
                              In x rows).
    { intros x Hx. apply in_app_or in Hx as [Hx|Hx].
      - now apply header_rows_incl.
      - apply data_rows_edit_incl. rewrite Hdata.
        apply in_app_or in Hx as [Hx|Hx]; apply in_or_app;
          [now left | right; now right]. }
    pose proof (plain_rows_incl _ _ Hincl (read_all_rows_plain st p)) as Hp.
    destruct (read_after_write_rows pf st p _ Hp) as [b [Hw Hread]].
    rewrite Hw. intros [= <- <-]. split; [discriminate|]. intros _.
    exists pre, r, post.
    assert (Hwide : Forall (fun x => (15 <= length x)%nat)
                      (header_rows rows ++ pre ++ post)).
    { apply Forall_forall. intros x Hx. apply Hincl in Hx.
      pose proof (read_all_rows_wide st p) as H.
      rewrite Forall_forall in H. auto. }
    rewrite (resanitize_wide _ Hwide) in Hread.
    repeat split; try assumption.
    + rewrite Hread, resanitize_length.
      rewrite <- (header_data_rows rows) at 2. fold rows. rewrite Hdata.
      rewrite !length_app. cbn [length]. lia.
    + intros q Hq. now apply fs_write_other.
Qed.

(** ** A write error during an update *)

Lemma write_rows_stops (pf : platform) (pre : list row) (r : row)
    (post : list row) :
  plain_rows pre = true -> text_to_bytes pf (row_line r) = None ->
  exists b, write_rows pf (pre ++ r :: post) = (b, false)
            /\ write_rows pf pre = (b, true).
Proof.
  rewrite plain_rows_Forall. intros Hpre Hr.
  induction Hpre as [|x pre Hx _ [b [H1 H2]]].
  - exists []. cbn [app write_rows]. now rewrite Hr.
  - destruct (row_line_encodes pf x Hx) as [bx Hbx].
    exists (bx ++ b). cbn [app write_rows]. now rewrite Hbx, H1, H2.
Qed.

Lemma text_to_bytes_none (pf : platform) (s : text) (c : Z) :
  In c s -> is_scalar c = false -> text_to_bytes pf s = None.
Proof.
  intros Hin Hc. unfold text_to_bytes.
  destruct (utf16le_encode (translate_out pf s)) as [b|] eqn:E; [|reflexivity].
  exfalso. assert (Hs : Forall (fun c => is_scalar c = true)
                          (translate_out pf s)).
  { clear Hin. revert b E. generalize (translate_out pf s) as t.
    induction t as [|d t IH]; intros b; [constructor|].
    cbn [utf16le_encode].
    destruct (encode_cp d) as [bd|] eqn:Ed; [|discriminate].
    destruct (utf16le_encode t) as [bt|] eqn:Et; [|discriminate].
    intros _. constructor; [eapply encode_cp_is_scalar; eauto | eauto]. }
  rewrite Forall_forall in Hs.
  assert (Hin' : In c (translate_out pf s)).
  { unfold translate_out. apply in_flat_map. exists c. split; [exact Hin|].
    destruct (Z.eqb_spec c LF) as [->|_]; [discriminate Hc | now left]. }
  apply Hs in Hin'. congruence.
Qed.

Lemma join_incl (sep : text) (cells : list text) (cell : text) (c : Z) :
  In cell cells -> In c cell -> In c (join sep cells).
Proof.
  intros Hcell Hc. induction cells as [|a cells IH]; [contradiction|].
  destruct cells as [|b cells].
  - destruct Hcell as [->|[]]. exact Hc.
  - change (join sep (a :: b :: cells)) with (a ++ sep ++ join sep (b :: cells)).
    destruct Hcell as [->|Hcell]; apply in_or_app; [now left|].
    right. apply in_or_app. right. now apply IH.
Qed.

Lemma row_line_unencodable (pf : platform) (r : row) (cell : text) (c : Z) :
  In cell r -> In c cell -> is_scalar c = false ->
  text_to_bytes pf (row_line r) = None.
Proof.
  intros Hcell Hc Hs. apply (text_to_bytes_none pf _ c); [|exact Hs].
  unfold row_line. apply in_or_app. left.
  apply (join_incl _ _ cell); [|exact Hc].
  rewrite pad_row_spec. apply in_or_app. now left.
Qed.

(** X6.  When the new row of an update holds a character that cannot be
    encoded (a lone surrogate), the write raises after the file was
    truncated and the rows before the edited record were written: the
    outcome is a write error and the file is left with the leading rows
    and the records before the edited one only; the edited record and
    every record after it are gone. *)
Theorem update_write_error_truncates (pf : platform) (st : fs) (p : path)
    (id : text) (new_r : row) (cell : text) (c : Z) :
  id_exists st p id None = true ->
  In cell new_r -> In c cell -> is_scalar c = false ->
  exists pre r post st',
    list_data_records st p = pre ++ r :: post
    /\ Forall (fun x => has_id id x = false) pre
    /\ has_id id r = true
    /\ update_row pf st p id new_r = (st', WriteError)
    /\ list_data_records st' p = resanitize pre
    /\ (length (list_data_records st' p) < length (list_data_records st p))%nat.
Proof.
  intros Hex Hcell Hc Hs.
  unfold id_exists in Hex. fold (list_data_records st p) in Hex.
  destruct (id_scan_split _ _ Hex) as (pre & r & post & Hdata & Hpre & Hr).
  exists pre, r, post.
  unfold list_data_records in Hdata.
  destruct (data_rows_shown_nonempty (read_all_rows st p))
    as (Hlen & Hedit & Hhdr & Hh2 & Hrows).
  { rewrite Hdata. now destruct pre. }
  pose proof (read_all_rows_plain st p) as Hplain.
  pose proof (read_all_rows_wide st p) as Hwide.
  rewrite Hrows, Hdata in Hplain, Hwide.
  rewrite !plain_rows_app in Hplain.
  apply andb_true_iff in Hplain as [Hp1 Hp2].
  apply andb_true_iff in Hp2 as [Hp2 _].
  apply Forall_app in Hwide as [Hw1 Hw2].
  apply Forall_app in Hw2 as [Hw2 _].
  assert (Hp : plain_rows (firstn 2 (read_all_rows st p) ++ pre) = true)
    by (rewrite plain_rows_app; now rewrite Hp1, Hp2).
  destruct (write_rows_stops pf _ new_r post Hp
              (row_line_unencodable pf new_r cell c Hcell Hc Hs))
    as [b [Hstop Hpre_w]].
  destruct (rewrite_then_list pf st p _ pre Hh2 Hp) as [b' [Hw' Hl]].
  rewrite Hpre_w in Hw'. injection Hw' as <-.
  exists (fs_write st p b). repeat split; try assumption.
  - unfold update_row. rewrite Hedit, Hdata, Hhdr.
    rewrite (save_loop_first id new_r pre r post Hpre Hr).
    rewrite <- app_assoc in Hstop. now rewrite Hstop.
  - rewrite Hl. now apply resanitize_wide.
  - unfold list_data_records at 2. rewrite Hl, Hdata.
    rewrite length_map, length_app. cbn [length]. lia.
Qed.

(** ** The byte order mark *)

Lemma lstrip_last (q : Z -> bool) (a : text) (c : Z) :
  q c = false -> exists a', lstrip q (a ++ [c]) = a' ++ [c].
Proof.
  intros Hc. induction a as [|x a [a' IH]].
  - exists []. cbn. now rewrite Hc.
  - cbn [app lstrip]. destruct (q x); [now exists a'|].
    now exists (x :: a).
Qed.

Lemma strip_head_kept (q : Z -> bool) (c : Z) (s : text) :
  q c = false -> exists s', strip q (c :: s) = c :: s'.
Proof.
  intros Hc. unfold strip, rstrip. cbn [lstrip]. rewrite Hc.
  cbn [rev]. destruct (lstrip_last q (rev s) c Hc) as [a' ->].
  exists (rev a'). now rewrite rev_app_distr.
Qed.

Lemma clean_cell_bom (s : text) :
  exists s', clean_cell (BOM_CHAR :: s) = BOM_CHAR :: s'.
Proof.
  unfold clean_cell.
  destruct (strip_head_kept is_space BOM_CHAR s eq_refl) as [s1 ->].
  destruct (strip_head_kept (Z.eqb DQUOTE) BOM_CHAR s1 eq_refl) as [s2 ->].
  apply (strip_head_kept (Z.eqb SQUOTE) BOM_CHAR s2 eq_refl).
Qed.

Lemma split_on_head (sep c : Z) (s : text) :
  c <> sep -> exists cell cells, split_on sep (c :: s) = (c :: cell) :: cells.
Proof.
  intros H. cbn [split_on]. destruct (Z.eqb_spec c sep); [contradiction|].
  destruct (split_on sep s) as [|l ls]; eauto.
Qed.

Lemma pad_row_cons (c : text) (cells : row) :
  exists cells', pad_row (c :: cells) = c :: cells'.
Proof. rewrite pad_row_spec. cbn [app]. eauto. Qed.

Lemma translate_in_head (c : Z) (t : text) :
  c <> CR -> c <> LF ->
  translate_in (c :: t) = c :: translate_in_from false t.
Proof.
  intros H1 H2. unfold translate_in. cbn [translate_in_from].
  destruct (Z.eqb_spec c CR); [contradiction|].
  destruct (Z.eqb_spec c LF); [contradiction|]. reflexivity.
Qed.

Lemma splitlines_head (c : Z) (s : text) :
  is_linebreak c = false -> exists l ls, splitlines (c :: s) = (c :: l) :: ls.
Proof.
  intros H. cbn [splitlines]. rewrite H.
  destruct (splitlines s); eauto.
Qed.

(** A text that starts with U+FEFF is read as rows of which the first
    starts with it. *)
Lemma rows_of_bom_text (bs : bytes) (t : text) :
  utf16le_decode bs = Some (BOM_CHAR :: t) ->
  exists c cells rest, rows_of_bytes bs = ((BOM_CHAR :: c) :: cells) :: rest.
Proof.
  intros Hd. unfold rows_of_bytes, bytes_to_text. rewrite Hd.
  cbn [option_map].
  rewrite translate_in_head by discriminate.
  destruct (splitlines_head BOM_CHAR (translate_in_from false t) eq_refl)
    as (l & ls & ->).
  cbn [parse_lines].
  rewrite (is_blank_false (BOM_CHAR :: l) BOM_CHAR (or_introl eq_refl) eq_refl).
  unfold parse_line.
  destruct (split_on_head SEMI BOM_CHAR l ltac:(discriminate))
    as (cell & cells & ->).
  cbn [map]. destruct (clean_cell_bom cell) as [c ->].
  destruct (pad_row_cons (BOM_CHAR :: c) (map clean_cell cells)) as [cells' ->].
  eauto.
Qed.

Lemma decode_bom_bytes (rest : bytes) :
  utf16le_decode (BOM_UTF16_LE ++ rest)
  = option_map (cons BOM_CHAR) (utf16le_decode rest).
Proof. reflexivity. Qed.

Lemma join_head (sep : text) (c : Z) (cell : text) (cells : list text) :
  exists s, join sep ((c :: cell) :: cells) = c :: s.
Proof. destruct cells; cbn [join app]; eauto. Qed.

Lemma encode_bom (s : text) (b : bytes) :
  utf16le_encode (BOM_CHAR :: s) = Some b ->
  exists rest, b = BOM_UTF16_LE ++ rest.
Proof.
  cbn [utf16le_encode]. change (encode_cp BOM_CHAR) with (Some BOM_UTF16_LE).
  destruct (utf16le_encode s) as [bs|]; [|discriminate].
  intros [= <-]. now exists bs.
Qed.

Lemma row_body_head (r : row) (ch : Z) (cell : text) (cells : row) :
  r = (ch :: cell) :: cells -> exists s, row_body r = ch :: s.
Proof.
  intros ->. unfold row_body. rewrite pad_row_spec. cbn [app].
  apply join_head.
Qed.

(** The lines of rows whose first cell starts with U+FEFF start with the
    bytes FF FE, also when a later line cannot be written. *)
Lemma write_rows_bom (pf : platform) (c : text) (cells : row)
    (rest : list row) (b : bytes) (ok : bool) :
  plain_row ((BOM_CHAR :: c) :: cells) = true ->
  write_rows pf (((BOM_CHAR :: c) :: cells) :: rest) = (b, ok) ->
  exists more, b = BOM_UTF16_LE ++ more.
Proof.
  intros Hp. cbn [write_rows].
  destruct (row_line_encodes pf _ Hp) as [b1 Hb1]. rewrite Hb1.
  destruct (write_rows pf rest) as [bs ok']. intros [= <- <-].
  unfold text_to_bytes in Hb1. rewrite row_line_body in Hb1.
  match type of Hb1 with
  | context [row_body ?r] =>
      destruct (row_body_head r BOM_CHAR c cells eq_refl) as [s Es];
      rewrite Es in Hb1
  end.
  change (translate_out pf ((BOM_CHAR :: s) ++ CRLF))
    with (BOM_CHAR :: translate_out pf (s ++ CRLF)) in Hb1.
  destruct (encode_bom _ _ Hb1) as [more ->].
  exists (more ++ bs). now rewrite <- app_assoc.
Qed.

Lemma bom_rows (st : fs) (p : path) :
  has_bom st p -> read_all_rows st p <> [] ->
  exists c cells rest,
    read_all_rows st p = ((BOM_CHAR :: c) :: cells) :: rest.
Proof.
  intros [rest Hst] Hne. unfold read_all_rows in *. rewrite Hst in *.
  destruct (utf16le_decode rest) as [t|] eqn:Ed.
  - apply (rows_of_bom_text _ t). now rewrite decode_bom_bytes, Ed.
  - exfalso. apply Hne. unfold rows_of_bytes, bytes_to_text.
    now rewrite decode_bom_bytes, Ed.
Qed.

Lemma listed_rows_long (st : fs) (p : path) (id : text) :
  id_exists st p id None = true ->
  (2 < length (read_all_rows st p))%nat.
Proof.
  intros H. unfold id_exists in H.
  destruct (data_rows_shown_nonempty (read_all_rows st p)) as (Hlen & _);
    [|exact Hlen].
  intros E. rewrite E in H. discriminate.
Qed.

Lemma header_rows_bom (st : fs) (p : path) (id : text) :
  has_bom st p -> id_exists st p id None = true ->
  exists c cells h2,
    header_rows (read_all_rows st p) = [(BOM_CHAR :: c) :: cells; h2]
    /\ plain_row ((BOM_CHAR :: c) :: cells) = true.
Proof.
  intros Hbom Hex. pose proof (listed_rows_long st p id Hex) as Hlen.
  destruct (bom_rows st p Hbom) as (c & cells & rest & E).
  { intros E. rewrite E in Hlen. cbn in Hlen. lia. }
  pose proof (read_all_rows_plain st p) as Hp.
  unfold header_rows. apply Nat.ltb_lt in Hlen. rewrite Hlen.
  rewrite E in *. destruct rest as [|h2 rest]; [discriminate|].
  exists c, cells, h2. split; [reflexivity|].
  cbn [plain_rows forallb] in Hp. now apply andb_true_iff in Hp as [Hp _].
Qed.

(** X7.  A file that starts with the byte order mark keeps it: appending
    leaves the bytes before the new line alone, and the rewrite loops of
    [delete_selected] and [save_changes] write it again as part of the
    first cell of the first row, although they never write a mark of
    their own; this also holds when the update ends in a write error. *)
Theorem bom_is_kept (pf : platform) (st : fs) (p : path) :
  has_bom st p ->
  (forall vals, has_bom (fst (append_row_utf16le pf st p vals)) p)
  /\ (forall id, id_exists st p id None = true ->
                 has_bom (fst (delete_selected pf st p id)) p)
  /\ (forall id new_r, id_exists st p id None = true ->
                       has_bom (fst (update_row pf st p id new_r)) p).
Proof.
  intros Hbom. split; [|split].
  - intros vals. destruct Hbom as [rest Hst]. unfold append_row_utf16le.
    destruct (sanitize_values vals) as [safe|]; cbn [fst];
      [|now exists rest].
    rewrite (ensure_existing pf st p _ Hst).
    destruct (text_to_bytes pf _) as [b|]; cbn [fst].
    + exists (rest ++ b). unfold file_bytes.
      now rewrite fs_write_same, Hst, app_assoc.
    + now exists rest.
  - intros id Hex.
    destruct (header_rows_bom st p id Hbom Hex) as (c & cells & h2 & Hh & Hp).
    unfold delete_selected. rewrite Hh.
    destruct (delete_loop id false _) as [kept removed].
    destruct removed; [|exact Hbom].
    destruct (write_rows pf _) as [b ok] eqn:Ew. cbn [fst].
    cbn [app] in Ew. destruct (write_rows_bom _ _ _ _ _ _ Hp Ew) as [more ->].
    exists more. apply fs_write_same.
  - intros id new_r Hex.
    destruct (header_rows_bom st p id Hbom Hex) as (c & cells & h2 & Hh & Hp).
    unfold update_row. rewrite Hh.
    destruct (save_loop id new_r false _) as [data updated].
    destruct updated; [|exact Hbom].
    destruct (write_rows pf _) as [b ok] eqn:Ew. cbn [fst].
    cbn [app] in Ew. destruct (write_rows_bom _ _ _ _ _ _ Hp Ew) as [more ->].
    exists more. apply fs_write_same.
Qed.

(** ** Appending and reading back *)

Lemma last_app_nonempty (a b : text) (d : Z) :
  b <> [] -> last (a ++ b) d = last b d.
Proof.
  intros Hb. induction a as [|x a IH]; [reflexivity|].
  cbn [app]. destruct (a ++ b) eqn:E.
  - apply app_eq_nil in E as [_ ->]. contradiction.
  - cbn [last]. exact IH.
Qed.

Lemma ends_with_newline_read (pf : platform) (a : text) :
  ends_with_linebreak (a ++ newline_read pf) = true.
Proof.
  unfold ends_with_linebreak.
  rewrite last_app_nonempty by (destruct pf; discriminate).
  now destruct pf.
Qed.

Lemma ends_with_linebreak_app (a b : text) :
  b <> [] -> ends_with_linebreak (a ++ b) = ends_with_linebreak b.
Proof.
  intros H. unfold ends_with_linebreak. now rewrite last_app_nonempty.
Qed.

(** The general form of an append to a readable file. *)
Lemma append_row_read (pf : platform) (st : fs) (p : path) (old : bytes)
    (t0 : text) (vals : list pyval) (safe : list text) :
  st p = Some old -> bytes_to_text old = Some t0 ->
  ends_with_linebreak t0 = true ->
  sanitize_values vals = Some safe ->
  Forall (fun c => is_scalar c = true /\ is_linebreak c = false)
    (join [SEMI] safe) ->
  exists b,
    append_row_utf16le pf st p vals = (fs_write st p (old ++ b), Success)
    /\ bytes_to_text (old ++ b)
       = Some (t0 ++ join [SEMI] safe ++ newline_read pf)
    /\ read_all_rows (fs_write st p (old ++ b)) p
       = read_all_rows st p ++ parse_lines [join [SEMI] safe].
Proof.
  intros Hst Hold Hend Hsafe Hbody.
  set (body := join [SEMI] safe) in *.
  assert (Hlb : Forall (fun c => is_linebreak c = false) body)
    by (eapply Forall_impl; [|exact Hbody]; now intros c [_ Hc]).
  assert (Hcr : ~ In CR body /\ ~ In LF body).
  { rewrite Forall_forall in Hlb. split; intros Hin; apply Hlb in Hin;
      discriminate. }
  assert (Henc : exists b, text_to_bytes pf (body ++ CRLF) = Some b).
  { unfold text_to_bytes. apply encode_scalar.
    apply translate_out_chars; [reflexivity|].
    apply Forall_app. split; [|repeat constructor].
    eapply Forall_impl; [|exact Hbody]. now intros c [Hc _]. }
  destruct Henc as [b Hb]. exists b.
  unfold bytes_to_text in Hold.
  destruct (utf16le_decode old) as [t|] eqn:Ed; [|discriminate].
  cbn [option_map] in Hold. injection Hold as Ht0.
  assert (Htext : bytes_to_text (old ++ b)
                  = Some (t0 ++ body ++ newline_read pf)).
  { unfold bytes_to_text. unfold text_to_bytes in Hb.
    rewrite (decode_app _ _ _ Ed), (decode_encode _ _ Hb). cbn [option_map].
    unfold translate_in. rewrite translate_in_from_app.
    fold (translate_in t). rewrite Ht0.
    rewrite <- (app_nil_r (translate_out pf (body ++ CRLF))).
    rewrite translate_in_line by tauto. cbn [translate_in_from].
    now rewrite app_nil_r. }
  split; [|split].
  - unfold append_row_utf16le. rewrite Hsafe. fold body.
    unfold ensure_file_and_header. rewrite Hst, Hb.
    unfold file_bytes. now rewrite Hst.
  - exact Htext.
  - unfold read_all_rows at 1 2, rows_of_bytes.
    rewrite fs_write_same, Hst, Htext.
    unfold bytes_to_text. rewrite Ed. cbn [option_map]. rewrite Ht0.
    rewrite splitlines_app; [|rewrite <- Ht0; apply translate_in_no_cr
                             |exact Hend].
    rewrite parse_lines_app. f_equal.
    rewrite <- (app_nil_r (newline_read pf)).
    rewrite splitlines_read_line by exact Hlb.
    cbn [parse_lines]. destruct (is_blank body); destruct pf; reflexivity.
Qed.

Lemma storable_body (cells : list text) :
  forallb storable cells = true ->
  Forall (fun c => is_scalar c = true /\ is_linebreak c = false)
    (join [SEMI] (map sanitize_text cells)).
Proof.
  intros H. apply join_chars; [repeat constructor|].
  apply Forall_map, Forall_forall. intros c Hc.
  rewrite forallb_forall in H. apply sanitize_text_chars. auto.
Qed.

Lemma sanitize_text_no_delimiter (c : text) :
  no_delimiter c = true -> ~ In SEMI (sanitize_text c).
Proof.
  unfold no_delimiter. rewrite negb_true_iff. intros H.
  assert (Hc : ~ In SEMI c).
  { intros Hin. assert (E : existsb (Z.eqb SEMI) c = true)
      by (apply existsb_exists; exists SEMI; split; [exact Hin|reflexivity]).
    congruence. }
  unfold sanitize_text.
  repeat (apply replace_char_keeps_absent; [discriminate|]). exact Hc.
Qed.

(** The row read back from an appended record of at least two fields
    without delimiter. *)
Lemma stored_row (cells : list text) :
  (2 <= length cells)%nat -> forallb no_delimiter cells = true ->
  parse_lines [join [SEMI] (map sanitize_text cells)]
  = [pad_row (map stored_cell cells)].
Proof.
  intros Hlen Hnd. cbn [parse_lines].
  assert (Hblank : is_blank (join [SEMI] (map sanitize_text cells)) = false).
  { apply (is_blank_false _ SEMI); [|reflexivity].
    destruct cells as [|a [|b cells]]; cbn [length] in Hlen; try lia.
    cbn [map]. apply join_has_sep. }
  rewrite Hblank. unfold parse_line. rewrite split_on_join.
  - now rewrite map_map.
  - destruct cells; [cbn in Hlen; lia | discriminate].
  - apply Forall_map, Forall_forall. intros c Hc.
    rewrite forallb_forall in Hnd. apply sanitize_text_no_delimiter. auto.
Qed.

(** X8.  Appending a record of at least two string fields, none holding
    the delimiter or a line boundary other than LF and CR, to a file that
    can be read and ends with a line boundary succeeds, and the rows read
    afterwards are the former rows followed by one row: the fields, each
    with LF and CR turned into spaces and double quotes into apostrophes,
    then stripped of surrounding white space and quote characters, padded
    to the schema length.  No other file changes. *)
Theorem append_row_read_back (pf : platform) (st : fs) (p : path)
    (old : bytes) (t0 : text) (cells : list text) :
  st p = Some old -> bytes_to_text old = Some t0 ->
  ends_with_linebreak t0 = true ->
  (2 <= length cells)%nat ->
  forallb storable cells = true -> forallb no_delimiter cells = true ->
  exists st',
    append_row_utf16le pf st p (map PyStr cells) = (st', Success)
    /\ read_all_rows st' p
       = read_all_rows st p ++ [pad_row (map stored_cell cells)]
    /\ (forall q, q <> p -> st' q = st q).
Proof.
  intros Hst Hold Hend Hlen Hsto Hnd.
  destruct (append_row_read pf st p old t0 (map PyStr cells) _ Hst Hold Hend
              (sanitize_values_str cells) (storable_body cells Hsto))
    as (b & Ha & _ & Hr).
  exists (fs_write st p (old ++ b)). split; [exact Ha|]. split.
  - now rewrite Hr, stored_row.
  - intros q Hq. now apply fs_write_other.
Qed.

(** ** Settled cells *)

Lemma settled_cell_true (c : text) :
  settled_cell c = true <->
  plain_cell c = true /\ stable_cell c = true /\ sanitize_text c = c.
Proof.
  unfold settled_cell. rewrite !andb_true_iff, text_eqb_eq. tauto.
Qed.

Lemma settled_row_Forall (r : row) :
  settled_row r = true <-> Forall (fun c => settled_cell c = true) r.
Proof. unfold settled_row. now rewrite forallb_forall, Forall_forall. Qed.

Lemma settled_row_plain (r : row) : settled_row r = true -> plain_row r = true.
Proof.
  rewrite settled_row_Forall, plain_row_Forall. apply Forall_impl.
  intros c Hc. now apply settled_cell_true in Hc.
Qed.

Lemma settled_row_stable (r : row) :
  settled_row r = true -> stable_row r = true.
Proof.
  rewrite settled_row_Forall. intros H. unfold stable_row.
  apply forallb_forall. rewrite Forall_forall in H. intros c Hc.
  now apply H, settled_cell_true in Hc.
Qed.

Lemma plain_cell_storable (c : text) : plain_cell c = true -> storable c = true.
Proof.
  unfold plain_cell, storable. rewrite !forallb_forall. intros H x Hx.
  apply H, plain_char_true in Hx as (H1 & _ & H3).
  unfold storable_char. now rewrite H1, H3.
Qed.

Lemma plain_cell_no_delimiter (c : text) :
  plain_cell c = true -> no_delimiter c = true.
Proof.
  intros H. unfold no_delimiter. apply negb_true_iff.
  destruct (existsb (Z.eqb SEMI) c) eqn:E; [|reflexivity].
  apply existsb_exists in E as (x & Hx & Hsemi). apply Z.eqb_eq in Hsemi.
  subst x. apply plain_cell_Forall in H. rewrite Forall_forall in H.
  apply H, plain_char_true in Hx. tauto.
Qed.

Lemma settled_row_storable (r : row) :
  settled_row r = true ->
  forallb storable r = true /\ forallb no_delimiter r = true.
Proof.
  intros H. apply settled_row_plain, plain_row_Forall in H.
  rewrite Forall_forall in H.
  split; apply forallb_forall; intros c Hc;
    [apply plain_cell_storable | apply plain_cell_no_delimiter]; auto.
Qed.

Lemma stored_cell_settled (c : text) : settled_cell c = true -> stored_cell c = c.
Proof.
  intros H. apply settled_cell_true in H as (_ & Hs & Hf).
  unfold stored_cell. rewrite Hf. now apply text_eqb_eq.
Qed.

Lemma stored_row_settled (r : row) :
  settled_row r = true -> map stored_cell r = r.
Proof.
  rewrite settled_row_Forall. intros H. rewrite <- (map_id r) at 2.
  apply map_ext_in. intros c Hc. rewrite Forall_forall in H.
  apply stored_cell_settled. auto.
Qed.

Lemma resanitize_settled (rows : list row) :
  settled_rows rows = true -> resanitize rows = rows.
Proof.
  unfold settled_rows. rewrite forallb_forall. intros H.
  unfold resanitize. rewrite <- (map_id rows) at 2.
  apply map_ext_in. intros r Hr. specialize (H r Hr).
  apply settled_row_stable in H. unfold stable_row in H.
  rewrite forallb_forall in H. rewrite <- (map_id r) at 2.
  apply map_ext_in. intros c Hc. apply text_eqb_eq. now apply H.
Qed.

Lemma settled_rows_app (a b : list row) :
  settled_rows (a ++ b) = settled_rows a && settled_rows b.
Proof. apply forallb_app. Qed.

Lemma form_row_padded (f : form) : pad_row (form_row f) = form_row f.
Proof. apply pad_row_wide. cbn. lia. Qed.

Lemma form_row_id (f : form) :
  row_id (form_row f) = strip is_space (entry_id f).
Proof. reflexivity. Qed.

(** ** Adding an entry *)

Lemma store_ok_rows (st : fs) (p : path) :
  store_ok st p -> (2 <= length (read_all_rows st p))%nat.
Proof. now intros (old & t0 & _ & _ & _ & H). Qed.

Lemma list_after_snoc (st st' : fs) (p : path) (r : row) :
  (2 <= length (read_all_rows st p))%nat ->
  read_all_rows st' p = read_all_rows st p ++ [r] ->
  list_data_records st' p = list_data_records st p ++ [r]
  /\ data_rows_edit (read_all_rows st' p) = list_data_records st p ++ [r].
Proof.
  intros Hlen Hr. unfold list_data_records.
  rewrite <- (data_rows_shown_snoc _ r Hlen), <- Hr. split; [reflexivity|].
  symmetry. apply data_rows_shown_edit_eq.
  rewrite Hr, length_app. cbn [length]. lia.
Qed.

(** [add_entry] on a store in order, with a form whose row is settled and
    whose identifier is not listed. *)
Lemma add_entry_at (pf : platform) (st : fs) (p : path) (f : form) :
  store_ok st p -> settled_row (form_row f) = true ->
  strip is_space (entry_id f) <> [] ->
  id_exists st p (strip is_space (entry_id f)) None = false ->
  exists st',
    add_entry pf st p f = (st', Success)
    /\ read_all_rows st' p = read_all_rows st p ++ [form_row f]
    /\ store_ok st' p
    /\ (forall q, q <> p -> st' q = st q).
Proof.
  intros (old & t0 & Hst & Hold & Hend & Hlen) Hset Hne Hdup.
  destruct (settled_row_storable _ Hset) as [Hsto Hnd].
  destruct (append_row_read pf st p old t0 (map PyStr (form_row f)) _ Hst
              Hold Hend (sanitize_values_str _) (storable_body _ Hsto))
    as (b & Ha & Ht & Hr).
  rewrite stored_row in Hr by (trivial; cbn; lia).
  rewrite (stored_row_settled _ Hset), form_row_padded in Hr.
  exists (fs_write st p (old ++ b)). split; [|split; [|split]].
  - unfold add_entry. rewrite Hdup.
    destruct (strip is_space (entry_id f)) eqn:E; [contradiction|].
    rewrite <- Ha. unfold form_row. now rewrite E.
  - exact Hr.
  - eexists (old ++ b), _. split; [apply fs_write_same|].
    split; [exact Ht|]. split.
    + rewrite app_assoc. apply ends_with_newline_read.
    + rewrite Hr, length_app. lia.
  - intros q Hq. now apply fs_write_other.
Qed.

Lemma find_app_none {A : Type} (g : A -> bool) (a b : list A) :
  Forall (fun x => g x = false) a -> find g (a ++ b) = find g b.
Proof.
  induction 1 as [|x a Hx _ IH]; [reflexivity|]. cbn [app find].
  now rewrite Hx.
Qed.

Lemma has_id_form_row (f : form) :
  has_id (strip is_space (entry_id f)) (form_row f) = true.
Proof. cbn. apply text_eqb_refl. Qed.

(** X9.  On a store in order (the file can be read, ends with a line
    boundary and holds the two leading rows), adding an entry whose
    identifier is not blank and not listed, from a form whose cells are
    stored as they are, succeeds: the data records are the former ones
    followed by the row of the form, the identifier is found by
    [id_exists], [edit_selected] returns the row of the form, and the
    preview holds its display row. *)
Theorem add_entry_listed (pf : platform) (st : fs) (p : path) (f : form) :
  store_ok st p -> settled_row (form_row f) = true ->
  strip is_space (entry_id f) <> [] ->
  id_exists st p (strip is_space (entry_id f)) None = false ->
  exists st',
    add_entry pf st p f = (st', Success)
    /\ list_data_records st' p = list_data_records st p ++ [form_row f]
    /\ id_exists st' p (strip is_space (entry_id f)) None = true
    /\ edit_selected st' p (strip is_space (entry_id f)) = Some (form_row f)
    /\ In (display_row (form_row f)) (preview st' p)
    /\ (forall q, q <> p -> st' q = st q).
Proof.
  intros Hok Hset Hne Hdup.
  destruct (add_entry_at pf st p f Hok Hset Hne Hdup)
    as (st' & Ha & Hr & _ & Hother).
  destruct (list_after_snoc st st' p _ (store_ok_rows _ _ Hok) Hr)
    as [Hl He].
  assert (Hnone : Forall (fun x => has_id (strip is_space (entry_id f)) x
                                   = false) (list_data_records st p))
    by (now apply id_scan_false).
  exists st'. repeat split; try assumption.
  - unfold id_exists. fold (list_data_records st' p).
    rewrite Hl, id_scan_app. cbn [id_scan]. rewrite has_id_form_row.
    apply orb_true_r.
  - unfold edit_selected. rewrite He, (find_app_none _ _ _ Hnone).
    cbn [find]. now rewrite has_id_form_row.
  - unfold preview. apply in_map.
    apply (Permutation_in _ (Permutation_sym (sorted_by_perm row_key _))).
    rewrite Hl. apply in_or_app. right. now left.
Qed.

(** X10.  After such an entry was added, adding it again is turned down
    as a duplicate and the file system is returned as it was. *)
Theorem add_entry_twice (pf : platform) (st : fs) (p : path) (f : form) :
  store_ok st p -> settled_row (form_row f) = true ->
  strip is_space (entry_id f) <> [] ->
  id_exists st p (strip is_space (entry_id f)) None = false ->
  exists st',
    add_entry pf st p f = (st', Success)
    /\ add_entry pf st' p f = (st', DuplicateId).
Proof.
  intros Hok Hset Hne Hdup.
  destruct (add_entry_at pf st p f Hok Hset Hne Hdup)
    as (st' & Ha & Hr & _ & _).
  destruct (list_after_snoc st st' p _ (store_ok_rows _ _ Hok) Hr) as [Hl _].
  exists st'. split; [exact Ha|].
  assert (Hex : id_exists st' p (strip is_space (entry_id f)) None = true).
  { unfold id_exists. fold (list_data_records st' p).
    rewrite Hl, id_scan_app. cbn [id_scan]. rewrite has_id_form_row.
    apply orb_true_r. }
  unfold add_entry. rewrite Hex.
  destruct (strip is_space (entry_id f)); [contradiction | reflexivity].
Qed.

(** X11.  Adding such an entry and then removing it leaves the data
    records as they were, each cell sanitized once more by the read; a
    store whose records are settled gets exactly its former records
    back. *)
Theorem add_entry_then_delete (pf : platform) (st : fs) (p : path) (f : form) :
  store_ok st p -> settled_row (form_row f) = true ->
  strip is_space (entry_id f) <> [] ->
  id_exists st p (strip is_space (entry_id f)) None = false ->
  exists st1 st2,
    add_entry pf st p f = (st1, Success)
    /\ delete_selected pf st1 p (strip is_space (entry_id f)) = (st2, Success)
    /\ list_data_records st2 p = resanitize (list_data_records st p)
    /\ (settled_rows (list_data_records st p) = true ->
        list_data_records st2 p = list_data_records st p).
Proof.
  intros Hok Hset Hne Hdup.
  destruct (add_entry_at pf st p f Hok Hset Hne Hdup)
    as (st1 & Ha & Hr & _ & _).
  destruct (list_after_snoc st st1 p _ (store_ok_rows _ _ Hok) Hr) as [Hl _].
  assert (Hnone : Forall (fun x => has_id (strip is_space (entry_id f)) x
                                   = false) (list_data_records st p))
    by (now apply id_scan_false).
  destruct (delete_selected_found pf st1 p _ _ _ [] Hl Hnone
              (has_id_form_row f)) as (b & Hd & Hl2).
  rewrite app_nil_r in Hl2.
  exists st1, (fs_write st1 p b). repeat split; try assumption.
  intros Hs. now rewrite Hl2, resanitize_settled.
Qed.

(** ** When an entry is turned down *)

Lemma id_exists_excluding (st : fs) (p : path) (target original : text) :
  id_exists st p target (Some original) = true
  <-> target <> original /\ In target (listed_ids st p).
Proof.
  destruct (list_eq_dec Z.eq_dec target original) as [->|Hne].
  - unfold id_exists. rewrite id_scan_exclude_same.
    split; [discriminate | now intros [H _]].
  - unfold id_exists. rewrite (id_scan_exclude_other _ _ _ Hne).
    fold (id_exists st p target None). rewrite id_exists_listed. tauto.
Qed.

(** X12.  [add_entry] and [save_changes] report a missing identifier
    exactly when the identifier field is blank; [add_entry] reports a
    duplicate exactly when the trimmed identifier is not blank and is
    listed, and [save_changes] exactly when it is moreover different from
    the identifier being edited: keeping the identifier is never a
    duplicate. *)
Theorem validation_reports (pf : platform) (st : fs) (p : path) :
  (forall f, snd (add_entry pf st p f) = Required
             <-> strip is_space (entry_id f) = [])
  /\ (forall original f,
         snd (save_changes pf st p original f) = Required
         <-> strip is_space (entry_id f) = [])
  /\ (forall f, snd (add_entry pf st p f) = DuplicateId
                <-> strip is_space (entry_id f) <> []
                    /\ In (strip is_space (entry_id f)) (listed_ids st p))
  /\ (forall original f,
         snd (save_changes pf st p original f) = DuplicateId
         <-> strip is_space (entry_id f) <> []
             /\ strip is_space (entry_id f) <> original
             /\ In (strip is_space (entry_id f)) (listed_ids st p)).
Proof.
  split; [|split; [|split]].
  - intros f. unfold add_entry.
    destruct (strip is_space (entry_id f)) as [|c s] eqn:E.
    + cbn [snd]. tauto.
    + split; [|discriminate].
      destruct (id_exists st p (c :: s) None); [discriminate|].
      destruct (append_row_utf16le pf st p _) as [st' o] eqn:Ea.
      cbn [snd]. intros ->.
      destruct (append_outcome _ _ _ _ _ _ Ea); discriminate.
  - intros original f. unfold save_changes.
    destruct (strip is_space (entry_id f)) as [|c s] eqn:E.
    + cbn [snd]. tauto.
    + split; [|discriminate].
      destruct (id_exists st p (c :: s) (Some original)); [discriminate|].
      destruct (update_row pf st p original (form_row f)) as [st' o] eqn:Eu.
      cbn [snd]. intros ->.
      destruct (update_row_outcome _ _ _ _ _ _ _ Eu) as [[H _]|[H|H]];
        discriminate.
  - intros f. rewrite <- id_exists_listed. unfold add_entry.
    destruct (strip is_space (entry_id f)) as [|c s] eqn:E.
    + cbn [snd]. split; [discriminate | now intros [H _]].
    + destruct (id_exists st p (c :: s) None) eqn:Ex.
      * cbn [snd]. split; [|reflexivity]. intros _. split; [discriminate|].
        reflexivity.
      * destruct (append_row_utf16le pf st p _) as [st' o] eqn:Ea.
        cbn [snd]. split; [|now intros [_ H]]. intros ->.
        destruct (append_outcome _ _ _ _ _ _ Ea); discriminate.
  - intros original f.
    assert (Hiff := id_exists_excluding st p (strip is_space (entry_id f))
                      original).
    unfold save_changes.
    destruct (strip is_space (entry_id f)) as [|c s] eqn:E.
    + cbn [snd]. split; [discriminate | now intros [H _]].
    + destruct (id_exists st p (c :: s) (Some original)) eqn:Ex.
      * cbn [snd]. split; [|reflexivity]. intros _.
        split; [discriminate | now apply Hiff].
      * destruct (update_row pf st p original (form_row f)) as [st' o] eqn:Eu.
        cbn [snd]. split.
        -- intros ->.
           destruct (update_row_outcome _ _ _ _ _ _ _ Eu) as [[H _]|[H|H]];
             discriminate.
        -- intros [_ H]. apply Hiff in H. discriminate.
Qed.

(** ** Stores in order *)

Lemma ends_after_line (pf : platform) (a b : text) :
  ends_with_linebreak b = true ->
  ends_with_linebreak (a ++ newline_read pf ++ b) = true.
Proof.
  intros H. destruct b as [|x b].
  - rewrite app_nil_r. apply ends_with_newline_read.
  - rewrite app_assoc, ends_with_linebreak_app by discriminate. exact H.
Qed.

Lemma rows_text_read (pf : platform) (rows : list row) :
  plain_rows rows = true ->
  ends_with_linebreak (translate_in (rows_text pf rows)) = true.
Proof.
  rewrite plain_rows_Forall.
  induction 1 as [|r rows Hr _ IH]; [reflexivity|].
  unfold rows_text, translate_in in *. cbn [map concat].
  pose proof (row_body_chars r Hr) as Hb. rewrite Forall_forall in Hb.
  rewrite row_line_body, translate_in_line.
  - now apply ends_after_line.
  - intros Hin. apply Hb in Hin as [_ Hin]. discriminate.
  - intros Hin. apply Hb in Hin as [_ Hin]. discriminate.
Qed.

Lemma rewrite_store_ok (pf : platform) (st : fs) (p : path)
    (rows : list row) (b : bytes) :
  plain_rows rows = true -> (2 <= length rows)%nat ->
  write_rows pf rows = (b, true) ->
  store_ok (fs_write st p b) p.
Proof.
  intros Hp Hlen Hw.
  destruct (write_rows_plain pf rows Hp) as [b' [Hw' Hd]].
  rewrite Hw in Hw'. injection Hw' as <-.
  exists b, (translate_in (rows_text pf rows)).
  split; [apply fs_write_same|]. split; [|split].
  - unfold bytes_to_text. now rewrite Hd.
  - now apply rows_text_read.
  - unfold read_all_rows, rows_of_bytes, bytes_to_text.
    rewrite fs_write_same, Hd. cbn [option_map].
    now rewrite read_rows_text, length_map.
Qed.

Lemma save_loop_incl (original_id : text) (new_r : row) (flag : bool)
    (data out : list row) (f : bool) :
  save_loop original_id new_r flag data = (out, f) ->
  length out = length data
  /\ forall x, In x out -> x = new_r \/ In x data.
Proof.
  revert flag out f. induction data as [|y data IH]; intros flag out f.
  - intros [= <- _]. split; [reflexivity | intros x []].
  - cbn [save_loop]. destruct (negb flag && has_id original_id y).
    + destruct (save_loop original_id new_r true data) as [l g] eqn:El.
      intros [= <- _]. destruct (IH _ _ _ El) as [Hlen Hin].
      split; [cbn; now rewrite Hlen|].
      intros x [<-|Hx]; [now left|]. destruct (Hin x Hx); [now left|].
      right. now right.
    + destruct (save_loop original_id new_r flag data) as [l g] eqn:El.
      intros [= <- _]. destruct (IH _ _ _ El) as [Hlen Hin].
      split; [cbn; now rewrite Hlen|].
      intros x [<-|Hx]; [right; now left|]. destruct (Hin x Hx); [now left|].
      right. now right.
Qed.

Lemma delete_loop_length (target : text) (data kept : list row) :
  delete_loop target false data = (kept, true) ->
  (length kept + 1 = length data)%nat.
Proof.
  intros H.
  destruct (delete_loop_flag _ _ _ _ H)
    as [(Hf & _)|(_ & pre & r & post & -> & -> & _)]; [discriminate|].
  rewrite !length_app. cbn [length]. lia.
Qed.

Lemma fresh_store_ok (st : fs) (p : path) :
  store_ok (fst (create_new_file st p)) p.
Proof.
  rewrite create_new_file_bytes. cbn [fst].
  exists fresh_file, fresh_text. split; [apply fs_write_same|].
  split; [vm_compute; reflexivity|]. split; [vm_compute; reflexivity|].
  unfold read_all_rows. rewrite fs_write_same. vm_compute. lia.
Qed.

Lemma append_store_ok (pf : platform) (st : fs) (p : path) (cells : list text) :
  store_ok st p -> forallb storable cells = true ->
  store_ok (fst (append_row_utf16le pf st p (map PyStr cells))) p.
Proof.
  intros (old & t0 & Hst & Hold & Hend & Hlen) Hsto.
  destruct (append_row_read pf st p old t0 (map PyStr cells) _ Hst Hold Hend
              (sanitize_values_str cells) (storable_body cells Hsto))
    as (b & Ha & Ht & Hr).
  rewrite Ha. cbn [fst].
  exists (old ++ b). eexists. split; [apply fs_write_same|].
  split; [exact Ht|]. split.
  + rewrite app_assoc. apply ends_with_newline_read.
  + rewrite Hr, length_app. lia.
Qed.

Lemma delete_listed_store_ok (pf : platform) (st : fs) (p : path) (id : text) :
  id_exists st p id None = true ->
  snd (delete_selected pf st p id) = Success
  /\ store_ok (fst (delete_selected pf st p id)) p.
Proof.
  intros Hex. pose proof (listed_rows_long st p id Hex) as Hlen.
  unfold id_exists in Hex. fold (list_data_records st p) in Hex.
  destruct (id_scan_split _ _ Hex) as (pre & r & post & Hdata & Hpre & Hr).
  unfold list_data_records in Hdata.
  rewrite (data_rows_shown_edit_eq _ Hlen) in Hdata.
  unfold delete_selected. rewrite Hdata.
  rewrite (delete_loop_first id pre r post Hpre Hr).
  assert (Hh : header_rows (read_all_rows st p)
               = firstn 2 (read_all_rows st p)).
  { unfold header_rows. apply Nat.ltb_lt in Hlen. now rewrite Hlen. }
  assert (Hincl : forall x,
             In x (header_rows (read_all_rows st p) ++ pre ++ post) ->
             In x (read_all_rows st p)).
  { intros x Hx. apply in_app_or in Hx as [Hx|Hx].
    - now apply header_rows_incl.
    - apply data_rows_edit_incl. rewrite Hdata.
      apply in_app_or in Hx as [Hx|Hx]; apply in_or_app;
        [now left | right; now right]. }
  pose proof (plain_rows_incl _ _ Hincl (read_all_rows_plain st p)) as Hp.
  destruct (write_rows_plain pf _ Hp) as [b [Hw _]]. rewrite Hw.
  cbn [fst snd]. split; [reflexivity|].
  apply (rewrite_store_ok pf st p _ b Hp); [|exact Hw].
  rewrite length_app, Hh, length_firstn. lia.
Qed.

Lemma update_listed_store_ok (pf : platform) (st : fs) (p : path) (id : text)
    (new_r : row) :
  id_exists st p id None = true -> plain_row new_r = true ->
  snd (update_row pf st p id new_r) = Success
  /\ store_ok (fst (update_row pf st p id new_r)) p.
Proof.
  intros Hex Hnew.
  pose proof (listed_rows_long st p id Hex) as Hlen.
  unfold id_exists in Hex. fold (list_data_records st p) in Hex.
  destruct (id_scan_split _ _ Hex) as (pre & r & post & Hdata & Hpre & Hr).
  unfold list_data_records in Hdata.
  rewrite (data_rows_shown_edit_eq _ Hlen) in Hdata.
  unfold update_row. rewrite Hdata.
  rewrite (save_loop_first id new_r pre r post Hpre Hr).
  assert (Hh : header_rows (read_all_rows st p)
               = firstn 2 (read_all_rows st p)).
  { unfold header_rows. apply Nat.ltb_lt in Hlen. now rewrite Hlen. }
  assert (Hp : plain_rows (header_rows (read_all_rows st p)
                           ++ pre ++ new_r :: post) = true).
  { pose proof (read_all_rows_plain st p) as Hall.
    rewrite <- (header_data_rows (read_all_rows st p)), Hdata in Hall.
    rewrite !plain_rows_app in *. cbn [plain_rows forallb] in *.
    apply andb_true_iff in Hall as [H1 H2].
    apply andb_true_iff in H2 as [H2 H3].
    apply andb_true_iff in H3 as [_ H3].
    unfold plain_rows in *. now rewrite H1, H2, H3, Hnew. }
  destruct (write_rows_plain pf _ Hp) as [b [Hw _]]. rewrite Hw.
  cbn [fst snd]. split; [reflexivity|].
  apply (rewrite_store_ok pf st p _ b Hp); [|exact Hw].
  rewrite length_app, Hh, length_firstn. lia.
Qed.

(** X13.  Being in order (the file can be read, its text ends with a line
    boundary, and it holds the two leading rows) is established by
    [create_new_file] and kept by every append of storable fields; and
    whatever the file looked like before, removing or updating a listed
    record leaves the store in order.  [ensure_file_and_header] does not
    establish it: the file it creates holds one row. *)
Theorem store_ok_kept (pf : platform) (st : fs) (p : path) :
  store_ok (fst (create_new_file st p)) p
  /\ (forall cells,
         store_ok st p -> forallb storable cells = true ->
         store_ok (fst (append_row_utf16le pf st p (map PyStr cells))) p)
  /\ (forall id,
         id_exists st p id None = true ->
         snd (delete_selected pf st p id) = Success
         /\ store_ok (fst (delete_selected pf st p id)) p)
  /\ (forall id new_r,
         id_exists st p id None = true -> plain_row new_r = true ->
         snd (update_row pf st p id new_r) = Success
         /\ store_ok (fst (update_row pf st p id new_r)) p)
  /\ (st p = None -> ~ store_ok (ensure_file_and_header pf st p) p).
Proof.
  split; [apply fresh_store_ok|]. split; [|split; [|split]].
  - intros cells. apply append_store_ok.
  - intros id. apply delete_listed_store_ok.
  - intros id new_r. apply update_listed_store_ok.
  - intros Hst (old & t0 & _ & _ & _ & Hlen).
    rewrite (ensure_missing_read pf st p Hst) in Hlen. cbn in Hlen. lia.
Qed.

(** ** Identifiers stay unique *)

Lemma short_rows_list_nothing (pf : platform) (st : fs) (p : path)
    (rows : list row) (b : bytes) (ok : bool) :
  plain_rows rows = true -> (length rows <= 2)%nat ->
  write_rows pf rows = (b, ok) ->
  list_data_records (fs_write st p b) p = [].
Proof.
  intros Hp Hlen Hw.
  destruct (read_after_write_rows pf st p rows Hp) as (b' & Hw' & Hr).
  rewrite Hw in Hw'. injection Hw' as <- _.
  unfold list_data_records, data_rows_shown. rewrite Hr, length_map.
  destruct (Nat.ltb_spec 2 (length rows)); [lia | reflexivity].
Qed.

Lemma short_store_unlisted (st : fs) (p : path) :
  (length (read_all_rows st p) <= 2)%nat ->
  header_rows (read_all_rows st p) = []
  /\ data_rows_edit (read_all_rows st p) = read_all_rows st p
  /\ list_data_records st p = [].
Proof.
  intros H. unfold header_rows, data_rows_edit, list_data_records,
    data_rows_shown.
  destruct (Nat.ltb_spec 2 (length (read_all_rows st p))); [lia|]. tauto.
Qed.

Lemma NoDup_insert {A : Type} (a b : list A) (x : A) :
  NoDup (a ++ b) -> ~ In x (a ++ b) -> NoDup (a ++ x :: b).
Proof.
  intros Hn Hx. apply (Permutation_NoDup (Permutation_middle a b x)).
  now constructor.
Qed.

Lemma unlisted_absent (st : fs) (p : path) (id : text) :
  (2 < length (read_all_rows st p))%nat ->
  id_exists st p id None = false ->
  Forall (fun x => has_id id x = false) (data_rows_edit (read_all_rows st p)).
Proof.
  intros Hlen Hex. rewrite <- (data_rows_shown_edit_eq _ Hlen).
  now apply id_scan_false.
Qed.

Lemma listed_split (st : fs) (p : path) (id : text) :
  id_exists st p id None = true ->
  exists pre r post,
    list_data_records st p = pre ++ r :: post
    /\ Forall (fun x => has_id id x = false) pre
    /\ has_id id r = true.
Proof.
  intros Hex. unfold id_exists in Hex. now apply id_scan_split.
Qed.

Lemma settled_rows_middle (pre : list row) (r : row) (post : list row) :
  settled_rows (pre ++ r :: post) = true
  <-> settled_rows pre = true /\ settled_row r = true
      /\ settled_rows post = true.
Proof.
  unfold settled_rows. rewrite forallb_app. cbn [forallb].
  rewrite !andb_true_iff. tauto.
Qed.

Lemma settled_rows_both (a b : list row) :
  settled_rows (a ++ b) = true
  <-> settled_rows a = true /\ settled_rows b = true.
Proof. unfold settled_rows. now rewrite forallb_app, andb_true_iff. Qed.

Lemma unique_ids_delete (pf : platform) (st : fs) (p : path) (id : text) :
  unique_ids st p -> unique_ids (fst (delete_selected pf st p id)) p.
Proof.
  intros [Hset Hnd].
  destruct (Nat.ltb_spec 2 (length (read_all_rows st p))) as [Hlen|Hlen].
  - destruct (id_exists st p id None) eqn:Hex.
    + destruct (listed_split st p id Hex) as (pre & r & post & Hl & Hpre & Hr).
      destruct (delete_selected_found pf st p id pre r post Hl Hpre Hr)
        as (b & -> & Hl').
      cbn [fst]. unfold unique_ids, listed_ids in *.
      rewrite Hl in Hset, Hnd. rewrite Hl'.
      apply settled_rows_middle in Hset as (H1 & _ & H2).
      assert (Hs : settled_rows (pre ++ post) = true).
      { now apply settled_rows_both. }
      rewrite (resanitize_settled _ Hs). split; [exact Hs|].
      rewrite map_app in *. cbn [map] in Hnd.
      now apply NoDup_remove_1 in Hnd.
    + rewrite (delete_selected_absent pf st p id
                 (unlisted_absent st p id Hlen Hex)).
      now split.
  - destruct (short_store_unlisted st p Hlen) as (Hh & Hd & Hl).
    unfold delete_selected. rewrite Hh, Hd. cbn [app].
    destruct (delete_loop id false (read_all_rows st p)) as [kept removed]
      eqn:El.
    destruct removed; [|now split].
    pose proof (delete_loop_length _ _ _ El) as Hk.
    pose proof (plain_rows_incl _ _ (delete_loop_incl _ _ _ _ _ El)
                  (read_all_rows_plain st p)) as Hp.
    destruct (write_rows pf kept) as [b ok] eqn:Hw. cbn [fst].
    unfold unique_ids, listed_ids.
    rewrite (short_rows_list_nothing pf st p kept b ok Hp); [|lia|exact Hw].
    split; [reflexivity | constructor].
Qed.

Lemma unique_ids_update (pf : platform) (st : fs) (p : path)
    (original_id : text) (f : form) :
  unique_ids st p -> settled_row (form_row f) = true ->
  id_exists st p (strip is_space (entry_id f)) (Some original_id) = false ->
  unique_ids (fst (update_row pf st p original_id (form_row f))) p.
Proof.
  intros [Hset Hnd] Hf Hnew.
  pose proof (settled_row_plain _ Hf) as Hfp.
  destruct (Nat.ltb_spec 2 (length (read_all_rows st p))) as [Hlen|Hlen].
  - destruct (id_exists st p original_id None) eqn:Hex.
    + destruct (listed_split st p original_id Hex)
        as (pre & r & post & Hl & Hpre & Hr).
      destruct (update_row_found pf st p original_id (form_row f) pre r post
                  Hl Hpre Hr Hfp) as (b & -> & Hl').
      cbn [fst]. unfold unique_ids, listed_ids in *.
      rewrite Hl in Hset, Hnd. rewrite Hl'.
      apply settled_rows_middle in Hset as (H1 & _ & H2).
      rewrite (resanitize_settled _ H1), (resanitize_settled _ H2).
      rewrite (stable_row_clean _ (settled_row_stable _ Hf)), form_row_padded.
      split.
      * now apply settled_rows_middle.
      * rewrite map_app in *. cbn [map] in *. rewrite form_row_id.
        rewrite (has_id_row_id _ _ Hr) in Hnd.
        destruct (list_eq_dec Z.eq_dec (strip is_space (entry_id f))
                    original_id) as [->|Hne]; [exact Hnd|].
        apply NoDup_insert; [now apply NoDup_remove_1 in Hnd|].
        intros Hin.
        assert (Hx : id_exists st p (strip is_space (entry_id f))
                       (Some original_id) = true).
        { apply id_exists_excluding. split; [exact Hne|].
          unfold listed_ids. rewrite Hl, map_app. cbn [map].
          apply in_app_or in Hin as [Hin|Hin]; apply in_or_app;
            [now left | right; now right]. }
        rewrite Hx in Hnew. discriminate.
    + rewrite (update_row_absent pf st p original_id (form_row f)
                 (unlisted_absent st p original_id Hlen Hex)).
      now split.
  - destruct (short_store_unlisted st p Hlen) as (Hh & Hd & Hl).
    unfold update_row. rewrite Hh, Hd. cbn [app].
    destruct (save_loop original_id (form_row f) false (read_all_rows st p))
      as [data updated] eqn:El.
    destruct updated; [|now split].
    destruct (save_loop_incl _ _ _ _ _ _ El) as [Hk Hin].
    assert (Hp : plain_rows data = true).
    { apply plain_rows_Forall, Forall_forall. intros x Hx.
      destruct (Hin x Hx) as [->|Hx']; [exact Hfp|].
      pose proof (read_all_rows_plain st p) as Hall.
      rewrite plain_rows_Forall, Forall_forall in Hall. now apply Hall. }
    destruct (write_rows pf data) as [b ok] eqn:Hw. cbn [fst].
    unfold unique_ids, listed_ids.
    rewrite (short_rows_list_nothing pf st p data b ok Hp); [|lia|exact Hw].
    split; [reflexivity | constructor].
Qed.

Lemma unique_ids_add (pf : platform) (st : fs) (p : path) (f : form) :
  unique_ids st p -> store_ok st p -> settled_row (form_row f) = true ->
  unique_ids (fst (add_entry pf st p f)) p.
Proof.
  intros Hu Hok Hf.
  destruct (strip is_space (entry_id f)) as [|c s] eqn:E.
  { unfold add_entry. now rewrite E. }
  destruct (id_exists st p (c :: s) None) eqn:Hex.
  { unfold add_entry. now rewrite E, Hex. }
  assert (Hne : strip is_space (entry_id f) <> []) by now rewrite E.
  rewrite <- E in Hex.
  destruct (add_entry_at pf st p f Hok Hf Hne Hex)
    as (st' & -> & Hr & _ & _).
  cbn [fst]. destruct Hu as [Hset Hnd].
  destruct (list_after_snoc st st' p (form_row f) (store_ok_rows _ _ Hok) Hr)
    as [Hl _].
  unfold unique_ids, listed_ids in *. rewrite Hl. split.
  + apply settled_rows_middle. now repeat split.
  + rewrite map_app. cbn [map]. rewrite form_row_id.
    apply NoDup_insert; rewrite app_nil_r; [exact Hnd|].
    intros Hin. apply id_exists_listed in Hin. congruence.
Qed.

Lemma unique_ids_save (pf : platform) (st : fs) (p : path)
    (original_id : text) (f : form) :
  unique_ids st p -> settled_row (form_row f) = true ->
  unique_ids (fst (save_changes pf st p original_id f)) p.
Proof.
  intros Hu Hf. unfold save_changes.
  destruct (strip is_space (entry_id f)) as [|c s] eqn:E; [exact Hu|].
  destruct (id_exists st p (c :: s) (Some original_id)) eqn:Hex;
    [exact Hu|].
  rewrite <- E in Hex. now apply unique_ids_update.
Qed.

(** X14.  No operation of the editor brings in a second record with an
    identifier already listed.  On a store whose listed records are read
    back as they stand and carry pairwise different identifiers, and for a
    form whose row is read back as it stands, [add_entry] (on a store in
    order), [save_changes] and [delete_selected] all leave such a store,
    whatever their arguments and whatever their outcome. *)
Theorem unique_ids_kept (pf : platform) (st : fs) (p : path) :
  unique_ids st p ->
  (forall f, store_ok st p -> settled_row (form_row f) = true ->
             unique_ids (fst (add_entry pf st p f)) p)
  /\ (forall original_id f,
         settled_row (form_row f) = true ->
         unique_ids (fst (save_changes pf st p original_id f)) p)
  /\ (forall id, unique_ids (fst (delete_selected pf st p id)) p).
Proof.
  intros Hu. split; [|split].
  - intros f Hok Hf. now apply unique_ids_add.
  - intros original_id f Hf. now apply unique_ids_save.
  - intros id. now apply unique_ids_delete.
Qed.

(** ** The condition column *)

Lemma lstrip_head (q : Z -> bool) (s : text) (c : Z) (r : text) :
  lstrip q s = c :: r -> q c = false.
Proof.
  induction s as [|x s IH]; [discriminate|].
  cbn [lstrip]. destruct (q x) eqn:E; [exact IH|].
  now intros [= <- _].
Qed.

Lemma lstrip_fixed (q : Z -> bool) (c : Z) (s : text) :
  q c = false -> lstrip q (c :: s) = c :: s.
Proof. intros H. cbn [lstrip]. now rewrite H. Qed.

Lemma lstrip_all (q : Z -> bool) (s : text) :
  Forall (fun c => q c = true) s -> lstrip q s = [].
Proof.
  induction 1 as [|c s Hc _ IH]; [reflexivity|].
  cbn [lstrip]. now rewrite Hc.
Qed.

Lemma rstrip_last (q : Z -> bool) (s : text) (d : Z) :
  rstrip q s <> [] -> q (last (rstrip q s) d) = false.
Proof.
  unfold rstrip. destruct (lstrip q (rev s)) as [|c r] eqn:E;
    [now intros []|].
  intros _. cbn [rev]. rewrite last_last. now apply lstrip_head in E.
Qed.

Lemma rstrip_fixed (q : Z -> bool) (s : text) (d : Z) :
  s <> [] -> q (last s d) = false -> rstrip q s = s.
Proof.
  intros Hs Hl. pose proof (app_removelast_last d Hs) as E.
  remember (removelast s) as a eqn:Ea. remember (last s d) as c eqn:Ec.
  clear Ea Ec. subst s. unfold rstrip.
  rewrite rev_app_distr. cbn [rev app]. rewrite (lstrip_fixed _ _ _ Hl).
  cbn [rev]. now rewrite rev_involutive.
Qed.

Lemma rstrip_keeps (q : Z -> bool) (s : text) (c : Z) :
  In c s -> q c = false -> In c (rstrip q s).
Proof.
  intros Hin Hc. unfold rstrip. apply in_rev. rewrite rev_involutive.
  apply lstrip_keeps; [|exact Hc]. now apply in_rev in Hin.
Qed.

Lemma strip_head (q : Z -> bool) (s : text) (c : Z) (r : text) :
  strip q s = c :: r -> q c = false.
Proof.
  unfold strip. destruct (lstrip q s) as [|c0 x] eqn:E.
  - discriminate.
  - pose proof (lstrip_head _ _ _ _ E) as Hc0.
    destruct (strip_head_kept q c0 x Hc0) as [s' Hs'].
    unfold strip in Hs'. rewrite (lstrip_fixed _ _ _ Hc0) in Hs'.
    rewrite Hs'. now intros [= <- _].
Qed.

Lemma strip_fixed (q : Z -> bool) (c : Z) (s : text) (d : Z) :
  q c = false -> q (last (c :: s) d) = false -> strip q (c :: s) = c :: s.
Proof.
  intros Hc Hl. unfold strip. rewrite (lstrip_fixed _ _ _ Hc).
  now apply (rstrip_fixed q (c :: s) d).
Qed.

(** X15.  The condition shown in the preview never begins or ends with
    white space; it is the three details joined by single spaces when the
    first begins and the last ends with a character that is not white
    space, and it is empty when all three hold white space only. *)
Theorem build_condition_spec (d1 d2 d3 : text) :
  (forall c r, build_condition d1 d2 d3 = c :: r -> is_space c = false)
  /\ (build_condition d1 d2 d3 <> [] ->
      is_space (last (build_condition d1 d2 d3) SPACE) = false)
  /\ (forall c r, d1 = c :: r -> is_space c = false ->
                  d3 <> [] -> is_space (last d3 SPACE) = false ->
                  build_condition d1 d2 d3
                  = d1 ++ [SPACE] ++ d2 ++ [SPACE] ++ d3)
  /\ (Forall (fun c => is_space c = true) (d1 ++ d2 ++ d3) ->
      build_condition d1 d2 d3 = []).
Proof.
  unfold build_condition. split; [|split; [|split]].
  - intros c r. apply strip_head.
  - apply rstrip_last.
  - intros c r -> Hc Hd3 Hl. cbn [app].
    apply (strip_fixed is_space c _ SPACE Hc).
    match goal with
    | |- is_space (last ?l _) = false =>
        replace l with ((c :: r ++ SPACE :: d2 ++ [SPACE]) ++ d3)
    end.
    + now rewrite last_app_nonempty.
    + cbn [app]. rewrite <- app_assoc. cbn [app]. now rewrite <- app_assoc.
  - intros H. unfold strip. rewrite lstrip_all; [reflexivity|].
    apply Forall_app in H as [H1 H]. apply Forall_app in H as [H2 H3].
    repeat (apply Forall_app; split); trivial; now repeat constructor.
Qed.

(** ** The sort key *)

Lemma is_digit_range (c : Z) : is_digit c = true <-> 48 <= c <= 57.
Proof. unfold is_digit. rewrite andb_true_iff, !Z.leb_le. tauto. Qed.

Lemma scan_digits_value (x : text) (acc : Z) (n : nat) :
  forallb is_digit x = true ->
  scan_digits acc n false x
  = Some (fold_left (fun a c => a * 10 + (c - 48)) x acc, (n + length x)%nat).
Proof.
  revert acc n. induction x as [|c x IH]; intros acc n H.
  - cbn. now rewrite Nat.add_0_r.
  - cbn [forallb] in H. apply andb_true_iff in H as [Hc Hx].
    cbn [scan_digits fold_left length]. fold (is_digit c). rewrite Hc.
    apply is_digit_range in Hc.
    destruct (Z.eqb_spec c 95); [lia|].
    rewrite (IH _ _ Hx). now rewrite Nat.add_succ_r.
Qed.

Lemma scan_digits_bad (c : Z) (s : text) (acc : Z) (n : nat) (f : bool) :
  In c s -> c <> 95 -> is_digit c = false -> scan_digits acc n f s = None.
Proof.
  intros Hin H95 Hd. revert acc n f.
  induction s as [|h t IH]; intros acc n f; [destruct Hin|].
  cbn [scan_digits]. fold (is_digit h).
  destruct (Z.eqb_spec h 95) as [->|Hh].
  - destruct f; [reflexivity|]. apply IH.
    destruct Hin as [E|Hin]; [congruence | exact Hin].
  - destruct (is_digit h) eqn:Eh; [|reflexivity]. apply IH.
    destruct Hin as [E|Hin]; [congruence | exact Hin].
Qed.

Lemma to_ascii_digits (x : text) :
  forallb is_digit x = true -> map to_ascii x = x.
Proof.
  intros H. rewrite forallb_forall in H. rewrite <- (map_id x) at 2.
  apply map_ext_in. intros c Hc. apply H, is_digit_range in Hc.
  unfold to_ascii. destruct (Z.ltb_spec c 127); [reflexivity | lia].
Qed.

Lemma digit_not_space (c : Z) : is_digit c = true -> is_c_space c = false.
Proof.
  intros H. apply is_digit_range in H. unfold is_c_space.
  destruct (Z.leb_spec 9 c), (Z.leb_spec c 13), (Z.eqb_spec c 32);
    cbn; trivial; lia.
Qed.

Lemma last_in {A : Type} (l : list A) (d : A) : l <> [] -> In (last l d) l.
Proof.
  intros H. rewrite (app_removelast_last d H) at 2.
  apply in_or_app. right. now left.
Qed.

Lemma rstrip_digits (x : text) :
  forallb is_digit x = true -> rstrip is_c_space x = x.
Proof.
  intros H. destruct x as [|c x]; [reflexivity|].
  apply (rstrip_fixed _ _ 0); [discriminate|].
  apply digit_not_space. rewrite forallb_forall in H. apply H.
  now apply last_in.
Qed.

Lemma py_int_digits (x : text) :
  forallb is_digit x = true -> x <> [] ->
  (length x <= int_max_str_digits)%nat ->
  py_int x = Some (decimal_of x) /\ py_int (45 :: x) = Some (- decimal_of x).
Proof.
  intros H Hne Hlen.
  pose proof (rstrip_digits x H) as Hr.
  pose proof (scan_digits_value x 0 0 H) as Hs.
  pose proof (to_ascii_digits x H) as Ha.
  destruct x as [|c x]; [contradiction|].
  assert (Hc : is_digit c = true).
  { cbn [forallb] in H. now apply andb_true_iff in H as [Hc _]. }
  pose proof (digit_not_space c Hc) as Hsp.
  apply is_digit_range in Hc.
  assert (Hl : (int_max_str_digits <? length (c :: x))%nat = false).
  { apply Nat.ltb_ge. exact Hlen. }
  cbn [Nat.add] in Hs.
  split.
  - unfold py_int. rewrite Ha, (lstrip_fixed _ _ _ Hsp).
    destruct (Z.eqb_spec c 43); [lia|]. destruct (Z.eqb_spec c 45); [lia|].
    rewrite Hr. destruct (Z.eqb_spec c 95); [lia|].
    rewrite Hs, Hl. reflexivity.
  - unfold py_int.
    change (map to_ascii (45 :: c :: x))
      with (45 :: map to_ascii (c :: x)).
    rewrite Ha.
    rewrite (lstrip_fixed is_c_space 45 (c :: x) eq_refl).
    change (45 =? 43) with false. change (45 =? 45) with true.
    cbv iota. rewrite Hr. destruct (Z.eqb_spec c 95); [lia|].
    rewrite Hs, Hl. reflexivity.
Qed.

Lemma never_in_int_true (c : Z) :
  never_in_int c = true ->
  c < 127 /\ is_digit c = false /\ is_c_space c = false
  /\ c <> 43 /\ c <> 45 /\ c <> 95.
Proof.
  unfold never_in_int. rewrite !andb_true_iff, !negb_true_iff.
  rewrite Z.ltb_lt, !Z.eqb_neq. tauto.
Qed.

Lemma py_int_bad (x : text) (c : Z) :
  In c x -> never_in_int c = true -> py_int x = None.
Proof.
  intros Hin Hc.
  apply never_in_int_true in Hc as (H127 & Hd & Hsp & H43 & H45 & H95).
  assert (Ha : In c (lstrip is_c_space (map to_ascii x))).
  { apply lstrip_keeps; [|exact Hsp]. apply in_map_iff. exists c.
    split; [|exact Hin]. unfold to_ascii.
    destruct (Z.ltb_spec c 127); [reflexivity | lia]. }
  unfold py_int. destruct (lstrip is_c_space (map to_ascii x)) as [|h a];
    [destruct Ha|].
  assert (Hbody : forall negative body,
             In c body ->
             match rstrip is_c_space body with
             | [] => None
             | c0 :: r =>
                 if c0 =? 95 then None
                 else match scan_digits 0 0 false (c0 :: r) with
                      | Some (v, n) =>
                          if (int_max_str_digits <? n)%nat then None
                          else Some (if negative : bool then - v else v)
                      | None => None
                      end
             end = None).
  { intros negative body Hb.
    pose proof (rstrip_keeps is_c_space body c Hb Hsp) as Hr.
    destruct (rstrip is_c_space body) as [|c0 r]; [reflexivity|].
    destruct (c0 =? 95); [reflexivity|].
    now rewrite (scan_digits_bad c (c0 :: r) 0 0 false Hr H95 Hd). }
  destruct (Z.eqb_spec h 43) as [->|Hh43].
  - refine (Hbody false a _). destruct Ha as [E|Ha]; [congruence | exact Ha].
  - destruct (Z.eqb_spec h 45) as [->|Hh45].
    + refine (Hbody true a _). destruct Ha as [E|Ha]; [congruence | exact Ha].
    + exact (Hbody false (h :: a) Ha).
Qed.

(** X16.  The sort key of an identifier made of at most 4300 ASCII digits
    is its decimal value, negated behind a minus sign, so leading zeros
    do not count and such identifiers are ordered as numbers; an
    identifier holding an ASCII character other than a digit, white
    space, a sign or an underscore keeps its text as the key and sorts
    after every number. *)
Theorem try_int_key_spec (x y : text) :
  forallb is_digit x = true -> x <> [] ->
  (length x <= int_max_str_digits)%nat ->
  try_int_key x = IntKey (decimal_of x)
  /\ try_int_key (45 :: x) = IntKey (- decimal_of x)
  /\ decimal_of (48 :: x) = decimal_of x
  /\ (forallb is_digit y = true -> y <> [] ->
      (length y <= int_max_str_digits)%nat ->
      key_ltb (try_int_key x) (try_int_key y)
      = (decimal_of x <? decimal_of y))
  /\ (forall c, In c y -> never_in_int c = true ->
                try_int_key y = StrKey y
                /\ key_ltb (try_int_key x) (try_int_key y) = true
                /\ key_ltb (try_int_key y) (try_int_key x) = false).
Proof.
  intros Hx Hne Hlen.
  destruct (py_int_digits x Hx Hne Hlen) as [H1 H2].
  unfold try_int_key. rewrite H1, H2. repeat split.
  - intros Hy Hney Hleny.
    destruct (py_int_digits y Hy Hney Hleny) as [-> _]. reflexivity.
  - now rewrite (py_int_bad y c).
  - now rewrite (py_int_bad y c).
  - now rewrite (py_int_bad y c).
Qed.

(** ** Saving over a record *)

Lemma unlisted_no_match (st : fs) (p : path) (id : text) (rows : list row) :
  (forall x, In x rows -> In x (list_data_records st p)) ->
  ~ In id (map row_id rows) ->
  Forall (fun x => has_id id x = false) rows.
Proof.
  intros Hincl Hid. apply Forall_forall. intros x Hx.
  pose proof (list_data_records_wide st p) as Hw.
  rewrite Forall_forall in Hw. specialize (Hw x (Hincl x Hx)).
  rewrite has_id_wide by lia.
  destruct (text_eqb (row_id x) id) eqn:E; [|reflexivity].
  apply text_eqb_eq in E. exfalso. apply Hid. rewrite <- E.
  now apply in_map.
Qed.

Lemma long_when_listed (st : fs) (p : path) (r : row) :
  In r (list_data_records st p) -> (2 < length (read_all_rows st p))%nat.
Proof.
  unfold list_data_records, data_rows_shown.
  destruct (Nat.ltb_spec 2 (length (read_all_rows st p))); [trivial|].
  intros [].
Qed.

(** X17.  Saving over a listed record.  On a store whose listed records
    are read back as they stand and have pairwise different identifiers,
    [save_changes] with a settled form, a non-blank identifier and no
    duplicate succeeds: the row of the form stands where the record stood,
    every other record is as before, [edit_selected] on the new identifier
    gives the row of the form back, and when the identifier was changed the
    old one is no longer found. *)
Theorem save_changes_then_edit (pf : platform) (st : fs) (p : path)
    (original_id : text) (f : form) :
  unique_ids st p ->
  id_exists st p original_id None = true ->
  settled_row (form_row f) = true ->
  strip is_space (entry_id f) <> [] ->
  id_exists st p (strip is_space (entry_id f)) (Some original_id) = false ->
  exists st' pre r post,
    list_data_records st p = pre ++ r :: post
    /\ row_id r = original_id
    /\ save_changes pf st p original_id f = (st', Success)
    /\ list_data_records st' p = pre ++ form_row f :: post
    /\ edit_selected st' p (strip is_space (entry_id f)) = Some (form_row f)
    /\ (strip is_space (entry_id f) <> original_id ->
        id_exists st' p original_id None = false
        /\ edit_selected st' p original_id = None).
Proof.
  intros [Hset Hnd] Hex Hf Hne Hnew.
  destruct (listed_split st p original_id Hex)
    as (pre & r & post & Hl & Hpre & Hr).
  destruct (update_row_found pf st p original_id (form_row f) pre r post
              Hl Hpre Hr (settled_row_plain _ Hf)) as (b & Hu & Hl').
  rewrite Hl in Hset. apply settled_rows_middle in Hset as (H1 & _ & H2).
  rewrite (resanitize_settled _ H1), (resanitize_settled _ H2) in Hl'.
  rewrite (stable_row_clean _ (settled_row_stable _ Hf)), form_row_padded
    in Hl'.
  assert (Hedit : data_rows_edit (read_all_rows (fs_write st p b) p)
                  = pre ++ form_row f :: post).
  { rewrite <- data_rows_shown_edit_eq; [exact Hl'|].
    apply (long_when_listed _ _ (form_row f)). rewrite Hl'.
    apply in_or_app. right. now left. }
  assert (Hids : NoDup (map row_id pre ++ original_id :: map row_id post)).
  { unfold listed_ids in Hnd. rewrite Hl, map_app in Hnd. cbn [map] in Hnd.
    now rewrite (has_id_row_id _ _ Hr) in Hnd. }
  assert (Hin_pre : forall x, In x pre -> In x (list_data_records st p)).
  { intros x Hx. rewrite Hl. apply in_or_app. now left. }
  assert (Hin_post : forall x, In x post -> In x (list_data_records st p)).
  { intros x Hx. rewrite Hl. apply in_or_app. right. now right. }
  exists (fs_write st p b), pre, r, post.
  split; [exact Hl|]. split; [now apply has_id_row_id|].
  split; [|split; [exact Hl'|split]].
  - unfold save_changes.
    destruct (strip is_space (entry_id f)) as [|c s] eqn:E;
      [contradiction|].
    now rewrite Hnew.
  - unfold edit_selected. rewrite Hedit.
    assert (Hp : Forall (fun x => has_id (strip is_space (entry_id f)) x
                                  = false) pre).
    { destruct (list_eq_dec Z.eq_dec (strip is_space (entry_id f))
                  original_id) as [->|Hd]; [exact Hpre|].
      apply (unlisted_no_match st p _ pre Hin_pre). intros Hin.
      assert (Hx : id_exists st p (strip is_space (entry_id f))
                     (Some original_id) = true).
      { apply id_exists_excluding. split; [exact Hd|].
        unfold listed_ids. rewrite Hl, map_app. apply in_or_app. now left. }
      rewrite Hx in Hnew. discriminate. }
    rewrite (find_app_none _ _ _ Hp). cbn [find].
    now rewrite has_id_form_row.
  - intros Hd.
    assert (Hall : Forall (fun x => has_id original_id x = false)
                     (pre ++ form_row f :: post)).
    { apply Forall_app. split; [exact Hpre|]. constructor.
      - destruct (has_id original_id (form_row f)) eqn:E; [|reflexivity].
        apply has_id_row_id in E. rewrite form_row_id in E. contradiction.
      - apply (unlisted_no_match st p _ post Hin_post). intros Hin.
        apply NoDup_remove_2 in Hids. apply Hids. apply in_or_app.
        now right. }
    split.
    + unfold id_exists. fold (list_data_records (fs_write st p b) p).
      rewrite Hl'. now apply id_scan_false.
    + unfold edit_selected. rewrite Hedit.
      rewrite <- (app_nil_r (pre ++ form_row f :: post)).
      now rewrite (find_app_none _ _ _ Hall).
Qed.

(** ** What holds of every store the editor reaches *)

Lemma store_ok_add (pf : platform) (st : fs) (p : path) (f : form) :
  store_ok st p -> settled_row (form_row f) = true ->
  store_ok (fst (add_entry pf st p f)) p.
Proof.
  intros Hok Hf.
  destruct (strip is_space (entry_id f)) as [|c s] eqn:E.
  { unfold add_entry. now rewrite E. }
  destruct (id_exists st p (c :: s) None) eqn:Hex.
  { unfold add_entry. now rewrite E, Hex. }
  assert (Hne : strip is_space (entry_id f) <> []) by now rewrite E.
  rewrite <- E in Hex.
  now destruct (add_entry_at pf st p f Hok Hf Hne Hex) as (st' & -> & _ & H & _).
Qed.

Lemma store_ok_save (pf : platform) (st : fs) (p : path)
    (original_id : text) (f : form) :
  store_ok st p -> id_exists st p original_id None = true ->
  settled_row (form_row f) = true ->
  store_ok (fst (save_changes pf st p original_id f)) p.
Proof.
  intros Hok Hex Hf. unfold save_changes.
  destruct (strip is_space (entry_id f)) as [|c s]; [exact Hok|].
  destruct (id_exists st p (c :: s) (Some original_id)); [exact Hok|].
  apply update_listed_store_ok; [exact Hex | now apply settled_row_plain].
Qed.

Lemma fresh_unique_ids (st : fs) (p : path) :
  unique_ids (fst (create_new_file st p)) p.
Proof.
  rewrite create_new_file_bytes. cbn [fst].
  assert (E : list_data_records (fs_write st p fresh_file) p = []).
  { unfold list_data_records, read_all_rows. rewrite fs_write_same.
    vm_compute. reflexivity. }
  unfold unique_ids, listed_ids. rewrite E. split; [reflexivity|constructor].
Qed.

(** X18.  Every store the editor reaches from a newly created file is in
    order (readable, ending with a line boundary, with its two leading
    rows), its listed records are read back as they stand, and no two of
    them carry one identifier. *)
Theorem reachable_store_in_order (pf : platform) (p : path) (st : fs) :
  reachable pf p st -> store_ok st p /\ unique_ids st p.
Proof.
  induction 1 as [st | st f _ [Hok Hu] Hf
                 | st original_id f _ [Hok Hu] Hex Hf
                 | st id _ [Hok Hu] Hex].
  - split; [apply fresh_store_ok | apply fresh_unique_ids].
  - split; [now apply store_ok_add | now apply unique_ids_add].
  - split; [now apply store_ok_save | now apply unique_ids_save].
  - split; [now apply delete_listed_store_ok | now apply unique_ids_delete].
Qed.

(** ** The further properties at the worked stores *)

Ltac run := vm_compute; reflexivity.

Ltac store_ok_by_run :=
  eexists; eexists;
  split; [run | split; [run | split; [run | vm_compute; lia]]].

Ltac unique_ids_by_run :=
  split; [run | vm_compute; repeat (constructor; [cbn; intuition discriminate|]);
                constructor].

(** X1 on a path that does not exist and on a fresh file. *)
Lemma ensure_file_and_header_spec_witness :
  (read_all_rows (ensure_file_and_header Posix no_files p0) p0 = [COLUMNS]
   /\ snd (browse_file Posix no_files p0) = []
   /\ forall id, id_exists (ensure_file_and_header Posix no_files p0) p0 id
                   None = false)
  /\ (ensure_file_and_header Windows st_fresh p0 = st_fresh
      /\ browse_file Windows st_fresh p0 = (st_fresh, preview st_fresh p0))
  /\ ensure_file_and_header Posix no_files p0 p1 = no_files p1.
Proof.
  destruct (ensure_file_and_header_spec Posix no_files p0)
    as (_ & Hnone & Hother & _).
  destruct (ensure_file_and_header_spec Windows st_fresh p0)
    as (Hsome & _).
  split; [|split].
  - apply Hnone. reflexivity.
  - apply (Hsome fresh_file). run.
  - apply Hother. discriminate.
Defined.

(** X2 on the store of two entries. *)
Lemma id_exists_spec_witness :
  id_exists st_two p0 (txt "2") (Some (txt "1"))
  = id_exists st_two p0 (txt "2") None.
Proof.
  destruct (id_exists_spec st_two p0 (txt "2")) as (_ & _ & H).
  apply H. vm_compute. discriminate.
Defined.

(** X3 for an entry whose identifier is taken. *)
Lemma rejected_operations_keep_files_witness :
  fst (add_entry Posix st_one p0 (filled (txt "1") (txt "again"))) = st_one
  /\ fst (save_changes Posix st_two p0 (txt "2")
            (filled (txt "1") (txt "again"))) = st_two
  /\ fst (delete_selected Posix st_two p0 (txt "3")) = st_two.
Proof.
  destruct (rejected_operations_keep_files Posix st_one p0) as (Ha & _).
  destruct (rejected_operations_keep_files Posix st_two p0) as (_ & Hs & Hd).
  split; [|split].
  - apply (Ha (filled (txt "1") (txt "again")) _ DuplicateId).
    + run.
    + discriminate.
    + discriminate.
  - apply (Hs (txt "2") (filled (txt "1") (txt "again")) _ DuplicateId).
    + run.
    + discriminate.
    + discriminate.
  - apply (Hd (txt "3") _ NotFound).
    + run.
    + discriminate.
    + discriminate.
Defined.

(** X4 on a path that does not exist and on a file of one byte. *)
Lemma unreadable_file_is_empty_witness :
  (read_all_rows no_files p0 = []
   /\ preview no_files p0 = []
   /\ (forall id e, id_exists no_files p0 id e = false)
   /\ (forall id, edit_selected no_files p0 id = None)
   /\ (forall pf id, delete_selected pf no_files p0 id = (no_files, NotFound))
   /\ (forall pf id new_r,
          update_row pf no_files p0 id new_r = (no_files, NotFound)))
  /\ utf16le_decode [x41] = None
  /\ read_all_rows (fst (append_row_utf16le Posix st_odd p0 sample_record)) p0
     = [].
Proof.
  destruct (unreadable_file_is_empty no_files p0) as (Hnone & Hodd & _).
  destruct (unreadable_file_is_empty st_odd p0) as (_ & _ & Happ).
  split; [|split].
  - apply Hnone. left. reflexivity.
  - apply Hodd. reflexivity.
  - apply (Happ Posix [x41]); reflexivity.
Defined.

(** X6: the second entry saved with a cell that cannot be encoded. *)
Lemma update_write_error_truncates_witness :
  exists pre r post st',
    list_data_records st_two p0 = pre ++ r :: post
    /\ Forall (fun x => has_id (txt "2") x = false) pre
    /\ has_id (txt "2") r = true
    /\ update_row Posix st_two p0 (txt "2") unencodable_row
       = (st', WriteError)
    /\ list_data_records st' p0 = resanitize pre
    /\ (length (list_data_records st' p0)
        < length (list_data_records st_two p0))%nat.
Proof.
  apply (update_write_error_truncates Posix st_two p0 (txt "2")
           unencodable_row [55296] 55296).
  - run.
  - right. left. reflexivity.
  - left. reflexivity.
  - reflexivity.
Defined.

(** X7 on the store of two entries. *)
Lemma bom_is_kept_witness :
  has_bom (fst (append_row_utf16le Posix st_two p0 sample_record)) p0
  /\ has_bom (fst (delete_selected Posix st_two p0 (txt "1"))) p0
  /\ has_bom (fst (update_row Posix st_two p0 (txt "2") unencodable_row)) p0.
Proof.
  destruct (bom_is_kept Posix st_two p0) as (Ha & Hd & Hu).
  - exists (skipn 2 (file_bytes st_two p0)). run.
  - split; [|split].
    + apply Ha.
    + apply Hd. run.
    + apply Hu. run.
Defined.

(** X8: a record with a line feed and quotes appended to a fresh file. *)
Lemma append_row_read_back_witness :
  exists st',
    append_row_utf16le Posix st_fresh p0
      (map PyStr [txt " 7 "; txt "a" ++ [LF] ++ txt "b"; [DQUOTE] ++ txt "c"])
    = (st', Success)
    /\ read_all_rows st' p0
       = read_all_rows st_fresh p0
         ++ [pad_row (map stored_cell
                        [txt " 7 "; txt "a" ++ [LF] ++ txt "b";
                         [DQUOTE] ++ txt "c"])]
    /\ (forall q, q <> p0 -> st' q = st_fresh q).
Proof.
  apply (append_row_read_back Posix st_fresh p0 fresh_file fresh_text).
  - run.
  - run.
  - run.
  - vm_compute. lia.
  - run.
  - run.
Defined.

(** X9: a second entry added to the store of one. *)
Lemma add_entry_listed_witness :
  let f := filled (txt "2") (txt "Motor 2 fault") in
  exists st',
    add_entry Posix st_one p0 f = (st', Success)
    /\ list_data_records st' p0 = list_data_records st_one p0 ++ [form_row f]
    /\ id_exists st' p0 (strip is_space (entry_id f)) None = true
    /\ edit_selected st' p0 (strip is_space (entry_id f)) = Some (form_row f)
    /\ In (display_row (form_row f)) (preview st' p0)
    /\ (forall q, q <> p0 -> st' q = st_one q).
Proof.
  cbv zeta.
  apply (add_entry_listed Posix st_one p0
           (filled (txt "2") (txt "Motor 2 fault"))).
  - store_ok_by_run.
  - run.
  - vm_compute. discriminate.
  - run.
Defined.

(** X10: the first entry of a fresh file, added a second time. *)
Lemma add_entry_twice_witness :
  let f := filled (txt "1") (txt "Motor 1 fault") in
  exists st',
    add_entry Windows st_fresh p0 f = (st', Success)
    /\ add_entry Windows st' p0 f = (st', DuplicateId).
Proof.
  cbv zeta.
  apply (add_entry_twice Windows st_fresh p0
           (filled (txt "1") (txt "Motor 1 fault"))).
  - store_ok_by_run.
  - run.
  - vm_compute. discriminate.
  - run.
Defined.

(** X11: an entry added to the store of one and deleted again. *)
Lemma add_entry_then_delete_witness :
  let f := filled (txt "2") (txt "Motor 2 fault") in
  exists st1 st2,
    add_entry Posix st_one p0 f = (st1, Success)
    /\ delete_selected Posix st1 p0 (strip is_space (entry_id f))
       = (st2, Success)
    /\ list_data_records st2 p0 = list_data_records st_one p0.
Proof.
  cbv zeta.
  destruct (add_entry_then_delete Posix st_one p0
              (filled (txt "2") (txt "Motor 2 fault")))
    as (st1 & st2 & Ha & Hd & _ & Hl).
  - store_ok_by_run.
  - run.
  - vm_compute. discriminate.
  - run.
  - exists st1, st2. split; [exact Ha|]. split; [exact Hd|].
    apply Hl. run.
Defined.

(** X13 on a fresh file, on the store of two entries and on a path that
    does not exist. *)
Lemma store_ok_kept_witness :
  store_ok (fst (append_row_utf16le Posix st_fresh p0
                   (map PyStr sample_cells))) p0
  /\ store_ok (fst (delete_selected Posix st_two p0 (txt "1"))) p0
  /\ store_ok (fst (update_row Posix st_two p0 (txt "2") sample_cells)) p0
  /\ ~ store_ok (ensure_file_and_header Posix no_files p0) p0.
Proof.
  destruct (store_ok_kept Posix st_fresh p0) as (_ & Ha & _).
  destruct (store_ok_kept Posix st_two p0) as (_ & _ & Hd & Hu & _).
  destruct (store_ok_kept Posix no_files p0) as (_ & _ & _ & _ & He).
  split; [|split; [|split]].
  - apply Ha; [store_ok_by_run | run].
  - apply Hd. run.
  - apply Hu; run.
  - apply He. reflexivity.
Defined.

(** X14 on the store of two entries. *)
Lemma unique_ids_kept_witness :
  unique_ids (fst (add_entry Posix st_two p0
                     (filled (txt "3") (txt "Motor 3 fault")))) p0
  /\ unique_ids (fst (save_changes Posix st_two p0 (txt "2")
                        (filled (txt "1") (txt "Motor 1 again")))) p0
  /\ unique_ids (fst (delete_selected Posix st_two p0 (txt "1"))) p0.
Proof.
  destruct (unique_ids_kept Posix st_two p0) as (Ha & Hs & Hd).
  - unique_ids_by_run.
  - split; [|split].
    + apply Ha; [store_ok_by_run | run].
    + apply Hs. run.
    + apply Hd.
Defined.

(** X15 on the condition of the scenario and on blank details. *)
Lemma build_condition_spec_witness :
  build_condition (txt "Motor1.Fault") (txt "=") (txt "TRUE")
  = txt "Motor1.Fault" ++ [SPACE] ++ txt "=" ++ [SPACE] ++ txt "TRUE"
  /\ is_space (last (build_condition (txt "Motor1.Fault") (txt "=")
                       (txt "TRUE")) SPACE) = false
  /\ build_condition (txt " ") [] (txt "  ") = [].
Proof.
  destruct (build_condition_spec (txt "Motor1.Fault") (txt "=") (txt "TRUE"))
    as (_ & Hl & Hj & _).
  destruct (build_condition_spec (txt " ") [] (txt "  ")) as (_ & _ & _ & He).
  split; [|split].
  - apply (Hj 77 (txt "otor1.Fault")).
    + reflexivity.
    + reflexivity.
    + vm_compute. discriminate.
    + reflexivity.
  - apply Hl. vm_compute. discriminate.
  - apply He. vm_compute. repeat constructor.
Defined.

(** X16 on the identifiers 007, 12 and abc. *)
Lemma try_int_key_spec_witness :
  (try_int_key (txt "007") = IntKey (decimal_of (txt "007"))
   /\ try_int_key (45 :: txt "007") = IntKey (- decimal_of (txt "007"))
   /\ key_ltb (try_int_key (txt "007")) (try_int_key (txt "12"))
      = (decimal_of (txt "007") <? decimal_of (txt "12")))
  /\ try_int_key (txt "abc") = StrKey (txt "abc")
  /\ key_ltb (try_int_key (txt "007")) (try_int_key (txt "abc")) = true.
Proof.
  destruct (try_int_key_spec (txt "007") (txt "12"))
    as (H1 & H2 & _ & Hlt & _).
  - reflexivity.
  - vm_compute. discriminate.
  - vm_compute. lia.
  - destruct (try_int_key_spec (txt "007") (txt "abc"))
      as (_ & _ & _ & _ & Hstr).
    + reflexivity.
    + vm_compute. discriminate.
    + vm_compute. lia.
    + destruct (Hstr 97) as (Hk & Hb & _).
      * left. reflexivity.
      * reflexivity.
      * split; [|split; [exact Hk | exact Hb]].
        split; [exact H1|]. split; [exact H2|].
        apply Hlt; [reflexivity | vm_compute; discriminate | vm_compute; lia].
Defined.

(** X17: the second entry of the store of two saved under the
    identifier 5. *)
Lemma save_changes_then_edit_witness :
  let f := filled (txt " 5 ") (txt "Motor 5 fault") in
  exists st' pre r post,
    list_data_records st_two p0 = pre ++ r :: post
    /\ row_id r = txt "2"
    /\ save_changes Posix st_two p0 (txt "2") f = (st', Success)
    /\ list_data_records st' p0 = pre ++ form_row f :: post
    /\ edit_selected st' p0 (strip is_space (entry_id f)) = Some (form_row f)
    /\ id_exists st' p0 (txt "2") None = false
    /\ edit_selected st' p0 (txt "2") = None.
Proof.
  cbv zeta.
  destruct (save_changes_then_edit Posix st_two p0 (txt "2")
              (filled (txt " 5 ") (txt "Motor 5 fault")))
    as (st' & pre & r & post & Hl & Hr & Hs & Hl' & He & Hold).
  - unique_ids_by_run.
  - run.
  - run.
  - vm_compute. discriminate.
  - run.
  - exists st', pre, r, post. repeat (split; [assumption|]).
    apply Hold. vm_compute. discriminate.
Defined.

(** X18 on the store of two entries. *)
Lemma reachable_store_in_order_witness :
  store_ok st_two p0 /\ unique_ids st_two p0.
Proof.
  apply (reachable_store_in_order Posix p0 st_two).
  unfold st_two. apply reach_add; [|run].
  unfold st_one. apply reach_add; [|run].
  unfold st_fresh. apply reach_new.
Defined.

(** X5: the first entry of the store of two deleted, and an identifier
    that is not there. *)
Lemma delete_selected_outcomes_witness :
  (exists pre r post,
      data_rows_edit (read_all_rows st_two p0) = pre ++ r :: post
      /\ has_id (txt "1") r = true
      /\ (length (read_all_rows
                    (fst (delete_selected Posix st_two p0 (txt "1"))) p0) + 1
          = length (read_all_rows st_two p0))%nat
      /\ fst (delete_selected Posix st_two p0 (txt "1")) p1 = st_two p1)
  /\ Forall (fun x => has_id (txt "3") x = false)
       (data_rows_edit (read_all_rows st_two p0)).
Proof.
  split.
  - destruct (delete_selected_outcomes Posix st_two p0 (txt "1")
                (fst (delete_selected Posix st_two p0 (txt "1"))) Success)
      as [_ Hs].
    + vm_compute. reflexivity.
    + destruct (Hs eq_refl) as (pre & r & post & H1 & _ & H3 & _ & H5 & H6).
      exists pre, r, post. split; [exact H1|]. split; [exact H3|].
      split; [exact H5|]. apply H6. discriminate.
  - destruct (delete_selected_outcomes Posix st_two p0 (txt "3")
                st_two NotFound) as [Hn _].
    + vm_compute. reflexivity.
    + apply (Hn eq_refl).
Defined.

(** X12: a taken identifier typed with spaces around it, and a blank one. *)
Lemma validation_reports_witness :
  snd (add_entry Posix st_one p0 (filled (txt " 1 ") (txt "again")))
  = DuplicateId
  /\ snd (save_changes Posix st_two p0 (txt "2")
            (filled (txt "  ") (txt "again"))) = Required.
Proof.
  destruct (validation_reports Posix st_one p0) as (_ & _ & Hd & _).
  destruct (validation_reports Posix st_two p0) as (_ & Hr & _).
  split.
  - apply Hd. split; [vm_compute; discriminate|].
    vm_compute. left. reflexivity.
  - apply Hr. run.
Defined.
